(** * SimpleOS kernel core: page allocator, process table, system calls and
    the in-memory file system.

    A shallow embedding of [os_project/src/kernel/kernel.c] and
    [os_project/src/fs/filesystem.c].  Machine integers are [Z] with the
    32-bit wrap-around written out, C arrays are lists read and updated by
    index, NUL-terminated character data is [string], and the global
    variables of each translation unit are the fields of one state record
    that every function takes and returns.

    Indexing an array outside its bounds is undefined behaviour in C.  The
    model reads the zero element there and drops the write; statements that
    depend on an index carry the bound as a hypothesis.  A text longer than
    the character buffer it is built in overruns the buffer, which is
    undefined as well; the model keeps the whole text. *)

From Stdlib Require Import ZArith Lia Bool Ascii String.
From stdpp Require Import base list.

Local Open Scope Z_scope.

(** ** Machine arithmetic *)

(** Arithmetic on [uint32_t] is arithmetic modulo [2^32]. *)
Definition wrap32 (z : Z) : Z := z mod 2 ^ 32.

(** Conversion of a [uint32_t] bit pattern to [int] (two's complement). *)
Definition to_int (z : Z) : Z :=
  let u := wrap32 z in if u <? 2 ^ 31 then u else u - 2 ^ 32.

(** The values of a [uint32_t]. *)
Definition u32 (z : Z) : Prop := 0 <= z < 2 ^ 32.

(** [1 << j], read as a [uint32_t] operand. *)
Definition bit (j : Z) : Z := wrap32 (Z.shiftl 1 j).

(** [~(1 << j)], read as a [uint32_t] operand. *)
Definition not_bit (j : Z) : Z := wrap32 (Z.lnot (Z.shiftl 1 j)).

(** ** Arrays

    A C array is a list; its index is a machine integer. *)

Section Arrays.

Context {A : Type}.

(** [a[i]] as a value: [None] outside the array. *)
Fixpoint aget (a : list A) (i : Z) : option A :=
  match a with
  | [] => None
  | x :: a' => if i =? 0 then Some x else aget a' (i - 1)
  end.

(** [a[i] = v]: the array is left as it is when [i] is outside it. *)
Fixpoint aset (a : list A) (i : Z) (v : A) : list A :=
  match a with
  | [] => []
  | x :: a' => if i =? 0 then v :: a' else x :: aset a' (i - 1) v
  end.

End Arrays.

(** [memcpy(&dst[pos], &src[from], n)]: [dst[pos + k] = src[from + k]] for
    every [k < n]; [i] is the index of the head of [dst].  The model is that
    of the call while [pos + n] is within [dst] and [from + n] within [src];
    a call that leaves either array has no defined result in C, and the list
    kept here (nothing written past [dst], 0 read past [src]) says nothing
    of it. *)
Fixpoint memcpy_at (i : Z) (dst : list Z) (pos : Z) (src : list Z) (from n : Z) : list Z :=
  match dst with
  | [] => []
  | x :: dst' =>
      (if (pos <=? i) && (i <? pos + n) then default 0 (aget src (from + (i - pos))) else x)
        :: memcpy_at (i + 1) dst' pos src from n
  end.

Definition memcpy (dst : list Z) (pos : Z) (src : list Z) (from n : Z) : list Z :=
  memcpy_at 0 dst pos src from n.

(** ** kernel.c *)

Module Kernel.

Definition MEMORY_START : Z := 0x100000.
Definition PAGE_SIZE : Z := 4096.
Definition MAX_PAGES : Z := 1024.
Definition MAX_PROCESSES : Z := 10.
Definition PROCESS_STACK_SIZE : Z := 4096.
Definition BITMAP_WORDS : Z := Eval cbv in MAX_PAGES / 32.

(** [memory_bitmap[i]] *)
Definition word_at (bm : list Z) (i : Z) : Z := default 0 (aget bm i).

(** [init_memory]: every word cleared, then the first four pages reserved. *)
Definition init_memory : list Z :=
  aset (replicate (Z.to_nat BITMAP_WORDS) 0) 0 0x0000000F.

(** The inner loop of [allocate_page]: [for (j = ..; j < 32; j++)] with [n]
    iterations left, looking for a clear bit of the word [w]. *)
Fixpoint scan_bits (w : Z) (j : Z) (n : nat) : option Z :=
  match n with
  | O => None
  | S n' => if Z.land w (bit j) =? 0 then Some j else scan_bits w (j + 1) n'
  end.

(** The outer loop of [allocate_page]: [for (i = ..; i < MAX_PAGES / 32; i++)]
    with [n] iterations left.  Returns the bitmap and the value returned. *)
Fixpoint scan_words (bm : list Z) (i : Z) (n : nat) : list Z * Z :=
  match n with
  | O => (bm, 0)
  | S n' =>
      let w := word_at bm i in
      if negb (w =? 0xFFFFFFFF) then
        match scan_bits w 0 32 with
        | Some j =>
            (aset bm i (Z.lor w (bit j)),
             wrap32 (MEMORY_START + (i * 32 + j) * PAGE_SIZE))
        | None => scan_words bm (i + 1) n'
        end
      else scan_words bm (i + 1) n'
  end.

Definition allocate_page (bm : list Z) : list Z * Z :=
  scan_words bm 0 (Z.to_nat BITMAP_WORDS).

Definition free_page (page : Z) (bm : list Z) : list Z :=
  let page_index := wrap32 (page - MEMORY_START) / PAGE_SIZE in
  let bitmap_index := page_index / 32 in
  let bit_index := page_index mod 32 in
  aset bm bitmap_index (Z.land (word_at bm bitmap_index) (not_bit bit_index)).

(** The allocation bit of page [k]. *)
Definition page_bit (bm : list Z) (k : Z) : bool :=
  Z.testbit (word_at bm (k / 32)) (k mod 32).

(** The address of page [k] of the pool. *)
Definition page_address (k : Z) : Z := MEMORY_START + k * PAGE_SIZE.

(** [k0] is the lowest page of [lo .. hi - 1] whose bit is clear. *)
Definition first_free (bm : list Z) (lo hi k0 : Z) : Prop :=
  lo <= k0 < hi /\ page_bit bm k0 = false /\
  forall k, lo <= k < k0 -> page_bit bm k = true.

(** [n] calls of [allocate_page] in a row: the bitmap after the last and the
    values returned, in order. *)
Fixpoint allocate_many (n : nat) (bm : list Z) : list Z * list Z :=
  match n with
  | O => (bm, [])
  | S n' =>
      let '(bm, page) := allocate_page bm in
      let '(bm, pages) := allocate_many n' bm in
      (bm, page :: pages)
  end.

(** The ranks of [n] calls in a row, the first of rank [from]. *)
Fixpoint ranks (from : Z) (n : nat) : list Z :=
  match n with
  | O => []
  | S n' => from :: ranks (from + 1) n'
  end.

(** *** Text output *)

Definition MAX_ROWS : Z := 25.
Definition MAX_COLS : Z := 80.
Definition WHITE_ON_BLACK : Z := 0x0F.

(** A [char] promoted to [int] ([char] is signed on the target). *)
Definition char_to_int (c : ascii) : Z :=
  let n := Z.of_N (N_of_ascii c) in if n <? 128 then n else n - 256.

(** The [uint16_t] cell written for the character [c]. *)
Definition cell_of (c : ascii) : Z :=
  Z.lor (Z.shiftl WHITE_ON_BLACK 8) (char_to_int c) mod 2 ^ 16.

(** *** Processes *)

Record process_t := mk_process {
  pid : Z;
  state : Z;              (* 0=ready, 1=running, 2=blocked, 3=terminated *)
  stack_ptr : Z;
  code_ptr : Z;
  name : list ascii       (* char name[32] *)
}.

Definition PROCESS_READY : Z := 0.
Definition PROCESS_RUNNING : Z := 1.
Definition PROCESS_BLOCKED : Z := 2.
Definition PROCESS_TERMINATED : Z := 3.

Definition zero_process : process_t := mk_process 0 0 0 0 (replicate 32 zero).

(** The global variables of kernel.c. *)
Record kernel_state := mk_kernel {
  current_row : Z;
  current_col : Z;
  video_memory : list Z;       (* the MAX_ROWS * MAX_COLS cells at VIDEO_MEMORY *)
  memory_bitmap : list Z;      (* uint32_t memory_bitmap[MAX_PAGES / 32] *)
  next_pid : Z;
  processes : list process_t;  (* process_t processes[MAX_PROCESSES] *)
  current_process : Z
}.

Definition set_screen (k : kernel_state) (row col : Z) (vm : list Z) : kernel_state :=
  mk_kernel row col vm (memory_bitmap k) (next_pid k) (processes k) (current_process k).

Definition set_memory_bitmap (k : kernel_state) (bm : list Z) : kernel_state :=
  mk_kernel (current_row k) (current_col k) (video_memory k) bm (next_pid k)
    (processes k) (current_process k).

Definition set_next_pid (k : kernel_state) (n : Z) : kernel_state :=
  mk_kernel (current_row k) (current_col k) (video_memory k) (memory_bitmap k) n
    (processes k) (current_process k).

Definition set_processes (k : kernel_state) (ps : list process_t) : kernel_state :=
  mk_kernel (current_row k) (current_col k) (video_memory k) (memory_bitmap k)
    (next_pid k) ps (current_process k).

Definition set_current_process (k : kernel_state) (p : Z) : kernel_state :=
  mk_kernel (current_row k) (current_col k) (video_memory k) (memory_bitmap k)
    (next_pid k) (processes k) p.

(** [processes[i]] *)
Definition proc_at (k : kernel_state) (i : Z) : process_t :=
  default zero_process (aget (processes k) i).

(** [processes[i] = p] *)
Definition set_proc (k : kernel_state) (i : Z) (p : process_t) : kernel_state :=
  set_processes k (aset (processes k) i p).

Definition clear_screen (k : kernel_state) : kernel_state :=
  let blank := cell_of " "%char in
  set_screen k 0 0
    (foldl (fun vm i => aset vm (Z.of_nat i) blank) (video_memory k)
       (seq 0 (Z.to_nat (MAX_ROWS * MAX_COLS)))).

Definition print_char (c : ascii) (k : kernel_state) : kernel_state :=
  if Ascii.eqb c "010"%char then
    let row := current_row k + 1 in
    if row >=? MAX_ROWS then
      set_screen k (MAX_ROWS - 1) 0
        (foldl (fun vm i =>
                  aset vm (Z.of_nat i) (default 0 (aget vm (Z.of_nat i + MAX_COLS))))
           (video_memory k) (seq 0 (Z.to_nat ((MAX_ROWS - 1) * MAX_COLS))))
    else set_screen k row 0 (video_memory k)
  else
    let index := current_row k * MAX_COLS + current_col k in
    let vm := aset (video_memory k) index (cell_of c) in
    let col := current_col k + 1 in
    if col >=? MAX_COLS then set_screen k (current_row k + 1) 0 vm
    else set_screen k (current_row k) col vm.

Fixpoint print_string (str : string) (k : kernel_state) : kernel_state :=
  match str with
  | EmptyString => k
  | String c rest => print_string rest (print_char c k)
  end.

Definition hex_chars : string := "0123456789ABCDEF".

Definition print_hex (value : Z) (k : kernel_state) : kernel_state :=
  foldl (fun k i =>
           let nibble := Z.land (Z.shiftr value (Z.of_nat i * 4)) 0xF in
           print_char (default zero (String.get (Z.to_nat nibble) hex_chars)) k)
    (print_string "0x" k) (rev (seq 0 8)).

(** The value of an upper-case hexadecimal digit, and the number a text of
    such digits denotes, most significant digit first. *)
Definition hex_digit (c : ascii) : option Z :=
  let n := Z.of_N (N_of_ascii c) in
  if (48 <=? n) && (n <=? 57) then Some (n - 48)
  else if (65 <=? n) && (n <=? 70) then Some (n - 55)
  else None.

Fixpoint read_hex_from (acc : Z) (s : string) : option Z :=
  match s with
  | EmptyString => Some acc
  | String c rest => d ← hex_digit c; read_hex_from (acc * 16 + d) rest
  end.

Definition read_hex (s : string) : option Z := read_hex_from 0 s.

Definition init_processes (k : kernel_state) : kernel_state :=
  foldl (fun k i =>
           let p := proc_at k (Z.of_nat i) in
           set_proc k (Z.of_nat i) (mk_process 0 0 0 0 (aset (name p) 0 zero)))
    k (seq 0 (Z.to_nat MAX_PROCESSES)).

(** [name[j]] for the text [name] points to: past its end stands the NUL. *)
Definition char_at (s : string) (j : Z) : ascii :=
  default zero (String.get (Z.to_nat j) s).

(** The number of characters before the first NUL of a text. *)
Fixpoint strlen (s : string) : Z :=
  match s with
  | EmptyString => 0
  | String c rest => if Ascii.eqb c zero then 0 else 1 + strlen rest
  end.

(** [while (name[j] && j < 31) { dst[j] = name[j]; j++; }] with [n] iterations
    allowed; yields the array and the final [j]. *)
Fixpoint copy_name (n : nat) (src : string) (dst : list ascii) (j : Z) : list ascii * Z :=
  match n with
  | O => (dst, j)
  | S n' =>
      if negb (Ascii.eqb (char_at src j) zero) && (j <? 31) then
        copy_name n' src (aset dst j (char_at src j)) (j + 1)
      else (dst, j)
  end.

(** The body of [create_process] for the free slot [i]. *)
Definition fill_slot (nm : string) (entry_point : Z) (i : Z) (k : kernel_state)
  : kernel_state * Z :=
  let new_pid := next_pid k in
  let k := set_next_pid k (to_int (next_pid k + 1)) in
  let '(bm, page) := allocate_page (memory_bitmap k) in
  let k := set_memory_bitmap k bm in
  let '(chars, j) := copy_name 32 nm (name (proc_at k i)) 0 in
  let p := mk_process new_pid 1 (wrap32 (page + PROCESS_STACK_SIZE)) entry_point
             (aset chars j zero) in
  (set_proc k i p, new_pid).

(** [for (i = ..; i < MAX_PROCESSES; i++)] with [n] iterations left. *)
Fixpoint find_slot (n : nat) (nm : string) (entry_point : Z) (i : Z) (k : kernel_state)
  : kernel_state * Z :=
  match n with
  | O => (k, -1)
  | S n' =>
      if pid (proc_at k i) =? 0 then fill_slot nm entry_point i k
      else find_slot n' nm entry_point (i + 1) k
  end.

Definition create_process (nm : string) (entry_point : Z) (k : kernel_state)
  : kernel_state * Z :=
  find_slot (Z.to_nat MAX_PROCESSES) nm entry_point 0 k.

Definition schedule (k : kernel_state) : kernel_state := k.

Definition switch_context (new_process : Z) (k : kernel_state) : kernel_state :=
  if (new_process >=? 0) && (new_process <? MAX_PROCESSES) then
    if state (proc_at k new_process) =? 1 then set_current_process k new_process
    else k
  else k.

(** *** System calls *)

Definition SYS_WRITE : Z := 1.
Definition SYS_READ : Z := 2.
Definition SYS_EXIT : Z := 3.
Definition SYS_FORK : Z := 4.
Definition SYS_EXEC : Z := 5.

Section SystemCall.

(** The NUL-terminated text found at an address of the machine's memory. *)
Variable text_at : Z -> string.

Definition handle_system_call (call_number arg1 arg2 arg3 : Z) (k : kernel_state)
  : kernel_state :=
  if call_number =? SYS_WRITE then print_string (text_at arg1) k
  else if call_number =? SYS_READ then k
  else if call_number =? SYS_EXIT then
    let p := proc_at k (current_process k) in
    set_proc k (current_process k)
      (mk_process (pid p) 3 (stack_ptr p) (code_ptr p) (name p))
  else if call_number =? SYS_FORK then k
  else if call_number =? SYS_EXEC then k
  else print_string (String "010"%char EmptyString)
         (print_hex call_number (print_string "Unknown system call: " k)).

(** System calls in a row: each is its number and its three arguments. *)
Definition handle_system_calls (calls : list (Z * Z * Z * Z)) (k : kernel_state)
  : kernel_state :=
  foldl (fun k '(call_number, arg1, arg2, arg3) =>
           handle_system_call call_number arg1 arg2 arg3 k) k calls.

End SystemCall.

(** The globals of kernel.c as the loader leaves them: zeroed, [next_pid = 1]. *)
Definition zeroed : kernel_state :=
  mk_kernel 0 0 (replicate (Z.to_nat (MAX_ROWS * MAX_COLS)) 0)
    (replicate (Z.to_nat BITMAP_WORDS) 0) 1
    (replicate (Z.to_nat MAX_PROCESSES) zero_process) 0.

(** [kernel_main] up to its scheduling loop; the second component is the
    value of [create_process("shell", 0x2000)]. *)
Definition kernel_main_start (k : kernel_state) : kernel_state * Z :=
  let k := clear_screen k in
  let k := print_string ("SimpleOS Kernel Starting..." ++ String "010"%char EmptyString) k in
  let k := set_memory_bitmap k init_memory in
  let k := init_processes k in
  let k := print_string ("Memory management initialized" ++ String "010"%char EmptyString) k in
  let k := print_string ("Process management initialized" ++ String "010"%char EmptyString) k in
  let '(k, shell_pid) := create_process "shell" 0x2000 k in
  let k := print_string ("Kernel initialization complete" ++ String "010"%char EmptyString) k in
  (print_string "SimpleOS> " k, shell_pid).

(** The shape of the kernel's arrays: ten process slots, each with a 32-byte
    name, and a bitmap of 32 words. *)
Definition well_formed (k : kernel_state) : Prop :=
  Z.of_nat (length (processes k)) = MAX_PROCESSES /\
  Forall (fun p => Z.of_nat (length (name p)) = 32) (processes k) /\
  Z.of_nat (length (memory_bitmap k)) = BITMAP_WORDS.

(** The pids of the table are in order: the counter is positive, every pid
    is below it, and no two slots hold the same pid other than 0. *)
Definition pids_in_order (k : kernel_state) : Prop :=
  0 < next_pid k /\
  (forall i, 0 <= pid (proc_at k i) < next_pid k) /\
  (forall i j, i <> j -> pid (proc_at k i) <> 0 ->
               pid (proc_at k i) <> pid (proc_at k j)).

(** The linear position of the cursor on the screen. *)
Definition cursor (k : kernel_state) : Z := current_row k * MAX_COLS + current_col k.

(** A text that [print_string] writes cell after cell: it holds no line feed
    and no NUL before its end. *)
Fixpoint plain (s : string) : bool :=
  match s with
  | EmptyString => true
  | String c rest =>
      negb (Ascii.eqb c "010"%char) && negb (Ascii.eqb c zero) && plain rest
  end.

(** One turn of the [while (1)] loop of [kernel_main]. *)
Definition kernel_main_turn (k : kernel_state) : kernel_state :=
  let k := schedule k in
  let k := set_current_process k ((current_process k + 1) mod MAX_PROCESSES) in
  if state (proc_at k (current_process k)) =? 1 then switch_context (current_process k) k
  else k.

End Kernel.

(** ** filesystem.c *)

Module FS.

Definition MAX_FILES : Z := 100.
Definition MAX_FILENAME : Z := 32.
Definition MAX_FILE_SIZE : Z := 4096.
Definition MAX_DIRECTORIES : Z := 50.
Definition MAX_PATH_LENGTH : Z := 128.

Definition FILE_TYPE_REGULAR : Z := 1.
Definition FILE_TYPE_DIRECTORY : Z := 2.

Definition PERM_READ : Z := 1.
Definition PERM_WRITE : Z := 2.
Definition PERM_EXECUTE : Z := 4.

(** The value [0xFFFFFFFF] the lookups and the creators return on failure. *)
Definition NOT_FOUND : Z := 0xFFFFFFFF.

(** A [char name[MAX_FILENAME]] field is kept as the text it holds up to its
    NUL: the arrays are only ever zeroed by [memset] or written by [strncpy]
    followed by a terminator, and only ever read by [strcmp] and [strcat]. *)
Record file_entry_t := mk_file {
  f_name : string;
  f_size : Z;
  f_type : Z;
  f_permissions : Z;
  f_data_start : Z;
  f_parent_dir : Z;
  f_next_file : Z
}.

Record directory_entry_t := mk_dir {
  d_name : string;
  d_parent_dir : Z;
  d_first_file : Z;
  d_next_dir : Z
}.

(** What [memset(.., 0, ..)] leaves in an entry. *)
Definition zero_file : file_entry_t := mk_file "" 0 0 0 0 0 0.
Definition zero_dir : directory_entry_t := mk_dir "" 0 0 0.

(** The global variables of filesystem.c. *)
Record filesystem := mk_fs {
  file_table : list file_entry_t;            (* file_table[MAX_FILES] *)
  directory_table : list directory_entry_t;  (* directory_table[MAX_DIRECTORIES] *)
  file_data : list Z;                        (* uint8_t file_data[MAX_FILES * MAX_FILE_SIZE] *)
  next_file_id : Z;
  next_dir_id : Z;
  current_directory : Z;
  data_offset : Z
}.

Definition set_file_table (fs : filesystem) (t : list file_entry_t) : filesystem :=
  mk_fs t (directory_table fs) (file_data fs) (next_file_id fs) (next_dir_id fs)
    (current_directory fs) (data_offset fs).

Definition set_directory_table (fs : filesystem) (t : list directory_entry_t) : filesystem :=
  mk_fs (file_table fs) t (file_data fs) (next_file_id fs) (next_dir_id fs)
    (current_directory fs) (data_offset fs).

Definition set_file_data (fs : filesystem) (d : list Z) : filesystem :=
  mk_fs (file_table fs) (directory_table fs) d (next_file_id fs) (next_dir_id fs)
    (current_directory fs) (data_offset fs).

Definition set_next_file_id (fs : filesystem) (n : Z) : filesystem :=
  mk_fs (file_table fs) (directory_table fs) (file_data fs) n (next_dir_id fs)
    (current_directory fs) (data_offset fs).

Definition set_next_dir_id (fs : filesystem) (n : Z) : filesystem :=
  mk_fs (file_table fs) (directory_table fs) (file_data fs) (next_file_id fs) n
    (current_directory fs) (data_offset fs).

Definition set_current (fs : filesystem) (d : Z) : filesystem :=
  mk_fs (file_table fs) (directory_table fs) (file_data fs) (next_file_id fs)
    (next_dir_id fs) d (data_offset fs).

Definition set_data_offset (fs : filesystem) (o : Z) : filesystem :=
  mk_fs (file_table fs) (directory_table fs) (file_data fs) (next_file_id fs)
    (next_dir_id fs) (current_directory fs) o.

(** [file_table[i]] and [directory_table[i]] *)
Definition file_at (fs : filesystem) (i : Z) : file_entry_t :=
  default zero_file (aget (file_table fs) i).
Definition dir_at (fs : filesystem) (i : Z) : directory_entry_t :=
  default zero_dir (aget (directory_table fs) i).

(** [file_table[i] = e] and [directory_table[i] = e] *)
Definition set_file (fs : filesystem) (i : Z) (e : file_entry_t) : filesystem :=
  set_file_table fs (aset (file_table fs) i e).
Definition set_dir (fs : filesystem) (i : Z) (e : directory_entry_t) : filesystem :=
  set_directory_table fs (aset (directory_table fs) i e).

(** Assignments to one field of an entry. *)
Definition with_size (e : file_entry_t) (v : Z) : file_entry_t :=
  mk_file (f_name e) v (f_type e) (f_permissions e) (f_data_start e) (f_parent_dir e)
    (f_next_file e).
Definition with_next_file (e : file_entry_t) (v : Z) : file_entry_t :=
  mk_file (f_name e) (f_size e) (f_type e) (f_permissions e) (f_data_start e)
    (f_parent_dir e) v.
Definition with_first_file (e : directory_entry_t) (v : Z) : directory_entry_t :=
  mk_dir (d_name e) (d_parent_dir e) v (d_next_dir e).
Definition with_next_dir (e : directory_entry_t) (v : Z) : directory_entry_t :=
  mk_dir (d_name e) (d_parent_dir e) (d_first_file e) v.

(** [strncpy(dst, name, MAX_FILENAME - 1); dst[MAX_FILENAME - 1] = 0]: the
    array then holds the first 31 characters of [name]. *)
Definition strncpy_name (nm : string) : string :=
  substring 0 (Z.to_nat (MAX_FILENAME - 1)) nm.

(** The loops below walk chains of indices and need not end on a chain that
    closes on itself: they take the number of iterations allowed and yield
    [None] when it does not suffice. *)

(** [while (file_table[last_file].next_file != 0) last_file = ...next_file;] *)
Fixpoint last_file (fuel : nat) (fs : filesystem) (last : Z) : option Z :=
  match fuel with
  | O => None
  | S fuel' =>
      if negb (f_next_file (file_at fs last) =? 0)
      then last_file fuel' fs (f_next_file (file_at fs last))
      else Some last
  end.

Definition create_file (fuel : nat) (nm : string) (type permissions : Z) (fs : filesystem)
  : option (filesystem * Z) :=
  if next_file_id fs >=? MAX_FILES then Some (fs, NOT_FOUND)
  else
    let file_id := next_file_id fs in
    let fs := set_next_file_id fs (wrap32 (file_id + 1)) in
    let fs := set_file fs file_id
                (mk_file (strncpy_name nm) 0 type permissions (data_offset fs)
                   (current_directory fs) 0) in
    let cur := current_directory fs in
    fs ← (if d_first_file (dir_at fs cur) =? 0
          then Some (set_dir fs cur (with_first_file (dir_at fs cur) file_id))
          else
            last ← last_file fuel fs (d_first_file (dir_at fs cur));
            Some (set_file fs last (with_next_file (file_at fs last) file_id)));
    Some (set_data_offset fs (wrap32 (data_offset fs + MAX_FILE_SIZE)), file_id).

(** [while (directory_table[parent].next_dir != 0) parent = ...next_dir;] *)
Fixpoint last_dir (fuel : nat) (fs : filesystem) (parent : Z) : option Z :=
  match fuel with
  | O => None
  | S fuel' =>
      if negb (d_next_dir (dir_at fs parent) =? 0)
      then last_dir fuel' fs (d_next_dir (dir_at fs parent))
      else Some parent
  end.

Definition create_directory (fuel : nat) (nm : string) (fs : filesystem)
  : option (filesystem * Z) :=
  if next_dir_id fs >=? MAX_DIRECTORIES then Some (fs, NOT_FOUND)
  else
    let dir_id := next_dir_id fs in
    let fs := set_next_dir_id fs (wrap32 (dir_id + 1)) in
    let fs := set_dir fs dir_id (mk_dir (strncpy_name nm) (current_directory fs) 0 0) in
    let cur := current_directory fs in
    let parent := d_next_dir (dir_at fs cur) in
    fs ← (if parent =? 0
          then Some (set_dir fs cur (with_next_dir (dir_at fs cur) dir_id))
          else
            parent ← last_dir fuel fs parent;
            Some (set_dir fs parent (with_next_dir (dir_at fs parent) dir_id)));
    Some (fs, dir_id).

(** [while (current_file != file_id && current_file != 0) { prev_file =
    current_file; current_file = file_table[current_file].next_file; }] *)
Fixpoint seek_file (fuel : nat) (fs : filesystem) (file_id prev_file current_file : Z)
  : option (Z * Z) :=
  match fuel with
  | O => None
  | S fuel' =>
      if negb (current_file =? file_id) && negb (current_file =? 0)
      then seek_file fuel' fs file_id current_file (f_next_file (file_at fs current_file))
      else Some (prev_file, current_file)
  end.

Definition delete_file (fuel : nat) (file_id : Z) (fs : filesystem)
  : option (filesystem * Z) :=
  if file_id >=? next_file_id fs then Some (fs, -1)
  else
    let parent_dir := f_parent_dir (file_at fs file_id) in
    '(prev_file, current_file) ←
      seek_file fuel fs file_id 0 (d_first_file (dir_at fs parent_dir));
    let fs :=
      if current_file =? file_id then
        if prev_file =? 0
        then set_dir fs parent_dir
               (with_first_file (dir_at fs parent_dir) (f_next_file (file_at fs file_id)))
        else set_file fs prev_file
               (with_next_file (file_at fs prev_file) (f_next_file (file_at fs file_id)))
      else fs in
    Some (set_file fs file_id zero_file, 0).

(** The same walk over [next_dir]. *)
Fixpoint seek_dir (fuel : nat) (fs : filesystem) (dir_id prev_dir current_dir : Z)
  : option (Z * Z) :=
  match fuel with
  | O => None
  | S fuel' =>
      if negb (current_dir =? dir_id) && negb (current_dir =? 0)
      then seek_dir fuel' fs dir_id current_dir (d_next_dir (dir_at fs current_dir))
      else Some (prev_dir, current_dir)
  end.

Definition delete_directory (fuel : nat) (dir_id : Z) (fs : filesystem)
  : option (filesystem * Z) :=
  if (dir_id >=? next_dir_id fs) || (dir_id =? 0) then Some (fs, -1)
  else if negb (d_first_file (dir_at fs dir_id) =? 0) then Some (fs, -2)
  else
    let parent_dir := d_parent_dir (dir_at fs dir_id) in
    '(prev_dir, current_dir) ←
      seek_dir fuel fs dir_id 0 (d_next_dir (dir_at fs parent_dir));
    let fs :=
      if current_dir =? dir_id then
        if prev_dir =? 0
        then set_dir fs parent_dir
               (with_next_dir (dir_at fs parent_dir) (d_next_dir (dir_at fs dir_id)))
        else set_dir fs prev_dir
               (with_next_dir (dir_at fs prev_dir) (d_next_dir (dir_at fs dir_id)))
      else fs in
    Some (set_dir fs dir_id zero_dir, 0).

(** The loop of [find_file], from [file_id] on; [strcmp(..) == 0] is equality
    of the two texts. *)
Fixpoint find_file_from (fuel : nat) (fs : filesystem) (nm : string) (file_id : Z)
  : option Z :=
  match fuel with
  | O => None
  | S fuel' =>
      if negb (file_id =? 0) then
        if String.eqb (f_name (file_at fs file_id)) nm then Some file_id
        else find_file_from fuel' fs nm (f_next_file (file_at fs file_id))
      else Some NOT_FOUND
  end.

Definition find_file (fuel : nat) (nm : string) (parent_dir : Z) (fs : filesystem)
  : option Z :=
  find_file_from fuel fs nm (d_first_file (dir_at fs parent_dir)).

Fixpoint find_directory_from (fuel : nat) (fs : filesystem) (nm : string) (dir_id : Z)
  : option Z :=
  match fuel with
  | O => None
  | S fuel' =>
      if negb (dir_id =? 0) then
        if String.eqb (d_name (dir_at fs dir_id)) nm then Some dir_id
        else find_directory_from fuel' fs nm (d_next_dir (dir_at fs dir_id))
      else Some NOT_FOUND
  end.

Definition find_directory (fuel : nat) (nm : string) (parent_dir : Z) (fs : filesystem)
  : option Z :=
  find_directory_from fuel fs nm (d_next_dir (dir_at fs parent_dir)).

(** [read_file]: the buffer after the call and the [int] returned. *)
Definition read_file (fs : filesystem) (file_id : Z) (buffer : list Z) (offset size : Z)
  : list Z * Z :=
  if file_id >=? next_file_id fs then (buffer, -1)
  else
    let e := file_at fs file_id in
    let size := if wrap32 (offset + size) >? f_size e
                then wrap32 (f_size e - offset) else size in
    (if size >? 0
     then memcpy buffer 0 (file_data fs) (wrap32 (f_data_start e + offset)) size
     else buffer,
     to_int size).

(** [write_file]: the state after the call and the [int] returned. *)
Definition write_file (fs : filesystem) (file_id : Z) (data : list Z) (offset size : Z)
  : filesystem * Z :=
  if file_id >=? next_file_id fs then (fs, -1)
  else
    let e := file_at fs file_id in
    let size := if wrap32 (offset + size) >? MAX_FILE_SIZE
                then wrap32 (MAX_FILE_SIZE - offset) else size in
    (if size >? 0 then
       let fs := set_file_data fs
                   (memcpy (file_data fs) (wrap32 (f_data_start e + offset)) data 0 size) in
       if wrap32 (offset + size) >? f_size e
       then set_file fs file_id (with_size (file_at fs file_id) (wrap32 (offset + size)))
       else fs
     else fs,
     to_int size).

(** The [memcpy] call of [read_file]: the index of [file_data] it reads
    from and the number of bytes it is asked to copy; [None] when the call
    is not made. *)
Definition read_file_copy (fs : filesystem) (file_id offset size : Z) : option (Z * Z) :=
  if file_id >=? next_file_id fs then None
  else
    let e := file_at fs file_id in
    let size := if wrap32 (offset + size) >? f_size e
                then wrap32 (f_size e - offset) else size in
    if size >? 0 then Some (wrap32 (f_data_start e + offset), size) else None.

(** The [memcpy] call of [write_file]: the index of [file_data] it writes
    to and the number of bytes it is asked to copy; [None] when the call is
    not made. *)
Definition write_file_copy (fs : filesystem) (file_id offset size : Z) : option (Z * Z) :=
  if file_id >=? next_file_id fs then None
  else
    let e := file_at fs file_id in
    let size := if wrap32 (offset + size) >? MAX_FILE_SIZE
                then wrap32 (MAX_FILE_SIZE - offset) else size in
    if size >? 0 then Some (wrap32 (f_data_start e + offset), size) else None.

(** The walks of [list_directory], which prints nothing yet: the ids each of
    its two loops visits, in order. *)
Fixpoint files_from (fuel : nat) (fs : filesystem) (file_id : Z) : option (list Z) :=
  match fuel with
  | O => None
  | S fuel' =>
      if negb (file_id =? 0)
      then rest ← files_from fuel' fs (f_next_file (file_at fs file_id));
           Some (file_id :: rest)
      else Some []
  end.

Fixpoint dirs_from (fuel : nat) (fs : filesystem) (subdir_id : Z) : option (list Z) :=
  match fuel with
  | O => None
  | S fuel' =>
      if negb (subdir_id =? 0)
      then rest ← dirs_from fuel' fs (d_next_dir (dir_at fs subdir_id));
           Some (subdir_id :: rest)
      else Some []
  end.

Definition list_directory (fuel : nat) (dir_id : Z) (fs : filesystem)
  : option (list Z * list Z) :=
  if dir_id >=? next_dir_id fs then Some ([], [])
  else
    files ← files_from fuel fs (d_first_file (dir_at fs dir_id));
    subdirs ← dirs_from fuel fs (d_next_dir (dir_at fs dir_id));
    Some (files, subdirs).

Definition get_current_directory (fs : filesystem) : Z := current_directory fs.

Definition set_current_directory (dir_id : Z) (fs : filesystem) : filesystem :=
  if dir_id <? next_dir_id fs then set_current fs dir_id else fs.

(** The loop of [get_path_string]: each turn leaves ["/" ++ name ++ path] in
    [path].  The two buffers are [MAX_PATH_LENGTH] bytes long: the model is
    that of the code while the text, with its terminator, fits them, that is
    while it is shorter than [MAX_PATH_LENGTH] characters; a longer text
    overruns them, which the model, keeping the whole text, does not show. *)
Fixpoint path_from (fuel : nat) (fs : filesystem) (path : string) (current : Z)
  : option string :=
  match fuel with
  | O => None
  | S fuel' =>
      if negb (current =? 0)
      then path_from fuel' fs ("/" ++ d_name (dir_at fs current) ++ path)%string
             (d_parent_dir (dir_at fs current))
      else Some path
  end.

Definition get_path_string (fuel : nat) (dir_id : Z) (fs : filesystem) : option string :=
  path ← path_from fuel fs "" dir_id;
  Some (if String.eqb path "" then "/"%string else path).

Definition init_filesystem (fuel : nat) : option filesystem :=
  let fs :=
    mk_fs (replicate (Z.to_nat MAX_FILES) zero_file)
      (aset (replicate (Z.to_nat MAX_DIRECTORIES) zero_dir) 0 (mk_dir "/" 0 0 0))
      (replicate (Z.to_nat (MAX_FILES * MAX_FILE_SIZE)) 0)
      0 1 0 0 in
  '(fs, _) ← create_file fuel "kernel.bin" FILE_TYPE_REGULAR (Z.lor PERM_READ PERM_EXECUTE) fs;
  '(fs, _) ← create_file fuel "shell.bin" FILE_TYPE_REGULAR (Z.lor PERM_READ PERM_EXECUTE) fs;
  '(fs, _) ← create_file fuel "init.bin" FILE_TYPE_REGULAR (Z.lor PERM_READ PERM_EXECUTE) fs;
  Some fs.

(** A file entry at index [i] is in order: its size fits its partition, its
    partition lies in the data array, and its link is 0 or, for an index
    other than 0, a later file. *)
Definition file_ok (next_file next_dir : Z) (i : Z) (e : file_entry_t) : Prop :=
  0 <= f_size e <= MAX_FILE_SIZE /\
  0 <= f_data_start e <= (MAX_FILES - 1) * MAX_FILE_SIZE /\
  (f_next_file e = 0 \/ 0 < i /\ i < f_next_file e < next_file).

(** A directory entry at index [i] is in order: the root is its own parent,
    any other entry has a parent of lower index, its sibling link is 0 or a
    later directory, and its file list is empty or starts at a file. *)
Definition dir_ok (next_file next_dir : Z) (i : Z) (e : directory_entry_t) : Prop :=
  (i = 0 -> d_parent_dir e = 0) /\
  (0 < i -> 0 <= d_parent_dir e < i) /\
  (d_next_dir e = 0 \/ i < d_next_dir e < next_dir) /\
  (d_first_file e = 0 \/ 0 < d_first_file e < next_file).

(** The shape of the state: the length of the three arrays, the range of the
    counters, and every entry in order. *)
Record shape (fs : filesystem) : Prop := mk_shape {
  files_len : Z.of_nat (length (file_table fs)) = MAX_FILES;
  dirs_len : Z.of_nat (length (directory_table fs)) = MAX_DIRECTORIES;
  data_len : Z.of_nat (length (file_data fs)) = MAX_FILES * MAX_FILE_SIZE;
  next_file_range : 0 <= next_file_id fs <= MAX_FILES;
  next_dir_range : 1 <= next_dir_id fs <= MAX_DIRECTORIES;
  current_range : 0 <= current_directory fs < next_dir_id fs;
  files_ok : forall i, file_ok (next_file_id fs) (next_dir_id fs) i (file_at fs i);
  dirs_ok : forall i, dir_ok (next_file_id fs) (next_dir_id fs) i (dir_at fs i)
}.

(** What every call keeps true of the state once it is initialised. *)
Definition invariant (fs : filesystem) : Prop :=
  shape fs /\ data_offset fs = next_file_id fs * MAX_FILE_SIZE.

(** The calls a client can make, as transitions of the state; every
    argument is a [uint32_t]. *)
Inductive step : filesystem -> filesystem -> Prop :=
| step_init_filesystem fuel fs fs' :
    init_filesystem fuel = Some fs' -> step fs fs'
| step_create_file fuel nm type permissions fs fs' r :
    u32 type -> u32 permissions ->
    create_file fuel nm type permissions fs = Some (fs', r) -> step fs fs'
| step_create_directory fuel nm fs fs' r :
    create_directory fuel nm fs = Some (fs', r) -> step fs fs'
| step_delete_file fuel file_id fs fs' r :
    u32 file_id ->
    delete_file fuel file_id fs = Some (fs', r) -> step fs fs'
| step_delete_directory fuel dir_id fs fs' r :
    u32 dir_id ->
    delete_directory fuel dir_id fs = Some (fs', r) -> step fs fs'
| step_write_file file_id data offset size fs :
    u32 file_id -> u32 offset -> u32 size ->
    step fs (fst (write_file fs file_id data offset size))
| step_set_current_directory dir_id fs :
    u32 dir_id -> step fs (set_current_directory dir_id fs).

(** The states a client can bring about once the file system is initialised. *)
Inductive reachable : filesystem -> Prop :=
| reachable_init fuel fs : init_filesystem fuel = Some fs -> reachable fs
| reachable_step fs fs' : reachable fs -> step fs fs' -> reachable fs'.

End FS.

(** ** The machine

    The globals of the two translation units side by side.  Those of
    filesystem.c are [static]: no function of kernel.c can name them. *)

Record machine := mk_machine {
  kernel : Kernel.kernel_state;
  files : FS.filesystem
}.

(** A function of kernel.c run on the machine. *)
Definition in_kernel (f : Kernel.kernel_state -> Kernel.kernel_state) (m : machine)
  : machine :=
  mk_machine (f (kernel m)) (files m).

(** * Properties *)

(** ** Arrays *)

Section ArrayFacts.

Context {A : Type}.
Implicit Types (a : list A) (i j : Z) (v : A).

Lemma aget_Some a i : 0 <= i < Z.of_nat (length a) -> exists x, aget a i = Some x.
Proof.
  revert i. induction a as [|x a IH]; intros i Hi; simpl in *; [lia|].
  destruct (Z.eqb_spec i 0); [eauto|]. apply IH. lia.
Qed.

Lemma aget_None a i : ~ (0 <= i < Z.of_nat (length a)) -> aget a i = None.
Proof.
  revert i. induction a as [|x a IH]; intros i Hi; simpl in *; [reflexivity|].
  destruct (Z.eqb_spec i 0); [lia|]. apply IH. lia.
Qed.

Lemma length_aset a i v : length (aset a i v) = length a.
Proof.
  revert i. induction a as [|x a IH]; intros i; simpl; [reflexivity|].
  destruct (i =? 0); simpl; [reflexivity|]. now rewrite IH.
Qed.

Lemma aget_aset_eq a i v :
  0 <= i < Z.of_nat (length a) -> aget (aset a i v) i = Some v.
Proof.
  revert i. induction a as [|x a IH]; intros i Hi; simpl in *; [lia|].
  destruct (Z.eqb_spec i 0) as [->|Hne]; simpl; [reflexivity|].
  destruct (Z.eqb_spec i 0); [lia|]. apply IH. lia.
Qed.

Lemma aget_aset_ne a i j v : i <> j -> aget (aset a i v) j = aget a j.
Proof.
  revert i j. induction a as [|x a IH]; intros i j Hij; simpl; [reflexivity|].
  destruct (Z.eqb_spec i 0) as [->|Hi]; simpl.
  - destruct (Z.eqb_spec j 0); [lia|reflexivity].
  - destruct (Z.eqb_spec j 0); [reflexivity|]. apply IH. lia.
Qed.

Lemma aset_outside a i v : ~ (0 <= i < Z.of_nat (length a)) -> aset a i v = a.
Proof.
  revert i. induction a as [|x a IH]; intros i Hi; simpl in *; [reflexivity|].
  destruct (Z.eqb_spec i 0); [lia|]. f_equal. apply IH. lia.
Qed.

Lemma aget_aset a i j v :
  aget (aset a i v) j =
  if (i =? j) && (0 <=? i) && (i <? Z.of_nat (length a)) then Some v else aget a j.
Proof.
  destruct (Z.eqb_spec i j) as [->|Hne]; simpl; [|now apply aget_aset_ne].
  destruct (Z.leb_spec 0 j); simpl.
  - destruct (Z.ltb_spec j (Z.of_nat (length a))).
    + apply aget_aset_eq. lia.
    + rewrite aset_outside by lia. reflexivity.
  - rewrite aset_outside by lia. reflexivity.
Qed.

Lemma aget_replicate (n : nat) v i :
  0 <= i < Z.of_nat n -> aget (replicate n v) i = Some v.
Proof.
  revert i. induction n as [|n IH]; intros i Hi; simpl; [lia|].
  destruct (Z.eqb_spec i 0); [reflexivity|]. apply IH. lia.
Qed.

End ArrayFacts.

(** ** Machine arithmetic *)

Lemma wrap32_small z : 0 <= z < 2 ^ 32 -> wrap32 z = z.
Proof. intros H. unfold wrap32. now apply Z.mod_small. Qed.

Lemma to_int_small z : 0 <= z < 2 ^ 31 -> to_int z = z.
Proof.
  intros Hz. unfold to_int. rewrite wrap32_small by lia.
  destruct (Z.ltb_spec z (2 ^ 31)); lia.
Qed.

(** ** The page allocator *)

Section Allocator.

Import Kernel.

Lemma bit_pow2 j : 0 <= j < 32 -> bit j = 2 ^ j.
Proof.
  intros Hj. unfold bit, wrap32. rewrite Z.shiftl_1_l.
  apply Z.mod_small. split; [apply Z.pow_nonneg; lia|].
  apply Z.pow_lt_mono_r; lia.
Qed.

Lemma testbit_bit j m : 0 <= j < 32 -> Z.testbit (bit j) m = (j =? m).
Proof. intros Hj. rewrite bit_pow2 by lia. apply Z.pow2_bits_eqb. lia. Qed.

Lemma land_bit_zero w j :
  0 <= j < 32 -> (Z.land w (bit j) =? 0) = negb (Z.testbit w j).
Proof.
  intros Hj. destruct (Z.testbit w j) eqn:Hb; simpl.
  - apply Z.eqb_neq. intros H0.
    assert (Z.testbit (Z.land w (bit j)) j = false) by (rewrite H0; apply Z.bits_0).
    rewrite Z.land_spec, Hb, testbit_bit, Z.eqb_refl in H by lia. discriminate.
  - apply Z.eqb_eq. apply Z.bits_inj'. intros m _.
    rewrite Z.land_spec, testbit_bit, Z.bits_0 by lia.
    destruct (Z.eqb_spec j m) as [->|]; [now rewrite Hb|apply andb_false_r].
Qed.

Lemma testbit_not_bit j m :
  0 <= j < 32 -> 0 <= m < 32 -> Z.testbit (not_bit j) m = negb (j =? m).
Proof.
  intros Hj Hm. unfold not_bit, wrap32.
  rewrite Z.mod_pow2_bits_low by lia.
  rewrite Z.lnot_spec by lia. rewrite Z.shiftl_1_l, Z.pow2_bits_eqb by lia. reflexivity.
Qed.

Lemma scan_bits_spec w n : forall j, 0 <= j -> j + Z.of_nat n <= 32 ->
  match scan_bits w j n with
  | Some j' => j <= j' < j + Z.of_nat n /\ Z.testbit w j' = false /\
               (forall m, j <= m < j' -> Z.testbit w m = true)
  | None => forall m, j <= m < j + Z.of_nat n -> Z.testbit w m = true
  end.
Proof.
  induction n as [|n IH]; intros j Hj Hn; cbn [scan_bits].
  - intros; lia.
  - rewrite land_bit_zero by lia. destruct (Z.testbit w j) eqn:Hb; simpl.
    + specialize (IH (j + 1) ltac:(lia) ltac:(lia)).
      destruct (scan_bits w (j + 1) n) as [j'|].
      * destruct IH as (? & ? & H). repeat split; try lia; auto.
        intros m Hm. destruct (Z.eq_dec m j); subst; auto. apply H; lia.
      * intros m Hm. destruct (Z.eq_dec m j); subst; auto. apply IH; lia.
    + repeat split; try lia; auto.
Qed.

Lemma page_bit_word bm i j :
  0 <= j < 32 -> page_bit bm (i * 32 + j) = Z.testbit (word_at bm i) j.
Proof.
  intros Hj. unfold page_bit.
  replace ((i * 32 + j) / 32) with i by (Z.to_euclidean_division_equations; lia).
  replace ((i * 32 + j) mod 32) with j by (Z.to_euclidean_division_equations; lia).
  reflexivity.
Qed.

Lemma page_split k : k = (k / 32) * 32 + k mod 32 /\ 0 <= k mod 32 < 32.
Proof. split; [|apply Z.mod_pos_bound; lia]. pose proof (Z.div_mod k 32); lia. Qed.

Lemma full_word_bits w j : w = 0xFFFFFFFF -> 0 <= j < 32 -> Z.testbit w j = true.
Proof. intros -> Hj. change 0xFFFFFFFF with (Z.ones 32). apply Z.ones_spec_low. lia. Qed.

Lemma word_at_aset bm i j v :
  word_at (aset bm i v) j =
  if (i =? j) && (0 <=? i) && (i <? Z.of_nat (length bm)) then v else word_at bm j.
Proof. unfold word_at. rewrite aget_aset. now destruct (_ && _). Qed.

Lemma wrap32_page_address k :
  0 <= k < MAX_PAGES -> wrap32 (page_address k) = page_address k.
Proof.
  intros Hk. unfold wrap32, page_address, MEMORY_START, PAGE_SIZE, MAX_PAGES in *.
  apply Z.mod_small. lia.
Qed.

Lemma scan_words_spec bm n : forall i,
  0 <= i -> i + Z.of_nat n <= Z.of_nat (length bm) ->
  (scan_words bm i n = (bm, 0) /\
   forall k, i * 32 <= k < (i + Z.of_nat n) * 32 -> page_bit bm k = true) \/
  (exists k0, first_free bm (i * 32) ((i + Z.of_nat n) * 32) k0 /\
     scan_words bm i n =
       (aset bm (k0 / 32) (Z.lor (word_at bm (k0 / 32)) (bit (k0 mod 32))),
        wrap32 (page_address k0))).
Proof.
  induction n as [|n IH]; intros i Hi Hn; cbn [scan_words].
  - left. split; [reflexivity|]. intros; lia.
  - assert (Hnext :
      (forall j, 0 <= j < 32 -> Z.testbit (word_at bm i) j = true) ->
      (scan_words bm (i + 1) n = (bm, 0) /\
       forall k, i * 32 <= k < (i + Z.of_nat (S n)) * 32 -> page_bit bm k = true) \/
      (exists k0, first_free bm (i * 32) ((i + Z.of_nat (S n)) * 32) k0 /\
         scan_words bm (i + 1) n =
           (aset bm (k0 / 32) (Z.lor (word_at bm (k0 / 32)) (bit (k0 mod 32))),
            wrap32 (page_address k0)))).
    { intros Hfull.
      assert (Hword : forall k, i * 32 <= k < (i + 1) * 32 -> page_bit bm k = true).
      { intros k Hk. destruct (page_split k) as [Hk1 Hk2].
        assert (k / 32 = i) by lia. unfold page_bit. rewrite H. apply Hfull. lia. }
      destruct (IH (i + 1) ltac:(lia) ltac:(lia)) as [[E Hall]|(k0 & (Hr & Hf & Hlow) & E)].
      - left. split; [exact E|]. intros k Hk.
        destruct (Z.lt_ge_cases k ((i + 1) * 32)); [apply Hword|apply Hall]; lia.
      - right. exists k0. split; [|exact E]. repeat split; try lia; auto.
        intros k Hk. destruct (Z.lt_ge_cases k ((i + 1) * 32)); [apply Hword|apply Hlow]; lia. }
    destruct (Z.eqb_spec (word_at bm i) 0xFFFFFFFF) as [Hw|Hw]; simpl negb; cbv iota.
    + apply Hnext. intros j Hj. now apply full_word_bits.
    + pose proof (scan_bits_spec (word_at bm i) 32 0 ltac:(lia) ltac:(simpl; lia)) as Hs.
      destruct (scan_bits (word_at bm i) 0 32) as [j|].
      * destruct Hs as (Hj & Hclear & Hlow). right. exists (i * 32 + j).
        assert (Hd : (i * 32 + j) / 32 = i) by (Z.to_euclidean_division_equations; lia).
        assert (Hm : (i * 32 + j) mod 32 = j) by (Z.to_euclidean_division_equations; lia).
        rewrite Hd, Hm. split.
        -- repeat split; try lia.
           ++ rewrite page_bit_word by lia. exact Hclear.
           ++ intros k Hk. destruct (page_split k) as [Hk1 Hk2].
              assert (k / 32 = i) by lia. unfold page_bit. rewrite H. apply Hlow. lia.
        -- unfold page_address. reflexivity.
      * apply Hnext. intros j Hj. apply Hs. simpl. lia.
Qed.

Lemma page_bit_after_set bm k0 k :
  0 <= k0 < Z.of_nat (length bm) * 32 -> 
  page_bit (aset bm (k0 / 32) (Z.lor (word_at bm (k0 / 32)) (bit (k0 mod 32)))) k =
  if k =? k0 then true else page_bit bm k.
Proof.
  intros Hk0. unfold page_bit. rewrite word_at_aset.
  destruct (page_split k0) as [E0 B0]. destruct (page_split k) as [E B].
  destruct (Z.eqb_spec k k0) as [->|Hne].
  - rewrite Z.eqb_refl. simpl.
    destruct (Z.leb_spec 0 (k0 / 32)); [|lia].
    destruct (Z.ltb_spec (k0 / 32) (Z.of_nat (length bm))); [|lia].
    simpl. rewrite Z.lor_spec, testbit_bit, Z.eqb_refl by lia. apply orb_true_r.
  - destruct (Z.eqb_spec (k0 / 32) (k / 32)) as [Heq|]; simpl; [|reflexivity].
    destruct (_ && _); [|reflexivity].
    rewrite Z.lor_spec, testbit_bit by lia. rewrite <- Heq.
    destruct (Z.eqb_spec (k0 mod 32) (k mod 32)); [lia|apply orb_false_r].
Qed.

Lemma page_bit_after_clear bm k0 k :
  0 <= k0 < Z.of_nat (length bm) * 32 ->
  page_bit (aset bm (k0 / 32) (Z.land (word_at bm (k0 / 32)) (not_bit (k0 mod 32)))) k =
  if k =? k0 then false else page_bit bm k.
Proof.
  intros Hk0. unfold page_bit. rewrite word_at_aset.
  destruct (page_split k0) as [E0 B0]. destruct (page_split k) as [E B].
  destruct (Z.eqb_spec k k0) as [->|Hne].
  - rewrite Z.eqb_refl. simpl.
    destruct (Z.leb_spec 0 (k0 / 32)); [|lia].
    destruct (Z.ltb_spec (k0 / 32) (Z.of_nat (length bm))); [|lia].
    simpl. rewrite Z.land_spec, testbit_not_bit, Z.eqb_refl by lia. apply andb_false_r.
  - destruct (Z.eqb_spec (k0 / 32) (k / 32)) as [Heq|]; simpl; [|reflexivity].
    destruct (_ && _); [|reflexivity].
    rewrite Z.land_spec, testbit_not_bit by lia. rewrite <- Heq.
    destruct (Z.eqb_spec (k0 mod 32) (k mod 32)); [lia|apply andb_true_r].
Qed.

Lemma allocate_page_cases bm :
  Z.of_nat (length bm) = BITMAP_WORDS ->
  (allocate_page bm = (bm, 0) /\ forall k, 0 <= k < MAX_PAGES -> page_bit bm k = true) \/
  (exists k0, first_free bm 0 MAX_PAGES k0 /\
     allocate_page bm =
       (aset bm (k0 / 32) (Z.lor (word_at bm (k0 / 32)) (bit (k0 mod 32))),
        page_address k0)).
Proof.
  intros Hlen. unfold allocate_page.
  destruct (scan_words_spec bm (Z.to_nat BITMAP_WORDS) 0 ltac:(lia)
              ltac:(rewrite Hlen; unfold BITMAP_WORDS; lia)) as [H|(k0 & Hff & E)].
  - left. exact H.
  - right. exists k0. split; [exact Hff|].
    rewrite E, wrap32_page_address; [reflexivity|].
    destruct Hff as (Hr & _). unfold MAX_PAGES. unfold BITMAP_WORDS in Hr. lia.
Qed.

Lemma free_page_address bm k :
  0 <= k < MAX_PAGES ->
  free_page (page_address k) bm =
  aset bm (k / 32) (Z.land (word_at bm (k / 32)) (not_bit (k mod 32))).
Proof.
  intros Hk. unfold free_page.
  replace (wrap32 (page_address k - MEMORY_START) / PAGE_SIZE) with k; [reflexivity|].
  unfold wrap32, page_address, MEMORY_START, PAGE_SIZE, MAX_PAGES in *.
  rewrite Z.mod_small by lia. Z.to_euclidean_division_equations; lia.
Qed.

(** C2. [allocate_page] is a first-fit scan of the 1024 page bits.  When every
    bit is set it returns 0 and leaves the bitmap as it is.  When some page
    is free it returns the address of the lowest free page [k0], an address
    of the pool, and sets the bit of [k0] and no other.  [free_page] of the
    address of page [k] clears the bit of [k] and no other, and the next
    [allocate_page] returns that address when no lower page is free. *)
Theorem allocate_page_first_fit (bm : list Z) :
  Z.of_nat (length bm) = BITMAP_WORDS ->
  ((forall k, 0 <= k < MAX_PAGES -> page_bit bm k = true) ->
   allocate_page bm = (bm, 0)) /\
  (forall k, 0 <= k < MAX_PAGES -> page_bit bm k = false ->
   exists k0,
     first_free bm 0 MAX_PAGES k0 /\ k0 <= k /\
     snd (allocate_page bm) = page_address k0 /\
     MEMORY_START <= page_address k0 < MEMORY_START + MAX_PAGES * PAGE_SIZE /\
     length (fst (allocate_page bm)) = length bm /\
     forall k', page_bit (fst (allocate_page bm)) k' =
                if k' =? k0 then true else page_bit bm k') /\
  (forall k, 0 <= k < MAX_PAGES ->
   let bm' := free_page (page_address k) bm in
   length bm' = length bm /\
   (forall k', page_bit bm' k' = if k' =? k then false else page_bit bm k') /\
   ((forall k', 0 <= k' < k -> page_bit bm k' = true) ->
    snd (allocate_page bm') = page_address k)).
Proof.
  intros Hlen.
  assert (Hpages : Z.of_nat (length bm) * 32 = MAX_PAGES) by (rewrite Hlen; reflexivity).
  split; [|split].
  - intros Hall. destruct (allocate_page_cases bm Hlen) as [[E _]|(k0 & (Hr & Hf & _) & _)];
      [exact E|]. rewrite Hall in Hf by lia. discriminate.
  - intros k Hk Hfree.
    destruct (allocate_page_cases bm Hlen) as [[_ Hall]|(k0 & Hff & E)].
    { rewrite Hall in Hfree by lia. discriminate. }
    exists k0. rewrite E. cbn [fst snd]. pose proof Hff as (Hr & Hf & Hlow).
    split; [exact Hff|]. split.
    { destruct (Z.le_gt_cases k0 k); [assumption|]. rewrite Hlow in Hfree by lia. discriminate. }
    split; [reflexivity|]. split.
    { unfold page_address, MEMORY_START, PAGE_SIZE, MAX_PAGES in *. lia. }
    split; [apply length_aset|].
    intros k'. apply page_bit_after_set. lia.
  - intros k Hk bm'. subst bm'. rewrite free_page_address by assumption.
    split; [apply length_aset|]. split.
    { intros k'. apply page_bit_after_clear. lia. }
    intros Hlow.
    set (bm' := aset bm (k / 32) _).
    assert (Hbit : forall k', page_bit bm' k' = if k' =? k then false else page_bit bm k')
      by (intros k'; apply page_bit_after_clear; lia).
    assert (Hlen' : Z.of_nat (length bm') = BITMAP_WORDS)
      by (subst bm'; rewrite length_aset; exact Hlen).
    destruct (allocate_page_cases bm' Hlen') as [[_ Hall]|(k0 & (Hr & Hf & Hlow0) & E)].
    { specialize (Hall k Hk). rewrite Hbit, Z.eqb_refl in Hall. discriminate. }
    rewrite E. cbn [snd]. f_equal.
    destruct (Z.lt_trichotomy k0 k) as [Hlt|[Heq|Hgt]]; [|exact Heq|].
    + rewrite Hbit in Hf. destruct (Z.eqb_spec k0 k); [lia|].
      rewrite Hlow in Hf by lia. discriminate.
    + specialize (Hlow0 k ltac:(lia)). rewrite Hbit, Z.eqb_refl in Hlow0. discriminate.
Qed.

Lemma allocate_page_first_fit_witness :
  Z.of_nat (length init_memory) = BITMAP_WORDS /\
  exists k0,
    first_free init_memory 0 MAX_PAGES k0 /\ k0 <= 4 /\
    snd (allocate_page init_memory) = page_address k0 /\
    MEMORY_START <= page_address k0 < MEMORY_START + MAX_PAGES * PAGE_SIZE /\
    length (fst (allocate_page init_memory)) = length init_memory /\
    forall k', page_bit (fst (allocate_page init_memory)) k' =
               if k' =? k0 then true else page_bit init_memory k'.
Proof.
  split; [reflexivity|].
  apply (proj1 (proj2 (allocate_page_first_fit init_memory eq_refl)) 4);
    [unfold MAX_PAGES; lia | reflexivity].
Defined.

End Allocator.

(** ** The process table *)

Section Processes.

Import Kernel.

Lemma Forall_aget {A} (P : A -> Prop) (a : list A) i x :
  Forall P a -> aget a i = Some x -> P x.
Proof.
  intros H. revert i. induction H as [|y a Hy _ IH]; intros i; simpl; [discriminate|].
  destruct (i =? 0); [intros [= <-]; exact Hy|apply IH].
Qed.

Lemma strlen_nonneg s : 0 <= strlen s.
Proof. induction s as [|c s IH]; simpl; [lia|]. destruct (Ascii.eqb c zero); lia. Qed.

Lemma char_at_succ c s j : 0 <= j -> char_at (String c s) (1 + j) = char_at s j.
Proof.
  intros Hj. unfold char_at. replace (Z.to_nat (1 + j)) with (S (Z.to_nat j)) by lia.
  reflexivity.
Qed.

Lemma char_at_strlen s : char_at s (strlen s) = zero.
Proof.
  induction s as [|c s IH]; simpl; [reflexivity|].
  destruct (Ascii.eqb_spec c zero) as [->|Hc]; [reflexivity|].
  rewrite char_at_succ by apply strlen_nonneg. exact IH.
Qed.

Lemma char_at_before_strlen s : forall m, 0 <= m < strlen s -> char_at s m <> zero.
Proof.
  induction s as [|c s IH]; simpl; intros m Hm; [lia|].
  destruct (Ascii.eqb_spec c zero) as [->|Hc]; [lia|].
  destruct (Z.eq_dec m 0) as [->|Hm0]; [exact Hc|].
  replace m with (1 + (m - 1)) by lia. rewrite char_at_succ by lia. apply IH. lia.
Qed.

Lemma strlen_le s j : 0 <= j -> char_at s j = zero -> strlen s <= j.
Proof.
  intros Hj Hz. destruct (Z.le_gt_cases (strlen s) j); [assumption|].
  exfalso. apply (char_at_before_strlen s j); [lia|assumption].
Qed.

Lemma strlen_ge s j : (forall m, 0 <= m < j -> char_at s m <> zero) -> j <= strlen s.
Proof.
  intros H. destruct (Z.le_gt_cases j (strlen s)); [assumption|].
  exfalso. apply (H (strlen s)); [pose proof (strlen_nonneg s); lia|apply char_at_strlen].
Qed.

Lemma copy_name_spec src n : forall dst j,
  0 <= j <= 31 -> 31 - j < Z.of_nat n -> Z.of_nat (length dst) = 32 ->
  (forall m, 0 <= m < j -> char_at src m <> zero) ->
  let r := copy_name n src dst j in
  snd r = Z.min 31 (strlen src) /\ j <= snd r /\
  Z.of_nat (length (fst r)) = 32 /\
  (forall m, j <= m < snd r -> aget (fst r) m = Some (char_at src m)) /\
  (forall m, ~ (j <= m < snd r) -> aget (fst r) m = aget dst m).
Proof.
  induction n as [|n IH]; intros dst j Hj Hn Hlen Hpre; [lia|].
  cbn [copy_name].
  destruct (Ascii.eqb_spec (char_at src j) zero) as [Hz|Hnz]; cbn [negb andb].
  - cbn [fst snd]. repeat split; try lia; auto.
    pose proof (strlen_le src j ltac:(lia) Hz). pose proof (strlen_ge src j Hpre). lia.
  - destruct (Z.ltb_spec j 31) as [Hlt|Hge].
    + assert (Hpre' : forall m, 0 <= m < j + 1 -> char_at src m <> zero).
      { intros m Hm. destruct (Z.eq_dec m j) as [->|]; [assumption|apply Hpre; lia]. }
      destruct (IH (aset dst j (char_at src j)) (j + 1) ltac:(lia) ltac:(lia)
                  ltac:(now rewrite length_aset) Hpre') as (E & Hle & Hl & Hin & Hout).
      repeat split; try lia; auto.
      * intros m Hm. destruct (Z.eq_dec m j) as [->|].
        -- rewrite Hout by lia. apply aget_aset_eq. lia.
        -- apply Hin. lia.
      * intros m Hm. rewrite Hout by lia. apply aget_aset_ne. lia.
    + cbn [fst snd]. repeat split; try lia; auto.
      assert (j = 31) by lia. subst j.
      assert (32 <= strlen src); [|lia].
      apply strlen_ge. intros m Hm. destruct (Z.eq_dec m 31) as [->|]; [assumption|apply Hpre; lia].
Qed.

Lemma find_slot_full nm e k n : forall i,
  (forall i', i <= i' < i + Z.of_nat n -> pid (proc_at k i') <> 0) ->
  find_slot n nm e i k = (k, -1).
Proof.
  induction n as [|n IH]; intros i H; cbn [find_slot]; [reflexivity|].
  destruct (Z.eqb_spec (pid (proc_at k i)) 0) as [E|_].
  - exfalso. apply (H i); [lia|assumption].
  - apply IH. intros i' Hi'. apply H. lia.
Qed.

Lemma find_slot_first nm e k i0 n : forall i,
  i <= i0 < i + Z.of_nat n -> pid (proc_at k i0) = 0 ->
  (forall i', i <= i' < i0 -> pid (proc_at k i') <> 0) ->
  find_slot n nm e i k = fill_slot nm e i0 k.
Proof.
  induction n as [|n IH]; intros i Hi H0 Hlow; cbn [find_slot]; [lia|].
  destruct (Z.eqb_spec (pid (proc_at k i)) 0) as [E|Hne].
  - destruct (Z.eq_dec i i0) as [->|]; [reflexivity|].
    exfalso. apply (Hlow i); [lia|assumption].
  - apply IH; [|assumption|].
    + destruct (Z.eq_dec i i0) as [->|]; [contradiction|lia].
    + intros i' Hi'. apply Hlow. lia.
Qed.

Lemma fill_slot_eq nm e i k :
  fill_slot nm e i k =
  (set_proc
     (set_memory_bitmap (set_next_pid k (to_int (next_pid k + 1)))
        (fst (allocate_page (memory_bitmap k))))
     i
     (mk_process (next_pid k) 1
        (wrap32 (snd (allocate_page (memory_bitmap k)) + PROCESS_STACK_SIZE)) e
        (aset (fst (copy_name 32 nm (name (proc_at k i)) 0))
           (snd (copy_name 32 nm (name (proc_at k i)) 0)) zero)),
   next_pid k).
Proof.
  unfold fill_slot. cbn [memory_bitmap set_next_pid].
  destruct (allocate_page (memory_bitmap k)) as [bm page]. cbn [fst snd].
  replace (name (proc_at (set_memory_bitmap (set_next_pid k (to_int (next_pid k + 1))) bm) i))
    with (name (proc_at k i)) by reflexivity.
  destruct (copy_name 32 nm (name (proc_at k i)) 0) as [chars j]. reflexivity.
Qed.

Lemma proc_at_set_proc k i j p :
  proc_at (set_proc k i p) j =
  if (i =? j) && (0 <=? i) && (i <? Z.of_nat (length (processes k))) then p else proc_at k j.
Proof.
  unfold proc_at, set_proc. cbn [processes set_processes].
  rewrite aget_aset. now destruct (_ && _).
Qed.

Lemma first_free_unique bm lo hi k0 k1 :
  first_free bm lo hi k0 -> first_free bm lo hi k1 -> k0 = k1.
Proof.
  intros (Hr0 & Hf0 & Hl0) (Hr1 & Hf1 & Hl1).
  destruct (Z.lt_trichotomy k0 k1) as [H|[H|H]]; [|exact H|].
  - rewrite Hl1 in Hf0 by lia. discriminate.
  - rewrite Hl0 in Hf1 by lia. discriminate.
Qed.

Lemma name_length k i :
  well_formed k -> 0 <= i < MAX_PROCESSES -> Z.of_nat (length (name (proc_at k i))) = 32.
Proof.
  intros (Hlen & Hall & _) Hi. unfold proc_at.
  destruct (aget_Some (processes k) i ltac:(lia)) as [p Hp]. rewrite Hp. cbn.
  exact (Forall_aget _ _ _ _ Hall Hp).
Qed.

(** C3. [create_process] takes the first slot whose pid is 0.  It returns the
    value of the counter [next_pid], which starts at 1 and is then one more;
    the slot gets that pid, state 1 (the value of "running", not that of
    "ready"), the entry point, a stack pointer one page above the address
    [allocate_page] returned, and the first [min 31 (strlen name)] characters
    of the name followed by a NUL.  Every other slot is left as it was.  The
    page is the lowest free one, whose bit alone becomes set; the result of
    [allocate_page] is not checked, so with no page free the bitmap stays as
    it is and the stack pointer is [0 + PROCESS_STACK_SIZE].  With no slot of
    pid 0 it returns -1 and changes nothing. *)
Theorem create_process_first_free_slot (nm : string) (entry_point : Z) (k : kernel_state) :
  well_formed k ->
  0 < next_pid k < 2 ^ 31 - 1 ->
  next_pid zeroed = 1 /\
  ((forall i, 0 <= i < MAX_PROCESSES -> pid (proc_at k i) <> 0) ->
   create_process nm entry_point k = (k, -1)) /\
  (forall i, 0 <= i < MAX_PROCESSES -> pid (proc_at k i) = 0 ->
   (forall i', 0 <= i' < i -> pid (proc_at k i') <> 0) ->
   let k' := fst (create_process nm entry_point k) in
   let r := snd (create_process nm entry_point k) in
   let p := proc_at k' i in
   let len := Z.min 31 (strlen nm) in
   r = next_pid k /\ 0 < r /\ next_pid k' = next_pid k + 1 /\
   pid p = r /\
   state p = 1 /\ state p = PROCESS_RUNNING /\ state p <> PROCESS_READY /\
   code_ptr p = entry_point /\
   memory_bitmap k' = fst (allocate_page (memory_bitmap k)) /\
   stack_ptr p = wrap32 (snd (allocate_page (memory_bitmap k)) + PROCESS_STACK_SIZE) /\
   (forall m, 0 <= m < len -> aget (name p) m = Some (char_at nm m)) /\
   aget (name p) len = Some zero /\
   (forall i', i' <> i -> proc_at k' i' = proc_at k i') /\
   current_process k' = current_process k /\
   (forall k0, first_free (memory_bitmap k) 0 MAX_PAGES k0 ->
    stack_ptr p = page_address k0 + PROCESS_STACK_SIZE /\
    forall page, page_bit (memory_bitmap k') page =
                 if page =? k0 then true else page_bit (memory_bitmap k) page) /\
   ((forall page, 0 <= page < MAX_PAGES -> page_bit (memory_bitmap k) page = true) ->
    memory_bitmap k' = memory_bitmap k /\ stack_ptr p = PROCESS_STACK_SIZE)).
Proof.
  intros Hwf Hpid. split; [reflexivity|]. split.
  - intros Hfull. unfold create_process. apply find_slot_full.
    intros i' Hi'. apply Hfull. unfold MAX_PROCESSES in *. lia.
  - intros i Hi Hfree Hlow k' r p len. subst k' r p.
    unfold create_process.
    rewrite (find_slot_first nm entry_point k i) by (auto; unfold MAX_PROCESSES in *; lia).
    rewrite fill_slot_eq. cbn [fst snd].
    pose proof Hwf as (Hlen & _ & Hbm).
    assert (Hpa : forall p' bm n,
              proc_at (set_proc (set_memory_bitmap (set_next_pid k n) bm) i p') i = p').
    { intros p' bm n. rewrite proc_at_set_proc. cbn [processes set_memory_bitmap set_next_pid].
      destruct (Z.eqb_spec i i); [|lia]. destruct (Z.leb_spec 0 i); [|lia].
      destruct (Z.ltb_spec i (Z.of_nat (length (processes k)))); [reflexivity|lia]. }
    rewrite Hpa. cbn [pid state code_ptr stack_ptr name].
    destruct (copy_name_spec nm 32 (name (proc_at k i)) 0 ltac:(lia) ltac:(lia)
                (name_length k i Hwf Hi) ltac:(intros; lia)) as (E & Hle & Hl & Hin & Hout).
    subst len. rewrite <- E.
    split; [reflexivity|]. split; [lia|]. split.
    { cbn. apply to_int_small. lia. }
    split; [reflexivity|]. split; [reflexivity|]. split; [reflexivity|]. split; [discriminate|].
    split; [reflexivity|]. split; [reflexivity|]. split; [reflexivity|]. split.
    { intros m Hm. rewrite aget_aset_ne by lia. apply Hin. lia. }
    split.
    { apply aget_aset_eq. pose proof (strlen_nonneg nm). lia. }
    split.
    { intros i' Hi'. rewrite proc_at_set_proc.
      destruct (Z.eqb_spec i i'); [congruence|reflexivity]. }
    split; [reflexivity|].
    cbn [memory_bitmap set_proc set_processes set_memory_bitmap].
    destruct (allocate_page_cases (memory_bitmap k) Hbm)
      as [[Ea Hall]|(k1 & Hff1 & Ea)]; rewrite Ea; cbn [fst snd]; split.
    + intros k0 (Hr0 & Hf0 & _). rewrite Hall in Hf0 by lia. discriminate.
    + intros _. split; [reflexivity|]. apply wrap32_small. unfold PROCESS_STACK_SIZE. lia.
    + intros k0 Hff0. rewrite (first_free_unique _ _ _ _ _ Hff0 Hff1).
      destruct Hff1 as (Hr1 & _). split.
      * apply wrap32_small.
        unfold page_address, MEMORY_START, PAGE_SIZE, PROCESS_STACK_SIZE, MAX_PAGES in *. lia.
      * intros page. apply page_bit_after_set. rewrite Hbm. exact Hr1.
    + intros Hall. destruct Hff1 as (Hr1 & Hf1 & _). rewrite Hall in Hf1 by lia. discriminate.
Qed.

Lemma create_process_first_free_slot_witness :
  let k := fst (kernel_main_start zeroed) in
  well_formed k /\ 0 < next_pid k < 2 ^ 31 - 1 /\
  snd (create_process "init" 0x3000 k) = 2 /\
  state (proc_at (fst (create_process "init" 0x3000 k)) 1) = PROCESS_RUNNING /\
  aget (name (proc_at (fst (create_process "init" 0x3000 k)) 1)) 4 = Some zero.
Proof.
  intros k.
  assert (Hwf : well_formed k)
    by (split; [reflexivity|split; [vm_compute; repeat constructor|reflexivity]]).
  assert (Hpid : 0 < next_pid k < 2 ^ 31 - 1) by (vm_compute; split; reflexivity).
  split; [exact Hwf|]. split; [exact Hpid|].
  destruct (create_process_first_free_slot "init" 0x3000 k Hwf Hpid) as (_ & _ & H).
  destruct (H 1) as (Hr & _ & _ & _ & _ & Hs & _ & _ & _ & _ & _ & Hz & _).
  - unfold MAX_PROCESSES. lia.
  - reflexivity.
  - intros i' Hi'. replace i' with 0 by lia. vm_compute. discriminate.
  - split; [rewrite Hr; reflexivity|]. split; [exact Hs|exact Hz].
Defined.

End Processes.

(** ** System calls *)

Section Exit.

Import Kernel.

Variable text_at : Z -> string.

(** C5. [handle_system_call] with call number [SYS_EXIT] writes 3
    ("terminated") into the state of the current process and changes nothing
    else: the slot keeps its pid, stack pointer, entry point and name, every
    other slot, the page bitmap, the pid counter, the scheduling cursor and
    the screen are as before, and so is the state of the file system. *)
Theorem sys_exit_marks_terminated_only (arg1 arg2 arg3 : Z) (m : machine) :
  0 <= current_process (kernel m) < MAX_PROCESSES ->
  Z.of_nat (length (processes (kernel m))) = MAX_PROCESSES ->
  let k := kernel m in
  let m' := in_kernel (handle_system_call text_at SYS_EXIT arg1 arg2 arg3) m in
  let k' := kernel m' in
  let cur := current_process k in
  SYS_EXIT = 3 /\ PROCESS_TERMINATED = 3 /\
  state (proc_at k' cur) = PROCESS_TERMINATED /\
  pid (proc_at k' cur) = pid (proc_at k cur) /\
  (pid (proc_at k cur) <> 0 -> pid (proc_at k' cur) <> 0) /\
  stack_ptr (proc_at k' cur) = stack_ptr (proc_at k cur) /\
  code_ptr (proc_at k' cur) = code_ptr (proc_at k cur) /\
  name (proc_at k' cur) = name (proc_at k cur) /\
  (forall i, i <> cur -> proc_at k' i = proc_at k i) /\
  length (processes k') = length (processes k) /\
  memory_bitmap k' = memory_bitmap k /\
  (forall page, page_bit (memory_bitmap k') page = page_bit (memory_bitmap k) page) /\
  next_pid k' = next_pid k /\
  current_process k' = current_process k /\
  current_row k' = current_row k /\
  current_col k' = current_col k /\
  video_memory k' = video_memory k /\
  files m' = files m.
Proof.
  intros Hcur Hlen k m' k' cur. subst k' m'. cbn [kernel files in_kernel]. fold k.
  unfold handle_system_call. cbn [Z.eqb SYS_EXIT SYS_WRITE SYS_READ Pos.eqb].
  fold cur.
  assert (E : forall p, proc_at (set_proc k cur p) cur = p).
  { intros p. rewrite proc_at_set_proc.
    destruct (Z.eqb_spec cur cur); [|lia]. destruct (Z.leb_spec 0 cur); [|subst cur k; lia].
    destruct (Z.ltb_spec cur (Z.of_nat (length (processes k)))); [reflexivity|subst cur k; lia]. }
  rewrite E. cbn [pid state stack_ptr code_ptr name].
  repeat split; auto.
  - intros i Hi. rewrite proc_at_set_proc.
    destruct (Z.eqb_spec cur i); [congruence|reflexivity].
  - unfold set_proc. cbn [processes set_processes]. apply length_aset.
Qed.

End Exit.

Lemma sys_exit_marks_terminated_only_witness :
  let m := mk_machine (fst (Kernel.kernel_main_start Kernel.zeroed))
             (default (FS.mk_fs [] [] [] 0 0 0 0) (FS.init_filesystem 3)) in
  0 <= Kernel.current_process (kernel m) < Kernel.MAX_PROCESSES /\
  Z.of_nat (length (Kernel.processes (kernel m))) = Kernel.MAX_PROCESSES /\
  Kernel.state
    (Kernel.proc_at
       (kernel (in_kernel (Kernel.handle_system_call (fun _ => EmptyString)
                             Kernel.SYS_EXIT 0 0 0) m))
       (Kernel.current_process (kernel m))) = Kernel.PROCESS_TERMINATED.
Proof.
  intros m.
  assert (H1 : 0 <= Kernel.current_process (kernel m) < Kernel.MAX_PROCESSES)
    by (vm_compute; split; [discriminate|reflexivity]).
  assert (H2 : Z.of_nat (length (Kernel.processes (kernel m))) = Kernel.MAX_PROCESSES)
    by reflexivity.
  split; [exact H1|]. split; [exact H2|].
  destruct (sys_exit_marks_terminated_only (fun _ => EmptyString) 0 0 0 m H1 H2)
    as (_ & _ & Hstate & _).
  exact Hstate.
Defined.

(** ** The file system *)

Section FileSystem.

Import FS.

Lemma file_at_set_file fs i e j :
  file_at (set_file fs i e) j =
  if (i =? j) && (0 <=? i) && (i <? Z.of_nat (length (file_table fs))) then e
  else file_at fs j.
Proof.
  unfold file_at, set_file. cbn [file_table set_file_table].
  rewrite aget_aset. now destruct (_ && _).
Qed.

Lemma dir_at_set_dir fs i e j :
  dir_at (set_dir fs i e) j =
  if (i =? j) && (0 <=? i) && (i <? Z.of_nat (length (directory_table fs))) then e
  else dir_at fs j.
Proof.
  unfold dir_at, set_dir. cbn [directory_table set_directory_table].
  rewrite aget_aset. now destruct (_ && _).
Qed.

Lemma file_ok_mono nf nd nf' nd' i e :
  nf <= nf' -> file_ok nf nd i e -> file_ok nf' nd' i e.
Proof. unfold file_ok. intros Hf (? & ? & [?|?]); repeat split; try lia. Qed.

Lemma dir_ok_mono nf nd nf' nd' i e :
  nf <= nf' -> nd <= nd' -> dir_ok nf nd i e -> dir_ok nf' nd' i e.
Proof.
  unfold dir_ok. intros Hf Hd (? & ? & Hn & Hff). repeat split; auto; lia.
Qed.

Lemma zero_file_ok nf nd i : file_ok nf nd i zero_file.
Proof. unfold file_ok, MAX_FILE_SIZE, MAX_FILES. cbn. lia. Qed.

Lemma zero_dir_ok nf nd i : i <> 0 -> dir_ok nf nd i zero_dir.
Proof. unfold dir_ok. cbn. intros. repeat split; auto; lia. Qed.

(** Writing an entry that is in order keeps the shape. *)
Lemma shape_set_file fs i e :
  shape fs -> file_ok (next_file_id fs) (next_dir_id fs) i e -> shape (set_file fs i e).
Proof.
  intros [] He. constructor; try assumption.
  - unfold set_file. cbn [file_table set_file_table]. now rewrite length_aset.
  - intros j. rewrite file_at_set_file.
    destruct (Z.eqb_spec i j) as [->|]; [|cbn [andb]; auto].
    destruct (_ && _); auto.
Qed.

Lemma shape_set_dir fs i e :
  shape fs -> dir_ok (next_file_id fs) (next_dir_id fs) i e -> shape (set_dir fs i e).
Proof.
  intros [] He. constructor; try assumption.
  - unfold set_dir. cbn [directory_table set_directory_table]. now rewrite length_aset.
  - intros j. rewrite dir_at_set_dir.
    destruct (Z.eqb_spec i j) as [->|]; [|cbn [andb]; auto].
    destruct (_ && _); auto.
Qed.

(** The counters may grow within their ranges. *)
Lemma shape_counters fs nf nd c o :
  shape fs ->
  next_file_id fs <= nf <= MAX_FILES -> next_dir_id fs <= nd <= MAX_DIRECTORIES ->
  0 <= c < nd ->
  shape (mk_fs (file_table fs) (directory_table fs) (file_data fs) nf nd c o).
Proof.
  intros [] Hf Hd Hc. constructor; try assumption; cbn; try lia.
  - intros i. eapply file_ok_mono; [|apply files_ok0]. lia.
  - intros i. eapply dir_ok_mono; [| |apply dirs_ok0]; lia.
Qed.

(** *** The walks along the links *)

Lemma last_file_keeps (P : Z -> Prop) fs :
  (forall q, P q -> f_next_file (file_at fs q) <> 0 -> P (f_next_file (file_at fs q))) ->
  forall fuel p l, P p -> last_file fuel fs p = Some l -> P l.
Proof.
  intros Hstep. induction fuel as [|fuel IH]; intros p l Hp; cbn [last_file]; [discriminate|].
  destruct (Z.eqb_spec (f_next_file (file_at fs p)) 0); cbn [negb].
  - intros [= <-]. assumption.
  - apply IH. auto.
Qed.

Lemma last_dir_keeps (P : Z -> Prop) fs :
  (forall q, P q -> d_next_dir (dir_at fs q) <> 0 -> P (d_next_dir (dir_at fs q))) ->
  forall fuel p l, P p -> last_dir fuel fs p = Some l -> P l.
Proof.
  intros Hstep. induction fuel as [|fuel IH]; intros p l Hp; cbn [last_dir]; [discriminate|].
  destruct (Z.eqb_spec (d_next_dir (dir_at fs p)) 0); cbn [negb].
  - intros [= <-]. assumption.
  - apply IH. auto.
Qed.

Lemma seek_file_link fs file_id : forall fuel prev cur prev' cur',
  prev = 0 \/ f_next_file (file_at fs prev) = cur ->
  seek_file fuel fs file_id prev cur = Some (prev', cur') ->
  (prev' = 0 \/ f_next_file (file_at fs prev') = cur') /\ (cur' = file_id \/ cur' = 0).
Proof.
  induction fuel as [|fuel IH]; intros prev cur prev' cur' H; cbn [seek_file]; [discriminate|].
  destruct (Z.eqb_spec cur file_id); cbn [negb andb].
  - intros [= <- <-]. auto.
  - destruct (Z.eqb_spec cur 0); cbn [negb].
    + intros [= <- <-]. auto.
    + apply IH. auto.
Qed.

Lemma seek_dir_link fs dir_id : forall fuel prev cur prev' cur',
  prev = 0 \/ d_next_dir (dir_at fs prev) = cur ->
  seek_dir fuel fs dir_id prev cur = Some (prev', cur') ->
  (prev' = 0 \/ d_next_dir (dir_at fs prev') = cur') /\ (cur' = dir_id \/ cur' = 0).
Proof.
  induction fuel as [|fuel IH]; intros prev cur prev' cur' H; cbn [seek_dir]; [discriminate|].
  destruct (Z.eqb_spec cur dir_id); cbn [negb andb].
  - intros [= <- <-]. auto.
  - destruct (Z.eqb_spec cur 0); cbn [negb].
    + intros [= <- <-]. auto.
    + apply IH. auto.
Qed.

(** *** Every call keeps the invariant *)

Lemma create_file_invariant fuel nm type permissions fs fs' r :
  invariant fs ->
  create_file fuel nm type permissions fs = Some (fs', r) ->
  invariant fs'.
Proof.
  intros [Hs Ho]. unfold create_file.
  destruct (Z.geb_spec (next_file_id fs) MAX_FILES) as [|Hlt];
    [intros [= <- _]; split; assumption|].
  pose proof (next_file_range _ Hs) as Hnf. pose proof (files_len _ Hs) as Hfl.
  set (id := next_file_id fs) in *.
  set (e := mk_file _ _ _ _ _ _ _).
  set (fs1 := set_file (set_next_file_id fs _) _ e).
  assert (Hid : next_file_id fs1 = id + 1).
  { subst fs1. cbn. rewrite wrap32_small; unfold MAX_FILES in *; lia. }
  assert (Hs1 : shape fs1).
  { subst fs1. apply shape_set_file.
    - unfold set_next_file_id. apply shape_counters; [exact Hs| | |apply Hs].
      + rewrite wrap32_small; unfold MAX_FILES in *; lia.
      + pose proof (next_dir_range _ Hs). lia.
    - unfold file_ok. cbn. rewrite Ho. unfold MAX_FILES, MAX_FILE_SIZE in *. lia. }
  assert (Hfinal : forall fs2, shape fs2 ->
            next_file_id fs2 = next_file_id fs1 -> data_offset fs2 = data_offset fs ->
            invariant (set_data_offset fs2 (wrap32 (data_offset fs2 + MAX_FILE_SIZE)))).
  { intros fs2 Hs2 En Eo. split.
    - unfold set_data_offset. apply shape_counters; [exact Hs2| | |apply Hs2].
      + pose proof (next_file_range _ Hs2). lia.
      + pose proof (next_dir_range _ Hs2). lia.
    - cbn. rewrite En, Eo, Ho, Hid.
      rewrite !wrap32_small; unfold MAX_FILES, MAX_FILE_SIZE in *; lia. }
  assert (Hold : forall q, q <> id -> file_at fs1 q = file_at fs q).
  { intros q Hq. subst fs1. rewrite file_at_set_file.
    destruct (Z.eqb_spec id q); [congruence|reflexivity]. }
  pose proof (dirs_ok _ Hs (current_directory fs)) as (_ & _ & _ & Hfirst).
  change (current_directory fs1) with (current_directory fs).
  change (dir_at fs1 (current_directory fs)) with (dir_at fs (current_directory fs)).
  destruct (Z.eqb_spec (d_first_file (dir_at fs (current_directory fs))) 0) as [E0|Hne].
  - cbn [mbind option_bind]. intros [= <- _].
    match goal with |- invariant (set_data_offset ?x _) => apply (Hfinal x) end;
      [|reflexivity..].
    apply shape_set_dir; [assumption|].
    pose proof (dirs_ok _ Hs1 (current_directory fs)) as (H1 & H2 & H3 & H4).
    split; [exact H1|]. split; [exact H2|]. split; [exact H3|].
    cbn [d_first_file with_first_file]. rewrite Hid. lia.
  - destruct (last_file fuel fs1 _) as [last|] eqn:El; cbn [mbind option_bind]; [|discriminate].
    intros [= <- _].
    match goal with |- invariant (set_data_offset ?x _) => apply (Hfinal x) end;
      [|reflexivity..].
    assert (Hlast : 0 < last < id).
    { apply (last_file_keeps (fun x => 0 < x < id) fs1) with (3 := El); [|lia].
      intros q Hq. rewrite Hold by lia.
      pose proof (files_ok _ Hs q) as (_ & _ & [?|?]); unfold id in *; lia. }
    apply shape_set_file; [assumption|].
    pose proof (files_ok _ Hs1 last) as (H1 & H2 & H3).
    split; [exact H1|]. split; [exact H2|]. right.
    cbn [f_next_file with_next_file]. rewrite Hid. lia.
Qed.

Lemma create_directory_invariant fuel nm fs fs' r :
  invariant fs ->
  create_directory fuel nm fs = Some (fs', r) ->
  invariant fs'.
Proof.
  intros [Hs Ho]. unfold create_directory.
  destruct (Z.geb_spec (next_dir_id fs) MAX_DIRECTORIES) as [|Hlt];
    [intros [= <- _]; split; assumption|].
  pose proof (next_dir_range _ Hs) as Hnd. pose proof (current_range _ Hs) as Hc.
  set (id := next_dir_id fs) in *.
  set (fs1 := set_dir (set_next_dir_id fs _) _ _).
  assert (Hid : next_dir_id fs1 = id + 1).
  { subst fs1. cbn. rewrite wrap32_small; unfold MAX_DIRECTORIES in *; lia. }
  assert (Hs1 : shape fs1).
  { subst fs1. apply shape_set_dir.
    - unfold set_next_dir_id. apply shape_counters; [exact Hs| | |].
      + pose proof (next_file_range _ Hs). lia.
      + rewrite wrap32_small; unfold MAX_DIRECTORIES in *; lia.
      + rewrite wrap32_small; unfold MAX_DIRECTORIES in *; lia.
    - unfold dir_ok. cbn. repeat split; auto; lia. }
  assert (Hold : forall q, q <> id -> dir_at fs1 q = dir_at fs q).
  { intros q Hq. subst fs1. rewrite dir_at_set_dir.
    destruct (Z.eqb_spec id q); [congruence|reflexivity]. }
  change (current_directory fs1) with (current_directory fs).
  rewrite (Hold (current_directory fs)) by lia.
  pose proof (dirs_ok _ Hs (current_directory fs)) as (_ & _ & Hnext & _).
  destruct (Z.eqb_spec (d_next_dir (dir_at fs (current_directory fs))) 0) as [E0|Hne].
  - cbn [mbind option_bind]. intros [= <- _]. split; [|exact Ho].
    apply shape_set_dir; [assumption|].
    pose proof (dirs_ok _ Hs1 (current_directory fs)) as (H1 & H2 & H3 & H4).
    rewrite (Hold (current_directory fs)) in H1, H2, H3, H4 by lia.
    split; [exact H1|]. split; [exact H2|]. split; [|exact H4].
    cbn [d_next_dir with_next_dir]. rewrite Hid. lia.
  - destruct (last_dir fuel fs1 _) as [last|] eqn:El; cbn [mbind option_bind]; [|discriminate].
    intros [= <- _]. split; [|exact Ho].
    assert (Hlast : 0 < last < id).
    { apply (last_dir_keeps (fun x => 0 < x < id) fs1) with (3 := El); [|lia].
      intros q Hq. rewrite Hold by lia.
      pose proof (dirs_ok _ Hs q) as (_ & _ & [?|?] & _); unfold id in *; lia. }
    apply shape_set_dir; [assumption|].
    pose proof (dirs_ok _ Hs1 last) as (H1 & H2 & H3 & H4).
    split; [exact H1|]. split; [exact H2|]. split; [|exact H4].
    cbn [d_next_dir with_next_dir]. rewrite Hid. lia.
Qed.

Lemma delete_file_invariant fuel file_id fs fs' r :
  invariant fs -> 0 <= file_id ->
  delete_file fuel file_id fs = Some (fs', r) ->
  invariant fs'.
Proof.
  intros [Hs Ho] Hid. unfold delete_file.
  destruct (Z.geb_spec file_id (next_file_id fs)); [intros [= <- _]; split; assumption|].
  destruct (seek_file fuel fs file_id 0 _) as [[prev_file current_file]|] eqn:Es;
    cbn [mbind option_bind]; [|discriminate].
  apply seek_file_link in Es as [Hlink Hcur]; [|auto].
  pose proof (files_ok _ Hs file_id) as (_ & _ & Hnext).
  intros [= <- _].
  destruct (Z.eqb_spec current_file file_id) as [->|]; [destruct (Z.eqb_spec prev_file 0)|];
    (split; [|exact Ho]); (apply shape_set_file; [|apply zero_file_ok]); [| |assumption].
  - apply shape_set_dir; [assumption|].
    pose proof (dirs_ok _ Hs (f_parent_dir (file_at fs file_id))) as (H1 & H2 & H3 & H4).
    split; [exact H1|]. split; [exact H2|]. split; [exact H3|].
    cbn [d_first_file with_first_file]. lia.
  - apply shape_set_file; [assumption|].
    pose proof (files_ok _ Hs prev_file) as (H1 & H2 & H3).
    split; [exact H1|]. split; [exact H2|]. cbn [f_next_file with_next_file].
    destruct Hlink as [?|Hlink]; [contradiction|]. rewrite Hlink in H3. lia.
Qed.

Lemma delete_directory_invariant fuel dir_id fs fs' r :
  invariant fs -> 0 <= dir_id ->
  delete_directory fuel dir_id fs = Some (fs', r) ->
  invariant fs'.
Proof.
  intros [Hs Ho] Hd. unfold delete_directory.
  destruct (Z.eqb_spec dir_id 0) as [->|Hne].
  { rewrite orb_true_r. intros [= <- _]; split; assumption. }
  rewrite orb_false_r.
  destruct (dir_id >=? next_dir_id fs); [intros [= <- _]; split; assumption|].
  destruct (negb _); [intros [= <- _]; split; assumption|].
  destruct (seek_dir fuel fs dir_id 0 _) as [[prev_dir current_dir]|] eqn:Es;
    cbn [mbind option_bind]; [|discriminate].
  apply seek_dir_link in Es as [Hlink Hcur]; [|auto].
  pose proof (dirs_ok _ Hs dir_id) as (_ & Hpar & Hnext & _).
  intros [= <- _].
  destruct (Z.eqb_spec current_dir dir_id) as [->|]; [destruct (Z.eqb_spec prev_dir 0)|];
    (split; [|exact Ho]); (apply shape_set_dir; [|apply zero_dir_ok; assumption]);
    [| |assumption].
  - apply shape_set_dir; [assumption|].
    pose proof (dirs_ok _ Hs (d_parent_dir (dir_at fs dir_id))) as (H1 & H2 & H3 & H4).
    split; [exact H1|]. split; [exact H2|]. split; [|exact H4].
    cbn [d_next_dir with_next_dir]. specialize (Hpar ltac:(lia)). lia.
  - apply shape_set_dir; [assumption|].
    pose proof (dirs_ok _ Hs prev_dir) as (H1 & H2 & H3 & H4).
    split; [exact H1|]. split; [exact H2|]. split; [|exact H4].
    cbn [d_next_dir with_next_dir].
    destruct Hlink as [?|Hlink]; [contradiction|]. rewrite Hlink in H3. lia.
Qed.

Lemma length_memcpy_at dst : forall i pos src from n,
  length (memcpy_at i dst pos src from n) = length dst.
Proof. induction dst as [|x dst IH]; intros; simpl; [reflexivity|]. now rewrite IH. Qed.

Lemma write_file_invariant file_id data offset size fs :
  invariant fs ->
  invariant (fst (write_file fs file_id data offset size)).
Proof.
  intros [Hs Ho]. unfold write_file.
  destruct (file_id >=? next_file_id fs); [split; assumption|]. cbn [fst].
  set (size' := if wrap32 (offset + size) >? MAX_FILE_SIZE then _ else _).
  destruct (size' >? 0); [|split; assumption].
  set (fs1 := set_file_data fs _).
  assert (Hs1 : shape fs1).
  { destruct Hs. constructor; try assumption.
    subst fs1. cbn [file_data set_file_data]. unfold memcpy. now rewrite length_memcpy_at. }
  destruct (Z.gtb_spec (wrap32 (offset + size')) (f_size (file_at fs file_id)));
    [|split; assumption].
  split; [|exact Ho].
  apply shape_set_file; [assumption|].
  pose proof (files_ok _ Hs1 file_id) as (H1 & H2 & H3).
  split; [|split; assumption]. cbn [f_size with_size].
  assert (0 <= wrap32 (offset + size')) by (apply Z.mod_pos_bound; lia).
  split; [assumption|]. subst size'.
  destruct (Z.gtb_spec (wrap32 (offset + size)) MAX_FILE_SIZE); [|assumption].
  unfold wrap32. rewrite Zplus_mod_idemp_r.
  replace (offset + (MAX_FILE_SIZE - offset)) with MAX_FILE_SIZE by lia.
  unfold MAX_FILE_SIZE. rewrite Z.mod_small; lia.
Qed.

Lemma set_current_directory_invariant dir_id fs :
  invariant fs -> 0 <= dir_id -> invariant (set_current_directory dir_id fs).
Proof.
  intros [Hs Ho] Hd. unfold set_current_directory.
  destruct (Z.ltb_spec dir_id (next_dir_id fs)); [|split; assumption].
  split; [|exact Ho]. unfold set_current. apply shape_counters; [exact Hs| | |lia].
  - pose proof (next_file_range _ Hs). lia.
  - pose proof (next_dir_range _ Hs). lia.
Qed.

(** The state [init_filesystem] builds before it creates the three files. *)
Lemma blank_invariant :
  invariant
    (mk_fs (replicate (Z.to_nat MAX_FILES) zero_file)
       (aset (replicate (Z.to_nat MAX_DIRECTORIES) zero_dir) 0 (mk_dir "/" 0 0 0))
       (replicate (Z.to_nat (MAX_FILES * MAX_FILE_SIZE)) 0) 0 1 0 0).
Proof.
  split; [|reflexivity].
  constructor; cbn [file_table directory_table file_data next_file_id next_dir_id
                      current_directory].
  - rewrite length_replicate. reflexivity.
  - rewrite length_aset, length_replicate. reflexivity.
  - rewrite length_replicate. apply Z2Nat.id. unfold MAX_FILES, MAX_FILE_SIZE. lia.
  - unfold MAX_FILES. lia.
  - unfold MAX_DIRECTORIES. lia.
  - lia.
  - intros i. unfold file_at. cbn [file_table].
    destruct (Z.le_gt_cases 0 i); [destruct (Z.lt_ge_cases i (Z.of_nat (Z.to_nat MAX_FILES)))|].
    + rewrite aget_replicate by lia. apply zero_file_ok.
    + rewrite aget_None by (rewrite length_replicate; lia). apply zero_file_ok.
    + rewrite aget_None by (rewrite length_replicate; lia). apply zero_file_ok.
  - intros d. unfold dir_at. cbn [directory_table].
    destruct (Z.eq_dec d 0) as [->|Hd].
    + cbn. unfold dir_ok. cbn. repeat split; auto; lia.
    + rewrite aget_aset_ne by lia.
      destruct (Z.le_gt_cases 0 d);
        [destruct (Z.lt_ge_cases d (Z.of_nat (Z.to_nat MAX_DIRECTORIES)))|].
      * rewrite aget_replicate by lia. now apply zero_dir_ok.
      * rewrite aget_None by (rewrite length_replicate; lia). now apply zero_dir_ok.
      * rewrite aget_None by (rewrite length_replicate; lia). now apply zero_dir_ok.
Qed.

Lemma init_filesystem_invariant fuel fs :
  init_filesystem fuel = Some fs -> invariant fs.
Proof.
  unfold init_filesystem. pose proof blank_invariant as H0. revert H0.
  generalize (mk_fs (replicate (Z.to_nat MAX_FILES) zero_file)
       (aset (replicate (Z.to_nat MAX_DIRECTORIES) zero_dir) 0 (mk_dir "/" 0 0 0))
       (replicate (Z.to_nat (MAX_FILES * MAX_FILE_SIZE)) 0) 0 1 0 0).
  intros fs0 H0.
  destruct (create_file fuel "kernel.bin" _ _ fs0) as [[fs1 r1]|] eqn:E1;
    cbn [mbind option_bind]; [|discriminate].
  destruct (create_file fuel "shell.bin" _ _ fs1) as [[fs2 r2]|] eqn:E2;
    cbn [mbind option_bind]; [|discriminate].
  destruct (create_file fuel "init.bin" _ _ fs2) as [[fs3 r3]|] eqn:E3;
    cbn [mbind option_bind]; [|discriminate].
  intros [= <-].
  eauto using create_file_invariant.
Qed.

Lemma step_invariant fs fs' : invariant fs -> step fs fs' -> invariant fs'.
Proof.
  intros Hinv Hstep. destruct Hstep as
    [fuel fs fs' E|fuel nm ty pm fs fs' r _ _ E|fuel nm fs fs' r E
    |fuel id fs fs' r Hid E|fuel id fs fs' r Hid E|id data off sz fs _ _ _|id fs Hid].
  - eapply init_filesystem_invariant; eassumption.
  - eapply create_file_invariant; eassumption.
  - eapply create_directory_invariant; eassumption.
  - eapply delete_file_invariant; [eassumption| |eassumption]. apply Hid.
  - eapply delete_directory_invariant; [eassumption| |eassumption]. apply Hid.
  - apply write_file_invariant; assumption.
  - apply set_current_directory_invariant; [assumption|apply Hid].
Qed.

Lemma reachable_invariant fs : reachable fs -> invariant fs.
Proof.
  induction 1 as [fuel fs E|fs fs' _ IH Hstep].
  - eapply init_filesystem_invariant; eassumption.
  - eapply step_invariant; eassumption.
Qed.

(** *** Enough iterations end every walk *)

Lemma last_file_total fs : shape fs -> forall fuel p,
  0 < p < MAX_FILES -> MAX_FILES - p < Z.of_nat fuel ->
  exists l, last_file fuel fs p = Some l.
Proof.
  intros Hs. induction fuel as [|fuel IH]; intros p Hp Hf; [lia|]. cbn [last_file].
  destruct (Z.eqb_spec (f_next_file (file_at fs p)) 0); cbn [negb]; [eauto|].
  pose proof (files_ok _ Hs p) as (_ & _ & Hn). pose proof (next_file_range _ Hs).
  apply IH; lia.
Qed.

Lemma last_dir_total fs : shape fs -> forall fuel p,
  0 < p < MAX_DIRECTORIES -> MAX_DIRECTORIES - p < Z.of_nat fuel ->
  exists l, last_dir fuel fs p = Some l.
Proof.
  intros Hs. induction fuel as [|fuel IH]; intros p Hp Hf; [lia|]. cbn [last_dir].
  destruct (Z.eqb_spec (d_next_dir (dir_at fs p)) 0); cbn [negb]; [eauto|].
  pose proof (dirs_ok _ Hs p) as (_ & _ & Hn & _). pose proof (next_dir_range _ Hs).
  apply IH; lia.
Qed.

Lemma seek_file_total fs file_id : shape fs -> forall fuel prev cur,
  0 <= cur < MAX_FILES -> (0 < fuel)%nat -> (cur = 0 \/ MAX_FILES - cur < Z.of_nat fuel) ->
  exists r, seek_file fuel fs file_id prev cur = Some r.
Proof.
  intros Hs. induction fuel as [|fuel IH]; intros prev cur Hc Hpos Hf; [lia|].
  cbn [seek_file].
  destruct (Z.eqb_spec cur file_id); cbn [negb andb]; [eauto|].
  destruct (Z.eqb_spec cur 0); cbn [negb]; [eauto|].
  pose proof (files_ok _ Hs cur) as (_ & _ & Hn). pose proof (next_file_range _ Hs).
  apply IH; lia.
Qed.

Lemma seek_dir_total fs dir_id : shape fs -> forall fuel prev cur,
  0 <= cur < MAX_DIRECTORIES -> (0 < fuel)%nat ->
  (cur = 0 \/ MAX_DIRECTORIES - cur < Z.of_nat fuel) ->
  exists r, seek_dir fuel fs dir_id prev cur = Some r.
Proof.
  intros Hs. induction fuel as [|fuel IH]; intros prev cur Hc Hpos Hf; [lia|].
  cbn [seek_dir].
  destruct (Z.eqb_spec cur dir_id); cbn [negb andb]; [eauto|].
  destruct (Z.eqb_spec cur 0); cbn [negb]; [eauto|].
  pose proof (dirs_ok _ Hs cur) as (_ & _ & Hn & _). pose proof (next_dir_range _ Hs).
  apply IH; lia.
Qed.

Lemma find_file_from_total fs nm : shape fs -> forall fuel cur,
  0 <= cur < MAX_FILES -> (0 < fuel)%nat -> (cur = 0 \/ MAX_FILES - cur < Z.of_nat fuel) ->
  exists r, find_file_from fuel fs nm cur = Some r.
Proof.
  intros Hs. induction fuel as [|fuel IH]; intros cur Hc Hpos Hf; [lia|].
  cbn [find_file_from].
  destruct (Z.eqb_spec cur 0); cbn [negb]; [eauto|].
  destruct (String.eqb _ nm); [eauto|].
  pose proof (files_ok _ Hs cur) as (_ & _ & Hn). pose proof (next_file_range _ Hs).
  apply IH; lia.
Qed.

Lemma find_directory_from_total fs nm : shape fs -> forall fuel cur,
  0 <= cur < MAX_DIRECTORIES -> (0 < fuel)%nat ->
  (cur = 0 \/ MAX_DIRECTORIES - cur < Z.of_nat fuel) ->
  exists r, find_directory_from fuel fs nm cur = Some r.
Proof.
  intros Hs. induction fuel as [|fuel IH]; intros cur Hc Hpos Hf; [lia|].
  cbn [find_directory_from].
  destruct (Z.eqb_spec cur 0); cbn [negb]; [eauto|].
  destruct (String.eqb _ nm); [eauto|].
  pose proof (dirs_ok _ Hs cur) as (_ & _ & Hn & _). pose proof (next_dir_range _ Hs).
  apply IH; lia.
Qed.

Lemma path_from_total fs : shape fs -> forall fuel path d,
  0 <= d < Z.of_nat fuel -> exists p, path_from fuel fs path d = Some p.
Proof.
  intros Hs. induction fuel as [|fuel IH]; intros path d Hd; [lia|]. cbn [path_from].
  destruct (Z.eqb_spec d 0); cbn [negb]; [eauto|].
  pose proof (dirs_ok _ Hs d) as (_ & Hp & _). apply IH. lia.
Qed.

(** The first link of a directory's chains is within the tables. *)
Lemma first_file_range fs d : shape fs -> 0 <= d_first_file (dir_at fs d) < MAX_FILES.
Proof.
  intros Hs. pose proof (dirs_ok _ Hs d) as (_ & _ & _ & H).
  pose proof (next_file_range _ Hs). unfold MAX_FILES in *. lia.
Qed.

Lemma next_dir_range_of fs d :
  shape fs -> 0 <= d -> 0 <= d_next_dir (dir_at fs d) < MAX_DIRECTORIES.
Proof.
  intros Hs Hd. pose proof (dirs_ok _ Hs d) as (_ & _ & H & _).
  pose proof (next_dir_range _ Hs). unfold MAX_DIRECTORIES in *. lia.
Qed.

Lemma create_directory_total fuel nm fs :
  invariant fs -> (Z.to_nat MAX_DIRECTORIES <= fuel)%nat ->
  exists fs' r, create_directory fuel nm fs = Some (fs', r).
Proof.
  intros [Hs Ho] Hfuel. unfold create_directory.
  destruct (Z.geb_spec (next_dir_id fs) MAX_DIRECTORIES) as [|Hlt]; [eauto|].
  pose proof (next_dir_range _ Hs) as Hnd. pose proof (current_range _ Hs) as Hc.
  set (fs1 := set_dir (set_next_dir_id fs _) _ _).
  assert (Hs1 : shape fs1).
  { subst fs1. apply shape_set_dir.
    - unfold set_next_dir_id. apply shape_counters; [exact Hs| | |].
      + pose proof (next_file_range _ Hs). lia.
      + rewrite wrap32_small; unfold MAX_DIRECTORIES in *; lia.
      + rewrite wrap32_small; unfold MAX_DIRECTORIES in *; lia.
    - unfold dir_ok. cbn. repeat split; auto; lia. }
  destruct (Z.eqb_spec (d_next_dir (dir_at fs1 (current_directory fs1))) 0) as [|Hne];
    cbn [mbind option_bind]; [eauto|].
  pose proof (dirs_ok _ Hs1 (current_directory fs1)) as (_ & _ & Hn & _).
  pose proof (next_dir_range _ Hs1).
  change (current_directory fs1) with (current_directory fs) in *.
  destruct (last_dir_total fs1 Hs1 fuel (d_next_dir (dir_at fs1 (current_directory fs))))
    as [l ->]; [lia|unfold MAX_DIRECTORIES in *; lia|].
  cbn [mbind option_bind]. eauto.
Qed.

Lemma files_from_total fs : shape fs -> forall fuel cur,
  0 <= cur < MAX_FILES -> (0 < fuel)%nat -> (cur = 0 \/ MAX_FILES - cur < Z.of_nat fuel) ->
  exists l, files_from fuel fs cur = Some l.
Proof.
  intros Hs. induction fuel as [|fuel IH]; intros cur Hc Hpos Hf; [lia|].
  cbn [files_from].
  destruct (Z.eqb_spec cur 0); cbn [negb]; [eauto|].
  pose proof (files_ok _ Hs cur) as (_ & _ & Hn). pose proof (next_file_range _ Hs).
  destruct (IH (f_next_file (file_at fs cur))) as [l ->]; [lia..|].
  cbn [mbind option_bind]. eauto.
Qed.

Lemma dirs_from_total fs : shape fs -> forall fuel cur,
  0 <= cur < MAX_DIRECTORIES -> (0 < fuel)%nat ->
  (cur = 0 \/ MAX_DIRECTORIES - cur < Z.of_nat fuel) ->
  exists l, dirs_from fuel fs cur = Some l.
Proof.
  intros Hs. induction fuel as [|fuel IH]; intros cur Hc Hpos Hf; [lia|].
  cbn [dirs_from].
  destruct (Z.eqb_spec cur 0); cbn [negb]; [eauto|].
  pose proof (dirs_ok _ Hs cur) as (_ & _ & Hn & _). pose proof (next_dir_range _ Hs).
  destruct (IH (d_next_dir (dir_at fs cur))) as [l ->]; [lia..|].
  cbn [mbind option_bind]. eauto.
Qed.

Lemma create_file_total fuel nm type permissions fs :
  invariant fs -> (Z.to_nat MAX_FILES <= fuel)%nat ->
  exists fs' r, create_file fuel nm type permissions fs = Some (fs', r).
Proof.
  intros [Hs Ho] Hfuel. unfold create_file.
  destruct (Z.geb_spec (next_file_id fs) MAX_FILES) as [|Hlt]; [eauto|].
  pose proof (next_file_range _ Hs) as Hnf.
  set (fs1 := set_file (set_next_file_id fs _) _ _).
  assert (Hs1 : shape fs1).
  { subst fs1. apply shape_set_file.
    - unfold set_next_file_id. apply shape_counters; [exact Hs| | |apply Hs].
      + rewrite wrap32_small; unfold MAX_FILES in *; lia.
      + pose proof (next_dir_range _ Hs). lia.
    - unfold file_ok. cbn. rewrite Ho. unfold MAX_FILES, MAX_FILE_SIZE in *. lia. }
  destruct (Z.eqb_spec (d_first_file (dir_at fs1 (current_directory fs1))) 0) as [|Hne];
    cbn [mbind option_bind]; [eauto|].
  pose proof (first_file_range fs1 (current_directory fs1) Hs1).
  destruct (last_file_total fs1 Hs1 fuel (d_first_file (dir_at fs1 (current_directory fs1))))
    as [l ->]; [lia|unfold MAX_FILES in *; lia|].
  cbn [mbind option_bind]. eauto.
Qed.

Lemma delete_file_total fuel file_id fs :
  invariant fs -> (Z.to_nat MAX_FILES <= fuel)%nat ->
  exists fs' r, delete_file fuel file_id fs = Some (fs', r).
Proof.
  intros [Hs Ho] Hfuel. unfold delete_file.
  destruct (file_id >=? next_file_id fs); [eauto|].
  pose proof (first_file_range fs (f_parent_dir (file_at fs file_id)) Hs).
  destruct (seek_file_total fs file_id Hs fuel 0
              (d_first_file (dir_at fs (f_parent_dir (file_at fs file_id)))))
    as [[prev cur] ->]; [lia|unfold MAX_FILES in *; lia|unfold MAX_FILES in *; lia|].
  cbn [mbind option_bind]. eauto.
Qed.

Lemma delete_directory_total fuel dir_id fs :
  invariant fs -> 0 <= dir_id -> (Z.to_nat MAX_DIRECTORIES <= fuel)%nat ->
  exists fs' r, delete_directory fuel dir_id fs = Some (fs', r).
Proof.
  intros [Hs Ho] Hd Hfuel. unfold delete_directory.
  destruct ((dir_id >=? next_dir_id fs) || (dir_id =? 0)) eqn:E; [eauto|].
  destruct (negb _); [eauto|].
  apply orb_false_iff in E as [_ E]. apply Z.eqb_neq in E.
  pose proof (dirs_ok _ Hs dir_id) as (_ & Hpar & _).
  pose proof (next_dir_range_of fs (d_parent_dir (dir_at fs dir_id)) Hs ltac:(lia)).
  destruct (seek_dir_total fs dir_id Hs fuel 0
              (d_next_dir (dir_at fs (d_parent_dir (dir_at fs dir_id)))))
    as [[prev cur] ->]; [lia|unfold MAX_DIRECTORIES in *; lia|unfold MAX_DIRECTORIES in *; lia|].
  cbn [mbind option_bind]. eauto.
Qed.

Lemma find_file_total fuel nm parent_dir fs :
  invariant fs -> (Z.to_nat MAX_FILES <= fuel)%nat ->
  exists r, find_file fuel nm parent_dir fs = Some r.
Proof.
  intros [Hs _] Hfuel. unfold find_file.
  pose proof (first_file_range fs parent_dir Hs).
  apply find_file_from_total; [assumption|lia|unfold MAX_FILES in *; lia..].
Qed.

Lemma find_directory_total fuel nm parent_dir fs :
  invariant fs -> 0 <= parent_dir -> (Z.to_nat MAX_DIRECTORIES <= fuel)%nat ->
  exists r, find_directory fuel nm parent_dir fs = Some r.
Proof.
  intros [Hs _] Hp Hfuel. unfold find_directory.
  pose proof (next_dir_range_of fs parent_dir Hs Hp).
  apply find_directory_from_total; [assumption|lia|unfold MAX_DIRECTORIES in *; lia..].
Qed.

Lemma list_directory_total fuel dir_id fs :
  invariant fs -> 0 <= dir_id -> (Z.to_nat MAX_FILES <= fuel)%nat ->
  exists l, list_directory fuel dir_id fs = Some l.
Proof.
  intros [Hs _] Hd Hfuel. unfold list_directory.
  destruct (dir_id >=? next_dir_id fs); [eauto|].
  pose proof (first_file_range fs dir_id Hs). pose proof (next_dir_range_of fs dir_id Hs Hd).
  destruct (files_from_total fs Hs fuel (d_first_file (dir_at fs dir_id)))
    as [files ->]; [lia|unfold MAX_FILES in *; lia..|].
  destruct (dirs_from_total fs Hs fuel (d_next_dir (dir_at fs dir_id)))
    as [subdirs ->]; [lia|unfold MAX_FILES, MAX_DIRECTORIES in *; lia..|].
  cbn [mbind option_bind]. eauto.
Qed.

Lemma init_filesystem_total fuel :
  exists fs, init_filesystem (S fuel) = Some fs.
Proof.
  assert (H : match init_filesystem (S fuel) with Some _ => true | None => false end = true)
    by (vm_compute; reflexivity).
  destruct (init_filesystem (S fuel)) as [fs|]; [eauto|discriminate].
Qed.

(** C10, as amended. In every state a client can bring about, the root is
    its own parent and every other directory entry has a parent of strictly
    lower index; every call keeps it so.  The walk of [get_path_string] up
    the parent links therefore goes down at each turn and ends at 0: with
    [MAX_DIRECTORIES] iterations allowed, it returns the path of every
    directory whose path is shorter than [MAX_PATH_LENGTH] characters, the
    most that the two buffers of the function hold with the terminator. *)
Theorem get_path_string_terminates (fs : filesystem) :
  reachable fs ->
  d_parent_dir (dir_at fs 0) = 0 /\
  (forall d, 0 < d -> 0 <= d_parent_dir (dir_at fs d) < d) /\
  (forall fs', step fs fs' ->
     d_parent_dir (dir_at fs' 0) = 0 /\
     forall d, 0 < d -> 0 <= d_parent_dir (dir_at fs' d) < d) /\
  (forall dir_id fuel, 0 <= dir_id < MAX_DIRECTORIES ->
     (Z.to_nat MAX_DIRECTORIES <= fuel)%nat ->
     (forall text, path_from fuel fs "" dir_id = Some text ->
        Z.of_nat (String.length text) < MAX_PATH_LENGTH) ->
     exists path, get_path_string fuel dir_id fs = Some path /\
                  0 < Z.of_nat (String.length path) < MAX_PATH_LENGTH).
Proof.
  intros Hr. pose proof (reachable_invariant fs Hr) as [Hs Ho].
  assert (Hpar : forall fs0, shape fs0 ->
            d_parent_dir (dir_at fs0 0) = 0 /\
            forall d, 0 < d -> 0 <= d_parent_dir (dir_at fs0 d) < d).
  { intros fs0 Hs0. split.
    - pose proof (dirs_ok _ Hs0 0) as (H & _). auto.
    - intros d Hd. pose proof (dirs_ok _ Hs0 d) as (_ & H & _). auto. }
  split; [apply Hpar; assumption|]. split; [apply Hpar; assumption|]. split.
  - intros fs' Hstep. apply Hpar.
    apply (step_invariant fs fs'); [split; assumption|assumption].
  - intros dir_id fuel Hd Hfuel Hfits. unfold get_path_string.
    destruct (path_from_total fs Hs fuel "" dir_id) as [p Hp];
      [unfold MAX_DIRECTORIES in *; lia|].
    rewrite Hp. cbn [mbind option_bind]. specialize (Hfits p Hp).
    eexists. split; [reflexivity|]. unfold MAX_PATH_LENGTH in *.
    destruct p as [|c p]; cbn [String.eqb String.length] in *; lia.
Qed.

Lemma get_path_string_terminates_witness :
  exists fs,
    reachable fs /\
    d_parent_dir (dir_at fs 0) = 0 /\
    path_from 50 fs "" 1 = Some "/etc"%string /\
    exists path, get_path_string 50 1 fs = Some path /\
                 0 < Z.of_nat (String.length path) < MAX_PATH_LENGTH.
Proof.
  assert (F : (fs ← init_filesystem 3;
               '(fs, _) ← create_directory 3 "etc" fs;
               path_from 50 fs "" 1) = Some "/etc"%string)
    by (vm_compute; reflexivity).
  destruct (init_filesystem 3) as [fs0|] eqn:E0; [|discriminate].
  cbn [mbind option_bind] in F.
  destruct (create_directory 3 "etc" fs0) as [[fs r]|] eqn:E1; [|discriminate].
  cbn [mbind option_bind] in F.
  assert (Hr : reachable fs).
  { eapply reachable_step; [eapply reachable_init; exact E0|].
    eapply step_create_directory. exact E1. }
  exists fs. split; [exact Hr|].
  destruct (get_path_string_terminates fs Hr) as (H0 & _ & _ & Hpath).
  split; [exact H0|]. split; [exact F|].
  apply Hpath; [unfold MAX_DIRECTORIES; lia|reflexivity|].
  intros text Ht. rewrite F in Ht. injection Ht as <-. vm_compute. reflexivity.
Defined.

(** The path of a directory need not fit the buffers.  Five directories
    with names of 31 characters, each made in the one before, give the
    fourth a path of 128 characters and the fifth a path of 160:
    [get_path_string] on the fifth writes 161 bytes to [temp_path] and to
    [path], which hold 128. *)
Lemma get_path_string_overruns :
  exists fs,
    reachable fs /\ 0 <= 5 < next_dir_id fs /\
    exists text,
      path_from 50 fs "" 5 = Some text /\
      Z.of_nat (String.length text) = 160 /\
      MAX_PATH_LENGTH <= Z.of_nat (String.length text).
Proof.
  assert (F :
    (fs ← init_filesystem 3;
     '(fs, a) ← create_directory 3 "aaaaaaaaaaaaaaaaaaaaaaaaaaaaaaa" fs;
     '(fs, b) ← create_directory 3 "bbbbbbbbbbbbbbbbbbbbbbbbbbbbbbb"
                  (set_current_directory 1 fs);
     '(fs, c) ← create_directory 3 "ccccccccccccccccccccccccccccccc"
                  (set_current_directory 2 fs);
     '(fs, d) ← create_directory 3 "ddddddddddddddddddddddddddddddd"
                  (set_current_directory 3 fs);
     '(fs, e) ← create_directory 3 "eeeeeeeeeeeeeeeeeeeeeeeeeeeeeee"
                  (set_current_directory 4 fs);
     text ← path_from 50 fs "" 5;
     Some (next_dir_id fs, Z.of_nat (String.length text))) = Some (6, 160))
    by (vm_compute; reflexivity).
  destruct (init_filesystem 3) as [fs0|] eqn:E0; [|discriminate].
  cbn [mbind option_bind] in F.
  destruct (create_directory 3 _ fs0) as [[fs1 a]|] eqn:E1; [|discriminate].
  cbn [mbind option_bind] in F.
  destruct (create_directory 3 _ (set_current_directory 1 fs1)) as [[fs2 b]|] eqn:E2;
    [|discriminate].
  cbn [mbind option_bind] in F.
  destruct (create_directory 3 _ (set_current_directory 2 fs2)) as [[fs3 c]|] eqn:E3;
    [|discriminate].
  cbn [mbind option_bind] in F.
  destruct (create_directory 3 _ (set_current_directory 3 fs3)) as [[fs4 d]|] eqn:E4;
    [|discriminate].
  cbn [mbind option_bind] in F.
  destruct (create_directory 3 _ (set_current_directory 4 fs4)) as [[fs5 e]|] eqn:E5;
    [|discriminate].
  cbn [mbind option_bind] in F.
  destruct (path_from 50 fs5 "" 5) as [text|] eqn:E6; [|discriminate].
  cbn [mbind option_bind] in F. injection F as Hn Hlen.
  assert (Hu : forall n, 0 <= n < 5 -> u32 n) by (unfold u32; lia).
  exists fs5. split.
  - eapply reachable_step; [|eapply step_create_directory; exact E5].
    eapply reachable_step; [|apply (step_set_current_directory 4); apply Hu; lia].
    eapply reachable_step; [|eapply step_create_directory; exact E4].
    eapply reachable_step; [|apply (step_set_current_directory 3); apply Hu; lia].
    eapply reachable_step; [|eapply step_create_directory; exact E3].
    eapply reachable_step; [|apply (step_set_current_directory 2); apply Hu; lia].
    eapply reachable_step; [|eapply step_create_directory; exact E2].
    eapply reachable_step; [|apply (step_set_current_directory 1); apply Hu; lia].
    eapply reachable_step; [|eapply step_create_directory; exact E1].
    eapply reachable_init. exact E0.
  - split; [rewrite Hn; lia|]. exists text. split; [exact E6|].
    split; [exact Hlen|]. rewrite Hlen. unfold MAX_PATH_LENGTH. lia.
Qed.

(** *** Directories *)

Lemma files_from_nonempty fuel fs first file files :
  files_from fuel fs first = Some (file :: files) -> first <> 0.
Proof.
  destruct fuel as [|fuel]; cbn [files_from]; [discriminate|].
  destruct (Z.eqb_spec first 0); cbn [negb]; [discriminate|auto].
Qed.

(** C6. [delete_directory] of the root returns -1 whatever the state; and
    [delete_directory] of a directory other than the root whose listing
    shows a file returns -2 ("not empty").  Either way the state, directory
    table included, is the one before the call. *)
Theorem delete_directory_refusals (fuel fuel' : nat) (dir_id : Z) (fs : filesystem)
    (file : Z) (files subdirs : list Z) :
  delete_directory fuel 0 fs = Some (fs, -1) /\
  (0 < dir_id ->
   list_directory fuel' dir_id fs = Some (file :: files, subdirs) ->
   delete_directory fuel dir_id fs = Some (fs, -2)).
Proof.
  split.
  - unfold delete_directory. rewrite orb_true_r. reflexivity.
  - intros Hpos Hlist. unfold list_directory in Hlist. unfold delete_directory.
    destruct (dir_id >=? next_dir_id fs); [discriminate|].
    destruct (Z.eqb_spec dir_id 0); [lia|]. cbn [orb].
    destruct (files_from fuel' fs _) as [[|f fl]|] eqn:Ef; cbn [mbind option_bind] in Hlist;
      try discriminate.
    + destruct (dirs_from fuel' fs _); discriminate.
    + apply files_from_nonempty in Ef.
      destruct (Z.eqb_spec (d_first_file (dir_at fs dir_id)) 0); [contradiction|reflexivity].
Qed.

Lemma delete_directory_refusals_witness :
  exists fs,
    reachable fs /\
    list_directory 3 1 fs = Some ([3], []) /\
    delete_directory 0 0 fs = Some (fs, -1) /\
    delete_directory 3 1 fs = Some (fs, -2).
Proof.
  assert (F :
    (fs ← init_filesystem 3;
     '(fs, etc) ← create_directory 3 "etc" fs;
     '(fs, _) ← create_file 3 "passwd" FILE_TYPE_REGULAR PERM_READ
                  (set_current_directory etc fs);
     listing ← list_directory 3 1 fs;
     Some (etc, listing)) = Some (1, ([3], []))) by (vm_compute; reflexivity).
  destruct (init_filesystem 3) as [fs0|] eqn:E0; [|discriminate].
  cbn [mbind option_bind] in F.
  destruct (create_directory 3 "etc" fs0) as [[fs1 etc]|] eqn:E1; [|discriminate].
  cbn [mbind option_bind] in F.
  destruct (create_file 3 "passwd" _ _ _) as [[fs2 r]|] eqn:E2; [|discriminate].
  cbn [mbind option_bind] in F.
  destruct (list_directory 3 1 fs2) as [listing|] eqn:E3; [|discriminate].
  cbn [mbind option_bind] in F. injection F as -> ->.
  exists fs2. split.
  - eapply reachable_step;
      [eapply reachable_step; [eapply reachable_step; [eapply reachable_init; exact E0|]|]|].
    + eapply step_create_directory. exact E1.
    + apply (step_set_current_directory 1). unfold u32. lia.
    + eapply step_create_file; [| |exact E2]; unfold u32; vm_compute;
        split; discriminate || reflexivity.
  - split; [exact E3|]. split.
    + exact (proj1 (delete_directory_refusals 0 3 1 fs2 3 [] [])).
    + apply (proj2 (delete_directory_refusals 3 3 1 fs2 3 [] [])); [lia|exact E3].
Defined.

Lemma create_directory_entry fuel nm fs fs' r :
  invariant fs -> next_dir_id fs < MAX_DIRECTORIES ->
  create_directory fuel nm fs = Some (fs', r) ->
  r = next_dir_id fs /\
  d_name (dir_at fs' r) = strncpy_name nm /\
  d_parent_dir (dir_at fs' r) = current_directory fs.
Proof.
  intros [Hs Ho] Hlt. unfold create_directory.
  destruct (Z.geb_spec (next_dir_id fs) MAX_DIRECTORIES); [lia|].
  pose proof (next_dir_range _ Hs) as Hnd. pose proof (current_range _ Hs) as Hc.
  pose proof (dirs_len _ Hs) as Hlen.
  set (id := next_dir_id fs) in *.
  set (fs1 := set_dir (set_next_dir_id fs _) _ _).
  assert (Hnew : forall target e, target <> id ->
            d_name (dir_at (set_dir fs1 target e) id) = strncpy_name nm /\
            d_parent_dir (dir_at (set_dir fs1 target e) id) = current_directory fs).
  { intros target e Ht. rewrite dir_at_set_dir.
    destruct (Z.eqb_spec target id); [contradiction|]. cbn [andb].
    subst fs1. rewrite dir_at_set_dir. cbn [directory_table set_next_dir_id].
    destruct (Z.eqb_spec id id); [|lia]. destruct (Z.leb_spec 0 id); [|lia].
    destruct (Z.ltb_spec id (Z.of_nat (length (directory_table fs)))); [|lia].
    cbn. auto. }
  assert (Hold : forall q, q <> id -> dir_at fs1 q = dir_at fs q).
  { intros q Hq. subst fs1. rewrite dir_at_set_dir.
    destruct (Z.eqb_spec id q); [congruence|reflexivity]. }
  change (current_directory fs1) with (current_directory fs).
  destruct (d_next_dir (dir_at fs1 (current_directory fs)) =? 0) eqn:E0.
  - cbn [mbind option_bind]. intros [= <- <-]. split; [reflexivity|]. apply Hnew. lia.
  - destruct (last_dir fuel fs1 _) as [last|] eqn:El; cbn [mbind option_bind]; [|discriminate].
    intros [= <- <-]. split; [reflexivity|]. apply Hnew.
    assert (Hlast : 0 < last < id); [|lia].
    apply (last_dir_keeps (fun x => 0 < x < id) fs1) with (3 := El).
    + intros q Hq. rewrite Hold by lia.
      pose proof (dirs_ok _ Hs q) as (_ & _ & [?|?] & _); unfold id in *; lia.
    + rewrite Hold in * by lia. apply Z.eqb_neq in E0.
      pose proof (dirs_ok _ Hs (current_directory fs)) as (_ & _ & [?|?] & _);
        unfold id in *; lia.
Qed.

(** C7. [get_path_string] of the root is ["/"]; a directory ["etc"] created
    by [create_directory] while the root is the current directory gets the
    root as its parent, and [get_path_string] of its id is ["/etc"]. *)
Theorem get_path_string_root_and_etc (fuel : nat) (fs : filesystem) :
  reachable fs ->
  current_directory fs = 0 ->
  next_dir_id fs < MAX_DIRECTORIES ->
  (Z.to_nat MAX_DIRECTORIES <= fuel)%nat ->
  get_path_string fuel 0 fs = Some "/"%string /\
  exists fs' etc,
    create_directory fuel "etc" fs = Some (fs', etc) /\
    etc = next_dir_id fs /\
    d_parent_dir (dir_at fs' etc) = 0 /\
    get_path_string fuel etc fs' = Some "/etc"%string.
Proof.
  intros Hr Hcur Hroom Hfuel. pose proof (reachable_invariant fs Hr) as Hinv.
  destruct fuel as [|[|fuel]]; [vm_compute in Hfuel; lia..|].
  split; [reflexivity|].
  destruct (create_directory_total (S (S fuel)) "etc" fs Hinv Hfuel) as (fs' & etc & E).
  exists fs', etc. split; [exact E|].
  destruct (create_directory_entry _ _ _ _ _ Hinv Hroom E) as (Hetc & Hname & Hpar).
  rewrite Hcur in Hpar.
  split; [exact Hetc|]. split; [exact Hpar|].
  destruct Hinv as [Hs _]. pose proof (next_dir_range _ Hs).
  unfold get_path_string. cbn [path_from].
  destruct (Z.eqb_spec etc 0); [lia|]. cbn [negb].
  rewrite Hpar, Hname. reflexivity.
Qed.

Lemma get_path_string_root_and_etc_witness :
  exists fs,
    reachable fs /\ current_directory fs = 0 /\ next_dir_id fs < MAX_DIRECTORIES /\
    get_path_string 50 0 fs = Some "/"%string /\
    exists fs' etc,
      create_directory 50 "etc" fs = Some (fs', etc) /\
      etc = next_dir_id fs /\
      d_parent_dir (dir_at fs' etc) = 0 /\
      get_path_string 50 etc fs' = Some "/etc"%string.
Proof.
  assert (F : (fs ← init_filesystem 3; Some (current_directory fs, next_dir_id fs))
              = Some (0, 1)) by (vm_compute; reflexivity).
  destruct (init_filesystem 3) as [fs|] eqn:E; [|discriminate].
  cbn [mbind option_bind] in F. injection F as Hcur Hnext.
  assert (Hr : reachable fs) by (eapply reachable_init; exact E).
  assert (Hroom : next_dir_id fs < MAX_DIRECTORIES) by (rewrite Hnext; reflexivity).
  exists fs. split; [exact Hr|]. split; [exact Hcur|]. split; [exact Hroom|].
  apply (get_path_string_root_and_etc 50 fs Hr Hcur Hroom). reflexivity.
Defined.

(** *** The files of the root *)

(** C1.  What the code does on the scenario of the root's three files.
    [init_filesystem] creates "kernel.bin" (id 0), "shell.bin" (id 1) and
    "init.bin" (id 2) with the root as parent, but the list of the root holds
    only ids 1 and 2: linking file 0 stores 0 in [first_file], which is also
    the mark of an empty list, so [find_file] does not find "kernel.bin".
    [find_file] of "shell.bin" returns 1; after [delete_file] of 1 it returns
    the not-found value and the list of the root is one shorter. *)
Theorem init_filesystem_root_files (fuel : nat) :
  (fs ← init_filesystem (S fuel);
   listing ← list_directory (3 + fuel) 0 fs;
   kernel_bin ← find_file (3 + fuel) "kernel.bin" 0 fs;
   shell_bin ← find_file (3 + fuel) "shell.bin" 0 fs;
   init_bin ← find_file (3 + fuel) "init.bin" 0 fs;
   '(fs', r) ← delete_file (3 + fuel) 1 fs;
   shell_bin' ← find_file (3 + fuel) "shell.bin" 0 fs';
   listing' ← list_directory (3 + fuel) 0 fs';
   Some (f_name (file_at fs 0), f_parent_dir (file_at fs 0), next_file_id fs,
         fst listing, kernel_bin, shell_bin, init_bin,
         r, shell_bin', fst listing'))
  = Some ("kernel.bin"%string, 0, 3, [1; 2], NOT_FOUND, 1, 2, 0, NOT_FOUND, [2]).
Proof. vm_compute. reflexivity. Qed.

(** C8. After [create_directory] of "a" under the root, a change of the
    current directory to "a" and [create_directory] of "b", the call
    [find_directory] of "b" in the root (id 0) returns the id of "b", whose
    parent is "a" and not the root: the root's [next_dir] leads to "a", and
    the [next_dir] of "a" leads to its own child "b". *)
Theorem find_directory_follows_child_links (fuel : nat) :
  (fs ← init_filesystem (S fuel);
   '(fs, a) ← create_directory (S fuel) "a" fs;
   '(fs, b) ← create_directory (S fuel) "b" (set_current_directory a fs);
   found ← find_directory (2 + fuel) "b" 0 fs;
   Some (a, d_parent_dir (dir_at fs a), b, d_parent_dir (dir_at fs b), found,
         d_next_dir (dir_at fs 0), d_next_dir (dir_at fs a)))
  = Some (1, 0, 2, 1, 2, 1, 2).
Proof. vm_compute. reflexivity. Qed.

(** So some reachable state has a directory that [find_directory] reports
    under a parent other than its own. *)
Lemma find_directory_outside_parent :
  exists fs found,
    reachable fs /\
    find_directory 3 "b" 0 fs = Some found /\
    found <> NOT_FOUND /\
    d_parent_dir (dir_at fs found) <> 0.
Proof.
  assert (F :
    (fs ← init_filesystem 3;
     '(fs, a) ← create_directory 3 "a" fs;
     '(fs, b) ← create_directory 3 "b" (set_current_directory a fs);
     found ← find_directory 3 "b" 0 fs;
     Some (a, found, d_parent_dir (dir_at fs found))) = Some (1, 2, 1))
    by (vm_compute; reflexivity).
  destruct (init_filesystem 3) as [fs0|] eqn:E0; [|discriminate].
  cbn [mbind option_bind] in F.
  destruct (create_directory 3 "a" fs0) as [[fs1 a]|] eqn:E1; [|discriminate].
  cbn [mbind option_bind] in F.
  destruct (create_directory 3 "b" _) as [[fs2 b]|] eqn:E2; [|discriminate].
  cbn [mbind option_bind] in F.
  destruct (find_directory 3 "b" 0 fs2) as [found|] eqn:E3; [|discriminate].
  cbn [mbind option_bind] in F. injection F as -> -> Hparent.
  exists fs2, 2. split; [|split; [exact E3|split; [discriminate|lia]]].
  eapply reachable_step;
    [eapply reachable_step; [eapply reachable_step; [eapply reachable_init; exact E0|]|]|].
  - eapply step_create_directory. exact E1.
  - apply (step_set_current_directory 1). unfold u32. lia.
  - eapply step_create_directory. exact E2.
Qed.

(** *** Reading and writing *)

Lemma aget_memcpy_at dst : forall i pos src from n j,
  aget (memcpy_at i dst pos src from n) j =
  match aget dst j with
  | Some x =>
      Some (if (pos <=? i + j) && (i + j <? pos + n)
            then default 0 (aget src (from + (i + j - pos))) else x)
  | None => None
  end.
Proof.
  induction dst as [|x dst IH]; intros i pos src from n j; cbn [memcpy_at aget];
    [reflexivity|].
  destruct (Z.eqb_spec j 0) as [->|Hj].
  - rewrite Z.add_0_r. reflexivity.
  - rewrite IH. replace (i + 1 + (j - 1)) with (i + j) by lia. reflexivity.
Qed.

Lemma aget_memcpy dst pos src from n j :
  aget (memcpy dst pos src from n) j =
  match aget dst j with
  | Some x =>
      Some (if (pos <=? j) && (j <? pos + n)
            then default 0 (aget src (from + (j - pos))) else x)
  | None => None
  end.
Proof. unfold memcpy. rewrite aget_memcpy_at. reflexivity. Qed.

(** [write_file] at offset 0: [Z.min size MAX_FILE_SIZE] bytes go to the start
    of the file's partition. *)
Lemma write_file_at_start fs file_id data size :
  shape fs -> 0 <= file_id < next_file_id fs -> u32 size ->
  let e := file_at fs file_id in
  let n := Z.min size MAX_FILE_SIZE in
  let fs' := fst (write_file fs file_id data 0 size) in
  snd (write_file fs file_id data 0 size) = n /\
  next_file_id fs' = next_file_id fs /\
  f_size (file_at fs' file_id) = Z.max (f_size e) n /\
  f_data_start (file_at fs' file_id) = f_data_start e /\
  length (file_data fs') = length (file_data fs) /\
  forall j,
    aget (file_data fs') j =
    match aget (file_data fs) j with
    | Some x =>
        Some (if (f_data_start e <=? j) && (j <? f_data_start e + n)
              then default 0 (aget data (j - f_data_start e)) else x)
    | None => None
    end.
Proof.
  intros Hs Hid Hsize e n fs'. subst fs'. unfold write_file.
  destruct (Z.geb_spec file_id (next_file_id fs)); [lia|]. cbn [fst snd].
  pose proof (files_ok _ Hs file_id) as (Hsz & Hst & _). fold e in Hsz, Hst.
  pose proof (files_len _ Hs) as Hfl. pose proof (next_file_range _ Hs) as Hnf.
  unfold u32 in Hsize.
  rewrite !Z.add_0_l, Z.add_0_r, Z.sub_0_r. fold e.
  rewrite (wrap32_small size) by assumption.
  rewrite (wrap32_small (f_data_start e)) by (unfold MAX_FILES, MAX_FILE_SIZE in *; lia).
  assert (Hn : (if size >? MAX_FILE_SIZE then wrap32 MAX_FILE_SIZE else size) = n).
  { subst n. destruct (Z.gtb_spec size MAX_FILE_SIZE).
    - rewrite wrap32_small by (unfold MAX_FILE_SIZE; lia). lia.
    - lia. }
  rewrite Hn.
  assert (Hn0 : 0 <= n <= MAX_FILE_SIZE) by (subst n; unfold MAX_FILE_SIZE; lia).
  rewrite (wrap32_small n) by (unfold MAX_FILE_SIZE in *; lia).
  split; [apply to_int_small; unfold MAX_FILE_SIZE in *; lia|].
  destruct (Z.gtb_spec n 0) as [Hpos|Hzero].
  - set (fs1 := set_file_data fs _).
    assert (Hdata : forall j,
              aget (file_data fs1) j =
              match aget (file_data fs) j with
              | Some x =>
                  Some (if (f_data_start e <=? j) && (j <? f_data_start e + n)
                        then default 0 (aget data (j - f_data_start e)) else x)
              | None => None
              end).
    { intros j. subst fs1. cbn [file_data set_file_data]. rewrite aget_memcpy.
      rewrite Z.add_0_l. reflexivity. }
    assert (Hlen : length (file_data fs1) = length (file_data fs)).
    { subst fs1. cbn [file_data set_file_data]. unfold memcpy. apply length_memcpy_at. }
    destruct (Z.gtb_spec n (f_size e)).
    + split; [reflexivity|]. rewrite file_at_set_file.
      destruct (Z.eqb_spec file_id file_id); [|lia].
      destruct (Z.leb_spec 0 file_id); [|lia].
      destruct (Z.ltb_spec file_id (Z.of_nat (length (file_table fs1))));
        [|subst fs1; cbn [file_table set_file_data] in *; lia].
      cbn [andb f_size f_data_start with_size].
      split; [lia|]. split; [reflexivity|]. split; [exact Hlen|exact Hdata].
    + split; [reflexivity|]. split; [change (file_at fs1 file_id) with e; lia|].
      split; [reflexivity|]. split; [exact Hlen|exact Hdata].
  - assert (n = 0) by lia.
    split; [reflexivity|]. split; [fold e; lia|]. split; [reflexivity|].
    split; [reflexivity|].
    intros j. destruct (aget (file_data fs) j); [|reflexivity].
    destruct (Z.leb_spec (f_data_start e) j); destruct (Z.ltb_spec j (f_data_start e + n));
      cbn [andb]; try reflexivity; lia.
Qed.

(** [read_file] at offset 0: [Z.min size (recorded size)] bytes come from the
    start of the file's partition. *)
Lemma read_file_at_start fs file_id buffer size :
  0 <= file_id < next_file_id fs -> u32 size ->
  let e := file_at fs file_id in
  0 <= f_size e <= MAX_FILE_SIZE ->
  0 <= f_data_start e <= (MAX_FILES - 1) * MAX_FILE_SIZE ->
  let n := Z.min size (f_size e) in
  snd (read_file fs file_id buffer 0 size) = n /\
  forall i,
    aget (fst (read_file fs file_id buffer 0 size)) i =
    match aget buffer i with
    | Some x =>
        Some (if (0 <=? i) && (i <? n)
              then default 0 (aget (file_data fs) (f_data_start e + i)) else x)
    | None => None
    end.
Proof.
  intros Hid Hsize e Hsz Hst n. unfold read_file.
  destruct (Z.geb_spec file_id (next_file_id fs)); [lia|]. cbn [fst snd].
  unfold u32 in Hsize. fold e.
  rewrite !Z.add_0_l, Z.add_0_r, Z.sub_0_r.
  rewrite (wrap32_small size) by assumption.
  rewrite (wrap32_small (f_data_start e)) by (unfold MAX_FILES, MAX_FILE_SIZE in *; lia).
  rewrite (wrap32_small (f_size e)) by (unfold MAX_FILE_SIZE in *; lia).
  assert (Hn : (if size >? f_size e then f_size e else size) = n).
  { subst n. destruct (Z.gtb_spec size (f_size e)); lia. }
  rewrite Hn.
  assert (Hn0 : 0 <= n <= MAX_FILE_SIZE) by (subst n; unfold MAX_FILE_SIZE in *; lia).
  split; [apply to_int_small; unfold MAX_FILE_SIZE in *; lia|].
  intros i. destruct (Z.gtb_spec n 0).
  - rewrite aget_memcpy. rewrite Z.add_0_l, Z.sub_0_r. reflexivity.
  - destruct (aget buffer i); [|reflexivity].
    destruct (Z.leb_spec 0 i); destruct (Z.ltb_spec i n); cbn [andb]; try reflexivity; lia.
Qed.

(** C4. For a file id in use, [write_file] of [size] bytes at offset 0
    followed by [read_file] of [size] bytes at offset 0 leaves in the buffer
    the bytes written, when [size] is at most [MAX_FILE_SIZE]; both calls then
    return [size].  For a larger [size] the write keeps the first
    [MAX_FILE_SIZE] bytes of the data in the file's partition and touches no
    byte outside it, the recorded size becomes [MAX_FILE_SIZE], both calls
    return [MAX_FILE_SIZE], and the read fills the first [MAX_FILE_SIZE] bytes
    of the buffer and no more. *)
Theorem write_then_read (fs : filesystem) (file_id size : Z) (data buffer : list Z) :
  reachable fs ->
  0 <= file_id < next_file_id fs ->
  u32 size ->
  Z.min size MAX_FILE_SIZE <= Z.of_nat (length data) ->
  Z.min size MAX_FILE_SIZE <= Z.of_nat (length buffer) ->
  let start := f_data_start (file_at fs file_id) in
  let fs' := fst (write_file fs file_id data 0 size) in
  let written := snd (write_file fs file_id data 0 size) in
  let buffer' := fst (read_file fs' file_id buffer 0 size) in
  let nread := snd (read_file fs' file_id buffer 0 size) in
  (size <= MAX_FILE_SIZE ->
   written = size /\ nread = size /\
   forall i, 0 <= i < size -> aget buffer' i = aget data i) /\
  (MAX_FILE_SIZE < size ->
   written = MAX_FILE_SIZE /\
   f_size (file_at fs' file_id) = MAX_FILE_SIZE /\
   (forall i, 0 <= i < MAX_FILE_SIZE -> aget (file_data fs') (start + i) = aget data i) /\
   (forall j, ~ (start <= j < start + MAX_FILE_SIZE) ->
              aget (file_data fs') j = aget (file_data fs) j) /\
   nread = MAX_FILE_SIZE /\
   (forall i, 0 <= i < MAX_FILE_SIZE -> aget buffer' i = aget data i) /\
   (forall i, MAX_FILE_SIZE <= i -> aget buffer' i = aget buffer i)).
Proof.
  intros Hr Hid Hsize Hdata Hbuf start fs' written buffer' nread.
  pose proof (reachable_invariant fs Hr) as [Hs _].
  pose proof (files_ok _ Hs file_id) as (Hsz & Hst & _).
  pose proof (data_len _ Hs) as Hdl.
  destruct (write_file_at_start fs file_id data size Hs Hid Hsize)
    as (Hw & Hnf & Hsz' & Hst' & Hlen' & Hfd).
  fold fs' in Hnf, Hsz', Hst', Hlen', Hfd. fold written in Hw. fold start in Hst, Hst', Hfd.
  set (n := Z.min size MAX_FILE_SIZE) in *.
  assert (Hn0 : 0 <= n <= MAX_FILE_SIZE)
    by (unfold u32 in Hsize; subst n; unfold MAX_FILE_SIZE; lia).
  destruct (read_file_at_start fs' file_id buffer size) as (Hrd & Hbf).
  { rewrite Hnf. exact Hid. }
  { exact Hsize. }
  { rewrite Hsz'. lia. }
  { rewrite Hst'. exact Hst. }
  fold nread in Hrd. fold buffer' in Hbf. rewrite Hsz', Hst' in *.
  (* the bytes of the partition after the write *)
  assert (Hpart : forall i, 0 <= i < n ->
            aget (file_data fs') (start + i) = aget data i).
  { intros i Hi. rewrite Hfd.
    destruct (aget_Some (file_data fs) (start + i)) as [x ->];
      [unfold MAX_FILES, MAX_FILE_SIZE in *; lia|].
    destruct (aget_Some data i) as [v Hv]; [lia|].
    destruct (Z.leb_spec start (start + i)); [|lia].
    destruct (Z.ltb_spec (start + i) (start + n)); [|lia].
    cbn [andb]. replace (start + i - start) with i by lia. rewrite Hv. reflexivity. }
  (* the bytes of the buffer after the read *)
  assert (Hback : forall i, 0 <= i < Z.min size (Z.max (f_size (file_at fs file_id)) n) ->
            i < n -> aget buffer' i = aget data i).
  { intros i Hi Hin. rewrite Hbf.
    destruct (aget_Some buffer i) as [x ->]; [lia|].
    destruct (Z.leb_spec 0 i); [|lia].
    destruct (Z.ltb_spec i (Z.min size (Z.max (f_size (file_at fs file_id)) n))); [|lia].
    cbn [andb]. rewrite Hpart by lia.
    destruct (aget_Some data i) as [v ->]; [lia|]. reflexivity. }
  split.
  - intros Hle. assert (n = size) by lia.
    split; [lia|]. split; [lia|]. intros i Hi. apply Hback; lia.
  - intros Hgt. assert (n = MAX_FILE_SIZE) by lia.
    split; [lia|]. split; [lia|]. split; [intros i Hi; apply Hpart; lia|]. split.
    { intros j Hj. rewrite Hfd. destruct (aget (file_data fs) j); [|reflexivity].
      destruct (Z.leb_spec start j); destruct (Z.ltb_spec j (start + n)); cbn [andb];
        try reflexivity; lia. }
    split; [lia|]. split; [intros i Hi; apply Hback; lia|].
    intros i Hi. rewrite Hbf. destruct (aget buffer i); [|reflexivity].
    destruct (Z.leb_spec 0 i);
      destruct (Z.ltb_spec i (Z.min size (Z.max (f_size (file_at fs file_id)) n)));
      cbn [andb]; try reflexivity; lia.
Qed.

Lemma write_then_read_witness :
  exists fs,
    reachable fs /\ 0 <= 1 < next_file_id fs /\
    snd (write_file fs 1 [104; 105; 33] 0 3) = 3 /\
    snd (read_file (fst (write_file fs 1 [104; 105; 33] 0 3)) 1 [0; 0; 0; 0] 0 3) = 3 /\
    forall i, 0 <= i < 3 ->
      aget (fst (read_file (fst (write_file fs 1 [104; 105; 33] 0 3)) 1 [0; 0; 0; 0] 0 3)) i
      = aget [104; 105; 33] i.
Proof.
  assert (F : (fs ← init_filesystem 3; Some (next_file_id fs)) = Some 3)
    by (vm_compute; reflexivity).
  destruct (init_filesystem 3) as [fs|] eqn:E; [|discriminate].
  cbn [mbind option_bind] in F. injection F as Hnext.
  assert (Hr : reachable fs) by (eapply reachable_init; exact E).
  assert (Hid : 0 <= 1 < next_file_id fs) by (rewrite Hnext; lia).
  exists fs. split; [exact Hr|]. split; [exact Hid|].
  apply (write_then_read fs 1 3 [104; 105; 33] [0; 0; 0; 0] Hr Hid);
    [unfold u32; lia|vm_compute; discriminate..|unfold MAX_FILE_SIZE; lia].
Defined.

Lemma read_file_copy_spec fs file_id buffer offset size pos len :
  read_file_copy fs file_id offset size = Some (pos, len) ->
  read_file fs file_id buffer offset size
  = (memcpy buffer 0 (file_data fs) pos len, to_int len).
Proof.
  unfold read_file_copy, read_file.
  destruct (file_id >=? next_file_id fs); [discriminate|]. cbv zeta.
  destruct (_ >? 0); [|discriminate]. intros E. injection E as <- <-. reflexivity.
Qed.

(** C9, as amended. For a file id in use and an offset past the recorded
    size, with [offset + size] below [2^32], [read_file] replaces [size] by
    [len = (recorded size - offset) mod 2^32], which is not 0, and calls
    [memcpy] for [len] bytes from [file_data[(data_start + offset) mod 2^32]].
    When that copy lies within [file_data] and the buffer, the call returns
    [len], a positive number, with those bytes in the buffer.  A [len] that
    converts to a negative [int] is larger than the whole of [file_data]:
    such a copy leaves the array. *)
Theorem read_file_past_end (fs : filesystem) (file_id offset size : Z) (buffer : list Z) :
  shape fs ->
  0 <= file_id < next_file_id fs ->
  u32 offset -> u32 size ->
  0 <= f_size (file_at fs file_id) < offset ->
  offset + size < 2 ^ 32 ->
  let e := file_at fs file_id in
  let len := wrap32 (f_size e - offset) in
  let pos := wrap32 (f_data_start e + offset) in
  len = 2 ^ 32 - (offset - f_size e) /\
  0 < len < 2 ^ 32 /\
  read_file_copy fs file_id offset size = Some (pos, len) /\
  (to_int len < 0 -> Z.of_nat (length (file_data fs)) < pos + len) /\
  (pos + len <= Z.of_nat (length (file_data fs)) ->
   len <= Z.of_nat (length buffer) ->
   snd (read_file fs file_id buffer offset size) = len /\
   0 < snd (read_file fs file_id buffer offset size) /\
   forall i, 0 <= i < len ->
     aget (fst (read_file fs file_id buffer offset size)) i
     = aget (file_data fs) (pos + i)).
Proof.
  intros Hs Hid Hoff Hsize Hpast Hsum e len pos. unfold u32 in *. fold e in Hpast.
  pose proof (data_len _ Hs) as Hdata. unfold MAX_FILES, MAX_FILE_SIZE in Hdata.
  assert (Hlen : len = 2 ^ 32 - (offset - f_size e)).
  { subst len. unfold wrap32.
    replace (f_size e - offset) with (2 ^ 32 - (offset - f_size e) + (-1) * 2 ^ 32) by lia.
    rewrite Z_mod_plus_full. apply Z.mod_small. lia. }
  assert (Hpos : 0 <= pos < 2 ^ 32) by (apply Z.mod_pos_bound; lia).
  assert (Hcopy : read_file_copy fs file_id offset size = Some (pos, len)).
  { unfold read_file_copy. destruct (Z.geb_spec file_id (next_file_id fs)); [lia|]. fold e.
    rewrite (wrap32_small (offset + size)) by lia.
    destruct (Z.gtb_spec (offset + size) (f_size e)); [|lia]. fold len.
    destruct (Z.gtb_spec len 0); [reflexivity|lia]. }
  assert (Hint : to_int len = if len <? 2 ^ 31 then len else len - 2 ^ 32).
  { unfold to_int. rewrite wrap32_small by lia. reflexivity. }
  split; [exact Hlen|]. split; [lia|]. split; [exact Hcopy|]. split.
  - rewrite Hint. destruct (Z.ltb_spec len (2 ^ 31)); lia.
  - intros Hin Hbuf.
    rewrite (read_file_copy_spec fs file_id buffer offset size pos len Hcopy).
    cbn [fst snd]. rewrite Hint.
    destruct (Z.ltb_spec len (2 ^ 31)); [|lia].
    split; [reflexivity|]. split; [lia|]. intros i Hi.
    rewrite aget_memcpy.
    destruct (aget_Some buffer i) as [x ->]; [lia|].
    destruct (aget_Some (file_data fs) (pos + i)) as [y Hy]; [lia|].
    destruct (Z.leb_spec 0 i); [|lia]. destruct (Z.ltb_spec i (0 + len)); [|lia].
    cbn [andb]. replace (pos + (i - 0)) with (pos + i) by lia.
    rewrite Hy. reflexivity.
Qed.

Lemma read_file_past_end_witness :
  exists fs,
    reachable fs /\ 0 <= 1 < next_file_id fs /\
    0 <= f_size (file_at fs 1) < 0xFFFFFFFF /\
    read_file_copy fs 1 0xFFFFFFFF 0 = Some (4095, 1) /\
    snd (read_file fs 1 [0] 0xFFFFFFFF 0) = 1 /\
    aget (fst (read_file fs 1 [0] 0xFFFFFFFF 0)) 0 = aget (file_data fs) 4095.
Proof.
  assert (F : (fs ← init_filesystem 3;
               Some (next_file_id fs, f_size (file_at fs 1),
                     f_data_start (file_at fs 1)))
              = Some (3, 0, 4096)) by (vm_compute; reflexivity).
  destruct (init_filesystem 3) as [fs|] eqn:E; [|discriminate].
  cbn [mbind option_bind] in F. injection F as Hnext Hsize Hstart.
  assert (Hr : reachable fs) by (eapply reachable_init; exact E).
  assert (Hs : shape fs) by (apply reachable_invariant; exact Hr).
  assert (Hid : 0 <= 1 < next_file_id fs) by (rewrite Hnext; lia).
  assert (Hpast : 0 <= f_size (file_at fs 1) < 0xFFFFFFFF) by (rewrite Hsize; lia).
  assert (Hu : u32 0xFFFFFFFF) by (unfold u32; lia).
  assert (Hz : u32 0) by (unfold u32; lia).
  assert (Hsum : 0xFFFFFFFF + 0 < 2 ^ 32) by lia.
  pose proof (read_file_past_end fs 1 0xFFFFFFFF 0 [0] Hs Hid Hu Hz Hpast Hsum) as H.
  cbv zeta in H. rewrite Hsize, Hstart in H.
  change (wrap32 (0 - 0xFFFFFFFF)) with 1 in H.
  change (wrap32 (4096 + 0xFFFFFFFF)) with 4095 in H.
  destruct H as (_ & _ & Hcopy & _ & Hin).
  pose proof (data_len _ Hs) as Hdata. unfold MAX_FILES, MAX_FILE_SIZE in Hdata.
  destruct Hin as (Hret & _ & Hbytes); [lia|cbn [length]; lia|].
  exists fs. split; [exact Hr|]. split; [exact Hid|]. split; [exact Hpast|].
  split; [exact Hcopy|]. split; [exact Hret|]. apply (Hbytes 0). lia.
Defined.

(** The value [read_file] returns for an offset past the end of a file need
    not be negative: file 1 is empty after [init_filesystem], the offset
    [0xFFFFFFFF] is past its end, [offset + size] does not wrap, and the call
    copies the one byte [file_data[4095]] and returns 1. *)
Lemma read_file_past_end_positive :
  exists fs,
    reachable fs /\ 0 <= 1 < next_file_id fs /\
    f_size (file_at fs 1) < 0xFFFFFFFF /\ 0xFFFFFFFF + 0 < 2 ^ 32 /\
    wrap32 (f_data_start (file_at fs 1) + 0xFFFFFFFF) = 4095 /\
    snd (read_file fs 1 [0] 0xFFFFFFFF 0) = 1 /\
    ~ snd (read_file fs 1 [0] 0xFFFFFFFF 0) < 0.
Proof.
  assert (F : (fs ← init_filesystem 3;
               Some (next_file_id fs, f_size (file_at fs 1),
                     wrap32 (f_data_start (file_at fs 1) + 0xFFFFFFFF),
                     snd (read_file fs 1 [0] 0xFFFFFFFF 0)))
              = Some (3, 0, 4095, 1)) by (vm_compute; reflexivity).
  destruct (init_filesystem 3) as [fs|] eqn:E; [|discriminate].
  cbn [mbind option_bind] in F. injection F as Hnext Hsize Hstart Hret.
  exists fs. split; [eapply reachable_init; exact E|].
  rewrite Hnext, Hsize, Hstart, Hret. repeat split; lia.
Qed.

End FileSystem.

(** * Further properties of the code *)

(** ** The page allocator: sequences of calls *)

Section AllocatorSequences.

Import Kernel.

Lemma aset_aset {A} (a : list A) i v w : aset (aset a i v) i w = aset a i w.
Proof.
  revert i. induction a as [|x a IH]; intros i; simpl; [reflexivity|].
  destruct (Z.eqb_spec i 0) as [->|]; simpl.
  - reflexivity.
  - destruct (Z.eqb_spec i 0); [lia|]. now rewrite IH.
Qed.

Lemma aset_same {A} (a : list A) i v : aget a i = Some v -> aset a i v = a.
Proof.
  revert i. induction a as [|x a IH]; intros i; simpl; [reflexivity|].
  destruct (Z.eqb_spec i 0); [intros [= ->]; reflexivity|].
  intros H. now rewrite IH.
Qed.

Lemma Forall_aset {A} (P : A -> Prop) (a : list A) i v :
  Forall P a -> P v -> Forall P (aset a i v).
Proof.
  intros H Hv. revert i. induction H as [|x a Hx Ha IH]; intros i; simpl; [constructor|].
  destruct (i =? 0); constructor; auto.
Qed.

Lemma word_at_range bm i : Forall u32 bm -> u32 (word_at bm i).
Proof.
  intros H. unfold word_at. destruct (aget bm i) as [w|] eqn:E; cbn.
  - exact (Forall_aget _ _ _ _ H E).
  - unfold u32. lia.
Qed.

Lemma testbit_high w m : u32 w -> 32 <= m -> Z.testbit w m = false.
Proof.
  intros [H0 H1] Hm. destruct (Z.eq_dec w 0) as [->|]; [apply Z.bits_0|].
  apply Z.bits_above_log2; [assumption|].
  apply Z.lt_le_trans with 32; [|assumption]. apply Z.log2_lt_pow2; lia.
Qed.

Lemma set_then_clear w j :
  u32 w -> 0 <= j < 32 -> Z.testbit w j = false ->
  Z.land (Z.lor w (bit j)) (not_bit j) = w.
Proof.
  intros Hw Hj Hb. apply Z.bits_inj'. intros m Hm.
  rewrite Z.land_spec, Z.lor_spec, testbit_bit by lia.
  destruct (Z.lt_ge_cases m 32).
  - rewrite testbit_not_bit by lia.
    destruct (Z.eqb_spec j m) as [->|]; [rewrite Hb; reflexivity|].
    cbn. rewrite orb_false_r, andb_true_r. reflexivity.
  - rewrite (testbit_high w m) by assumption.
    destruct (Z.eqb_spec j m); [lia|]. reflexivity.
Qed.

Lemma u32_bits w :
  0 <= w -> (forall m, 32 <= m -> Z.testbit w m = false) -> u32 w.
Proof.
  intros H0 Hhigh. assert (E : w = w mod 2 ^ 32).
  { apply Z.bits_inj'. intros m Hm. rewrite Z.testbit_mod_pow2 by lia.
    destruct (Z.ltb_spec m 32); [reflexivity|]. now rewrite Hhigh. }
  unfold u32. rewrite E. apply Z.mod_pos_bound. lia.
Qed.

Lemma lor_bit_range w j : u32 w -> 0 <= j < 32 -> u32 (Z.lor w (bit j)).
Proof.
  intros Hw Hj. apply u32_bits.
  - apply Z.lor_nonneg. rewrite bit_pow2 by lia. unfold u32 in Hw. lia.
  - intros m Hm. rewrite Z.lor_spec, testbit_bit, (testbit_high w m) by (assumption || lia).
    destruct (Z.eqb_spec j m); [lia|reflexivity].
Qed.

Lemma land_range w v : u32 w -> u32 (Z.land w v).
Proof.
  intros Hw. apply u32_bits.
  - apply Z.land_nonneg. left. apply Hw.
  - intros m Hm. rewrite Z.land_spec, (testbit_high w m) by assumption. reflexivity.
Qed.

(** The words of the bitmap stay [uint32_t] values. *)
Lemma allocate_page_words bm :
  Z.of_nat (length bm) = BITMAP_WORDS -> Forall u32 bm ->
  Forall u32 (fst (allocate_page bm)).
Proof.
  intros Hlen Hw. destruct (allocate_page_cases bm Hlen) as [[E _]|(k0 & _ & E)];
    rewrite E; cbn [fst]; [assumption|].
  apply Forall_aset; [assumption|]. apply lor_bit_range; [apply word_at_range; assumption|].
  apply Z.mod_pos_bound. lia.
Qed.

Lemma free_page_words page bm : Forall u32 bm -> Forall u32 (free_page page bm).
Proof.
  intros Hw. unfold free_page. apply Forall_aset; [assumption|].
  apply land_range. apply word_at_range. assumption.
Qed.

(** X1.  [free_page] undoes [allocate_page]: when [allocate_page] succeeds
    on a bitmap of 32 [uint32_t] words, freeing the address it returned gives
    back the bitmap as it was before the allocation. *)
Theorem free_page_undoes_allocate_page (bm : list Z) :
  Z.of_nat (length bm) = BITMAP_WORDS -> Forall u32 bm ->
  snd (allocate_page bm) <> 0 ->
  free_page (snd (allocate_page bm)) (fst (allocate_page bm)) = bm /\
  Forall u32 (fst (allocate_page bm)).
Proof.
  intros Hlen Hw Hret. split; [|apply allocate_page_words; assumption].
  destruct (allocate_page_cases bm Hlen) as [[E _]|(k0 & (Hr & Hf & _) & E)].
  { rewrite E in Hret. cbn in Hret. congruence. }
  rewrite E. cbn [fst snd].
  assert (Hk0 : 0 <= k0 < MAX_PAGES) by exact Hr.
  rewrite free_page_address by assumption.
  destruct (page_split k0) as [E0 B0].
  assert (Hi : 0 <= k0 / 32 < Z.of_nat (length bm))
    by (rewrite Hlen; unfold BITMAP_WORDS, MAX_PAGES in *; lia).
  rewrite word_at_aset.
  destruct (Z.eqb_spec (k0 / 32) (k0 / 32)); [|lia].
  destruct (Z.leb_spec 0 (k0 / 32)); [|lia].
  destruct (Z.ltb_spec (k0 / 32) (Z.of_nat (length bm))); [|lia].
  cbn [andb]. rewrite aset_aset.
  rewrite set_then_clear; [|apply word_at_range; assumption|assumption|exact Hf].
  apply aset_same. unfold word_at.
  destruct (aget_Some bm (k0 / 32) Hi) as [w ->]. reflexivity.
Qed.

Lemma free_page_undoes_allocate_page_witness :
  Z.of_nat (length init_memory) = BITMAP_WORDS /\ Forall u32 init_memory /\
  snd (allocate_page init_memory) <> 0 /\
  free_page (snd (allocate_page init_memory)) (fst (allocate_page init_memory))
  = init_memory.
Proof.
  assert (Hw : Forall u32 init_memory).
  { unfold init_memory. apply Forall_aset; [apply Forall_replicate|]; unfold u32; lia. }
  assert (Hret : snd (allocate_page init_memory) <> 0) by (vm_compute; discriminate).
  split; [reflexivity|]. split; [exact Hw|]. split; [exact Hret|].
  exact (proj1 (free_page_undoes_allocate_page init_memory eq_refl Hw Hret)).
Defined.

(** A bitmap whose pages below [m] are allocated and whose pages from [m] on
    are free hands out page [m], then [m + 1], ..., and 0 once [m] reaches
    the end of the pool. *)
Lemma allocate_many_filled n : forall bm m,
  Z.of_nat (length bm) = BITMAP_WORDS -> 0 <= m <= MAX_PAGES ->
  (forall k, 0 <= k < MAX_PAGES -> page_bit bm k = (k <? m)) ->
  snd (allocate_many n bm) =
    map (fun k => if k <? MAX_PAGES then page_address k else 0) (ranks m n) /\
  Z.of_nat (length (fst (allocate_many n bm))) = BITMAP_WORDS /\
  (forall k, 0 <= k < MAX_PAGES ->
     page_bit (fst (allocate_many n bm)) k = (k <? Z.min MAX_PAGES (m + Z.of_nat n))).
Proof.
  induction n as [|n IH]; intros bm m Hlen Hm Hbits; cbn [allocate_many ranks map].
  - cbn [fst snd]. split; [reflexivity|]. split; [assumption|].
    intros k Hk. rewrite Hbits by assumption.
    destruct (Z.ltb_spec k m); destruct (Z.ltb_spec k (Z.min MAX_PAGES (m + Z.of_nat 0)));
      try reflexivity; lia.
  - destruct (allocate_page_cases bm Hlen) as [[E Hall]|(k0 & (Hr & Hf & Hlow) & E)];
      rewrite E.
    + (* the pool is exhausted: m is its end *)
      assert (m = MAX_PAGES).
      { destruct (Z.eq_dec m MAX_PAGES); [assumption|].
        specialize (Hall m ltac:(lia)). rewrite Hbits in Hall by lia.
        destruct (Z.ltb_spec m m); [lia|discriminate]. }
      subst m. destruct (IH bm MAX_PAGES Hlen Hm Hbits) as (_ & Hl & Hb).
      assert (Hrest : forall j from, MAX_PAGES <= from ->
                map (fun k => if k <? MAX_PAGES then page_address k else 0) (ranks from j)
                = map (fun k => if k <? MAX_PAGES then page_address k else 0)
                    (ranks (from + 1) j)).
      { induction j as [|j IHj]; intros from Hfrom; cbn [ranks map]; [reflexivity|].
        destruct (Z.ltb_spec from MAX_PAGES); [lia|].
        destruct (Z.ltb_spec (from + 1) MAX_PAGES); [lia|].
        f_equal. apply IHj. lia. }
      destruct (IH bm MAX_PAGES Hlen Hm Hbits) as (Hs & _ & _).
      destruct (allocate_many n bm) as [bm2 pages]. cbn [fst snd] in *.
      destruct (Z.ltb_spec MAX_PAGES MAX_PAGES); [lia|].
      split; [rewrite Hs, <- Hrest by lia; reflexivity|]. split; [assumption|].
      intros k Hk. rewrite Hb by assumption.
      destruct (Z.ltb_spec k (Z.min MAX_PAGES (MAX_PAGES + Z.of_nat n)));
        destruct (Z.ltb_spec k (Z.min MAX_PAGES (MAX_PAGES + Z.of_nat (S n))));
        try reflexivity; lia.
    + (* page m is the lowest free one *)
      assert (k0 = m).
      { rewrite Hbits in Hf by assumption. destruct (Z.ltb_spec k0 m); [discriminate|].
        destruct (Z.eq_dec k0 m); [assumption|].
        specialize (Hlow m ltac:(lia)). rewrite Hbits in Hlow by lia.
        destruct (Z.ltb_spec m m); [lia|discriminate]. }
      subst k0. set (bm1 := aset bm _ _).
      assert (Hlen1 : Z.of_nat (length bm1) = BITMAP_WORDS)
        by (subst bm1; rewrite length_aset; assumption).
      assert (Hbits1 : forall k, 0 <= k < MAX_PAGES -> page_bit bm1 k = (k <? m + 1)).
      { intros k Hk. subst bm1. rewrite page_bit_after_set
          by (rewrite Hlen; unfold BITMAP_WORDS, MAX_PAGES in *; lia).
        rewrite Hbits by assumption.
        destruct (Z.eqb_spec k m); destruct (Z.ltb_spec k m); destruct (Z.ltb_spec k (m + 1));
          try reflexivity; lia. }
      destruct (IH bm1 (m + 1) Hlen1 ltac:(lia) Hbits1) as (Hs & Hl & Hb).
      destruct (allocate_many n bm1) as [bm2 pages]. cbn [fst snd] in *.
      destruct (Z.ltb_spec m MAX_PAGES); [|lia].
      split; [rewrite Hs; reflexivity|]. split; [assumption|].
      intros k Hk. rewrite Hb by assumption.
      replace (m + 1 + Z.of_nat n) with (m + Z.of_nat (S n)) by lia. reflexivity.
Qed.

Lemma init_memory_bits k :
  0 <= k < MAX_PAGES -> page_bit init_memory k = (k <? 4).
Proof.
  intros Hk. unfold page_bit, init_memory. rewrite word_at_aset.
  destruct (page_split k) as [E B].
  destruct (Z.eqb_spec 0 (k / 32)) as [E0|Hne]; cbn.
  - rewrite <- E0 in E. cbn in E.
    assert (Hcases : k mod 32 < 4 \/ 4 <= k mod 32 < 32) by lia.
    destruct (Z.ltb_spec k 4).
    + assert (C : k mod 32 = 0 \/ k mod 32 = 1 \/ k mod 32 = 2 \/ k mod 32 = 3) by lia.
      destruct C as [-> | [-> | [-> | ->]]]; reflexivity.
    + change 15 with (Z.ones 4). apply Z.ones_spec_high. lia.
  - unfold word_at. rewrite aget_replicate by (unfold BITMAP_WORDS, MAX_PAGES in *; lia).
    cbn [default]. rewrite Z.bits_0. destruct (Z.ltb_spec k 4); [lia|reflexivity].
Qed.

(** X2.  Right after [init_memory], the [n] first calls of [allocate_page]
    return the pages 4, 5, 6, ... in this order (the first four pages stay
    reserved), and 0 from the 1021st call on; after them exactly the pages
    below [4 + n] are marked used. *)
Theorem allocate_many_after_init_memory (n : nat) :
  snd (allocate_many n init_memory) =
    map (fun k => if k <? MAX_PAGES then page_address k else 0) (ranks 4 n) /\
  (forall k, 0 <= k < MAX_PAGES ->
     page_bit (fst (allocate_many n init_memory)) k
     = (k <? Z.min MAX_PAGES (4 + Z.of_nat n))).
Proof.
  destruct (allocate_many_filled n init_memory 4 eq_refl
              ltac:(unfold MAX_PAGES; lia) init_memory_bits) as (Hs & _ & Hb).
  split; assumption.
Qed.

Lemma clear_clear w j :
  u32 w -> 0 <= j < 32 -> Z.testbit w j = false -> Z.land w (not_bit j) = w.
Proof.
  intros Hw Hj Hb. apply Z.bits_inj'. intros m Hm. rewrite Z.land_spec.
  destruct (Z.lt_ge_cases m 32).
  - rewrite testbit_not_bit by lia.
    destruct (Z.eqb_spec j m) as [->|]; [rewrite Hb; reflexivity|apply andb_true_r].
  - rewrite (testbit_high w m) by assumption. reflexivity.
Qed.

(** X3.  [free_page] checks neither the alignment of the address nor that
    the page is allocated: for any address inside the pool it clears the bit
    of the page the address falls in, as it does for the page's own address,
    and leaves every other bit as it was; on a page that is already free it
    changes nothing. *)
Theorem free_page_any_address (bm : list Z) (page : Z) :
  Z.of_nat (length bm) = BITMAP_WORDS ->
  MEMORY_START <= page < MEMORY_START + MAX_PAGES * PAGE_SIZE ->
  let k := (page - MEMORY_START) / PAGE_SIZE in
  0 <= k < MAX_PAGES /\
  free_page page bm = free_page (page_address k) bm /\
  (forall k', page_bit (free_page page bm) k' =
              if k' =? k then false else page_bit bm k') /\
  (Forall u32 bm -> page_bit bm k = false -> free_page page bm = bm).
Proof.
  intros Hlen Hp k.
  assert (Hk : 0 <= k < MAX_PAGES).
  { subst k. unfold MEMORY_START, MAX_PAGES, PAGE_SIZE in *.
    Z.to_euclidean_division_equations; lia. }
  assert (E : free_page page bm = free_page (page_address k) bm).
  { unfold free_page.
    replace (wrap32 (page_address k - MEMORY_START) / PAGE_SIZE) with k.
    - rewrite wrap32_small by (unfold MEMORY_START, MAX_PAGES, PAGE_SIZE in *; lia).
      reflexivity.
    - unfold wrap32, page_address, MEMORY_START, PAGE_SIZE, MAX_PAGES in *.
      rewrite Z.mod_small by lia. Z.to_euclidean_division_equations; lia. }
  split; [exact Hk|]. split; [exact E|]. rewrite E, free_page_address by assumption.
  split.
  - intros k'. apply page_bit_after_clear.
    rewrite Hlen. unfold BITMAP_WORDS, MAX_PAGES in *. lia.
  - intros Hw Hfree. destruct (page_split k) as [E0 B0].
    rewrite clear_clear; [|apply word_at_range; assumption|assumption|exact Hfree].
    apply aset_same. unfold word_at.
    destruct (aget_Some bm (k / 32)) as [w ->]; [|reflexivity].
    rewrite Hlen. unfold BITMAP_WORDS, MAX_PAGES in *. lia.
Qed.

Lemma free_page_any_address_witness :
  Z.of_nat (length init_memory) = BITMAP_WORDS /\
  MEMORY_START <= 0x100FFF < MEMORY_START + MAX_PAGES * PAGE_SIZE /\
  free_page 0x100FFF init_memory = free_page (page_address 0) init_memory /\
  page_bit (free_page 0x100FFF init_memory) 0 = false.
Proof.
  assert (Hp : MEMORY_START <= 0x100FFF < MEMORY_START + MAX_PAGES * PAGE_SIZE)
    by (vm_compute; split; discriminate || reflexivity).
  split; [reflexivity|]. split; [exact Hp|].
  destruct (free_page_any_address init_memory 0x100FFF eq_refl Hp) as (_ & E & Hb & _).
  split; [exact E|]. exact (Hb 0).
Defined.

End AllocatorSequences.

(** ** The process table: pids *)

Section ProcessIds.

Import Kernel.

Lemma find_slot_cases nm e k n : forall i,
  (find_slot n nm e i k = (k, -1) /\
   forall i', i <= i' < i + Z.of_nat n -> pid (proc_at k i') <> 0) \/
  (exists i0, i <= i0 < i + Z.of_nat n /\ pid (proc_at k i0) = 0 /\
     (forall i', i <= i' < i0 -> pid (proc_at k i') <> 0) /\
     find_slot n nm e i k = fill_slot nm e i0 k).
Proof.
  induction n as [|n IH]; intros i; cbn [find_slot].
  - left. split; [reflexivity|]. intros; lia.
  - destruct (Z.eqb_spec (pid (proc_at k i)) 0) as [E|Hne].
    + right. exists i. repeat split; try lia; auto.
    + destruct (IH (i + 1)) as [[Ef Hall]|(i0 & Hr & H0 & Hlow & Ef)].
      * left. split; [exact Ef|]. intros i' Hi'.
        destruct (Z.eq_dec i' i) as [->|]; [assumption|apply Hall; lia].
      * right. exists i0. split; [lia|]. split; [assumption|]. split; [|exact Ef].
        intros i' Hi'. destruct (Z.eq_dec i' i) as [->|]; [assumption|apply Hlow; lia].
Qed.

Lemma length_allocate_page bm :
  Z.of_nat (length bm) = BITMAP_WORDS ->
  Z.of_nat (length (fst (allocate_page bm))) = BITMAP_WORDS.
Proof.
  intros Hlen. destruct (allocate_page_cases bm Hlen) as [[E _]|(k0 & _ & E)];
    rewrite E; cbn [fst]; [assumption|]. now rewrite length_aset.
Qed.

Lemma proc_at_install (k : kernel_state) (n : Z) (bm : list Z) (i0 : Z) (p : process_t) :
  0 <= i0 < Z.of_nat (length (processes k)) ->
  forall j, proc_at (set_proc (set_memory_bitmap (set_next_pid k n) bm) i0 p) j
            = if j =? i0 then p else proc_at k j.
Proof.
  intros Hi0 j. rewrite proc_at_set_proc. cbn [processes set_memory_bitmap set_next_pid].
  destruct (Z.eqb_spec i0 j) as [<-|Hne].
  - destruct (Z.leb_spec 0 i0); [|lia].
    destruct (Z.ltb_spec i0 (Z.of_nat (length (processes k)))); [|lia].
    rewrite Z.eqb_refl. reflexivity.
  - destruct (Z.eqb_spec j i0); [congruence|reflexivity].
Qed.

Lemma pids_in_order_install (k : kernel_state) (bm : list Z) (i0 : Z) (p : process_t) :
  0 <= i0 < Z.of_nat (length (processes k)) ->
  pids_in_order k -> pid p = next_pid k ->
  pids_in_order (set_proc (set_memory_bitmap (set_next_pid k (next_pid k + 1)) bm) i0 p).
Proof.
  intros Hi0 (Hpos & Hbelow & Hdiff) Hp.
  assert (Hat := proc_at_install k (next_pid k + 1) bm i0 p Hi0).
  unfold pids_in_order.
  change (next_pid (set_proc (set_memory_bitmap (set_next_pid k (next_pid k + 1)) bm) i0 p))
    with (next_pid k + 1).
  split; [lia|]. split.
  - intros i. rewrite Hat. destruct (Z.eqb_spec i i0).
    + lia.
    + specialize (Hbelow i). lia.
  - intros i j Hij. rewrite !Hat.
    destruct (Z.eqb_spec i i0); destruct (Z.eqb_spec j i0); try lia.
    + intros _. specialize (Hbelow j). lia.
    + intros _. specialize (Hbelow i). lia.
    + apply Hdiff. assumption.
Qed.

Lemma well_formed_install (k : kernel_state) (n : Z) (bm : list Z) (i0 : Z) (p : process_t) :
  well_formed k -> Z.of_nat (length bm) = BITMAP_WORDS -> Z.of_nat (length (name p)) = 32 ->
  well_formed (set_proc (set_memory_bitmap (set_next_pid k n) bm) i0 p).
Proof.
  intros (Hlen & Hnames & Hbm) Hl Hp. split; [|split].
  - unfold set_proc. cbn [processes set_processes set_memory_bitmap set_next_pid].
    rewrite length_aset. exact Hlen.
  - unfold set_proc. cbn [processes set_processes set_memory_bitmap set_next_pid].
    apply Forall_aset; [exact Hnames|exact Hp].
  - exact Hl.
Qed.

(** X4.  [create_process] keeps the pids of the table in order: as long as
    [next_pid] has not reached [INT_MAX], the table after the call still has
    every pid below [next_pid] and no pid other than 0 twice, and the value
    returned is either -1 or a fresh positive pid that no slot held before. *)
Theorem create_process_keeps_pids_in_order (nm : string) (entry_point : Z)
    (k : kernel_state) :
  well_formed k -> pids_in_order k -> next_pid k < 2 ^ 31 - 1 ->
  let k' := fst (create_process nm entry_point k) in
  let r := snd (create_process nm entry_point k) in
  well_formed k' /\ pids_in_order k' /\
  (r = -1 \/ (0 < r /\ forall i, pid (proc_at k i) <> r)).
Proof.
  intros Hwf Hord Hmax k' r. subst k' r. unfold create_process.
  destruct (find_slot_cases nm entry_point k (Z.to_nat MAX_PROCESSES) 0)
    as [[E _]|(i0 & Hr & Hfree & _ & E)]; rewrite E; cbn [fst snd].
  { split; [assumption|]. split; [assumption|]. left. reflexivity. }
  rewrite fill_slot_eq. cbn [fst snd].
  pose proof Hwf as (Hlen & Hnames & Hbm).
  pose proof Hord as (Hpos & Hbelow & Hdiff).
  assert (Hi0 : 0 <= i0 < MAX_PROCESSES) by (unfold MAX_PROCESSES in *; lia).
  destruct (copy_name_spec nm 32 (name (proc_at k i0)) 0 ltac:(lia) ltac:(lia)
              (name_length k i0 Hwf Hi0) ltac:(intros; lia)) as (_ & _ & Hl & _).
  rewrite (to_int_small (next_pid k + 1)) by lia.
  split; [|split].
  - apply well_formed_install; [exact Hwf|apply length_allocate_page; exact Hbm|].
    cbn [name]. rewrite length_aset. exact Hl.
  - apply pids_in_order_install; [rewrite Hlen; exact Hi0|exact Hord|reflexivity].
  - right. split; [assumption|]. intros i. specialize (Hbelow i). lia.
Qed.

Lemma create_process_keeps_pids_in_order_witness :
  let k := fst (kernel_main_start zeroed) in
  well_formed k /\ pids_in_order k /\ next_pid k < 2 ^ 31 - 1 /\
  pids_in_order (fst (create_process "init" 0x3000 k)).
Proof.
  intros k.
  assert (Hwf : well_formed k)
    by (split; [reflexivity|split; [vm_compute; repeat constructor|reflexivity]]).
  assert (Hat : forall i, pid (proc_at k i) = if i =? 0 then 1 else 0).
  { intros i. unfold proc_at.
    replace (processes k)
      with (mk_process 1 1 (page_address 4 + 4096) 0x2000
              (aset (aset (aset (aset (aset (aset (replicate 32 zero) 0 "s"%char) 1 "h"%char)
                 2 "e"%char) 3 "l"%char) 4 "l"%char) 5 zero)
            :: replicate 9 zero_process) by (vm_compute; reflexivity).
    cbn [aget]. destruct (Z.eqb_spec i 0); [reflexivity|].
    destruct (aget (replicate 9 zero_process) (i - 1)) eqn:E; [|reflexivity].
    cbn. assert (In p (replicate 9 zero_process)).
    { clear -E. revert E. generalize (i - 1). generalize (replicate 9 zero_process).
      induction l as [|x l IH]; intros z; cbn; [discriminate|].
      destruct (z =? 0); [intros [= ->]; auto|intros H; right; eapply IH; eauto]. }
    cbn in H. intuition (subst; reflexivity). }
  assert (Hord : pids_in_order k).
  { split; [vm_compute; reflexivity|]. split.
    - intros i. rewrite Hat. change (next_pid k) with 2. destruct (i =? 0); lia.
    - intros i j Hij. rewrite !Hat.
      destruct (Z.eqb_spec i 0); destruct (Z.eqb_spec j 0); lia. }
  assert (Hmax : next_pid k < 2 ^ 31 - 1) by (vm_compute; reflexivity).
  split; [exact Hwf|]. split; [exact Hord|]. split; [exact Hmax|].
  exact (proj1 (proj2 (create_process_keeps_pids_in_order "init" 0x3000 k Hwf Hord Hmax))).
Defined.

End ProcessIds.

(** ** Text output *)

Section TextOutput.

Import Kernel.

(** The text output touches the cursor and the screen only. *)
Lemma print_char_rest c k :
  memory_bitmap (print_char c k) = memory_bitmap k /\
  next_pid (print_char c k) = next_pid k /\
  processes (print_char c k) = processes k /\
  current_process (print_char c k) = current_process k.
Proof.
  unfold print_char.
  destruct (Ascii.eqb c "010"%char);
    [destruct (current_row k + 1 >=? MAX_ROWS)|destruct (current_col k + 1 >=? MAX_COLS)];
    unfold set_screen; cbn [memory_bitmap next_pid processes current_process]; auto.
Qed.

Lemma print_string_rest s : forall k,
  memory_bitmap (print_string s k) = memory_bitmap k /\
  next_pid (print_string s k) = next_pid k /\
  processes (print_string s k) = processes k /\
  current_process (print_string s k) = current_process k.
Proof.
  induction s as [|c s IH]; intros k; cbn [print_string]; [auto|].
  destruct (IH (print_char c k)) as (-> & -> & -> & ->). apply print_char_rest.
Qed.

Lemma print_hex_rest value k :
  memory_bitmap (print_hex value k) = memory_bitmap k /\
  next_pid (print_hex value k) = next_pid k /\
  processes (print_hex value k) = processes k /\
  current_process (print_hex value k) = current_process k.
Proof.
  unfold print_hex. generalize (rev (seq 0 8)). intros l.
  destruct (print_string_rest "0x" k) as (<- & <- & <- & <-).
  generalize (print_string "0x" k). induction l as [|i l IH]; intros k0; cbn [foldl]; [auto|].
  destruct (IH (print_char
                  (default zero
                     (String.get (Z.to_nat (Z.land (Z.shiftr value (Z.of_nat i * 4)) 15))
                        hex_chars)) k0)) as (-> & -> & -> & ->).
  apply print_char_rest.
Qed.

(** One character other than the line feed: its cell is written at the
    cursor and the cursor moves one cell on. *)
Lemma print_char_plain c k :
  Ascii.eqb c "010"%char = false -> 0 <= current_col k < MAX_COLS ->
  video_memory (print_char c k) = aset (video_memory k) (cursor k) (cell_of c) /\
  cursor (print_char c k) = cursor k + 1 /\
  0 <= current_col (print_char c k) < MAX_COLS /\
  current_row k <= current_row (print_char c k).
Proof.
  intros Hc Hcol. unfold print_char. rewrite Hc. fold (cursor k).
  unfold cursor, MAX_COLS in *.
  destruct (Z.geb_spec (current_col k + 1) 80);
    unfold set_screen; cbn [video_memory current_row current_col];
    (split; [reflexivity|]); lia.
Qed.

Lemma print_string_plain s : forall k,
  plain s = true -> 0 <= current_row k -> 0 <= current_col k < MAX_COLS ->
  cursor k + Z.of_nat (String.length s) <= Z.of_nat (length (video_memory k)) ->
  cursor (print_string s k) = cursor k + Z.of_nat (String.length s) /\
  0 <= current_row (print_string s k) /\
  0 <= current_col (print_string s k) < MAX_COLS /\
  length (video_memory (print_string s k)) = length (video_memory k) /\
  (forall i, 0 <= i < Z.of_nat (String.length s) ->
     aget (video_memory (print_string s k)) (cursor k + i) = Some (cell_of (char_at s i))) /\
  (forall j, ~ cursor k <= j < cursor k + Z.of_nat (String.length s) ->
     aget (video_memory (print_string s k)) j = aget (video_memory k) j).
Proof.
  induction s as [|c s IH]; intros k Hp Hrow Hcol Hfit.
  - cbn [print_string String.length]. change (Z.of_nat 0) with 0.
    split; [lia|]. split; [lia|]. split; [lia|]. split; [reflexivity|].
    split; [intros; lia|reflexivity].
  - cbn [plain] in Hp. apply andb_prop in Hp as [Hp Hs]. apply andb_prop in Hp as [Hlf _].
    apply negb_true_iff in Hlf.
    destruct (print_char_plain c k Hlf Hcol) as (Hvm & Hcur & Hcol1 & Hrow1).
    assert (Hlen1 : length (video_memory (print_char c k)) = length (video_memory k))
      by (rewrite Hvm; apply length_aset).
    cbn [String.length] in *. cbn [print_string].
    assert (Hc0 : 0 <= cursor k) by (unfold cursor, MAX_COLS in *; nia).
    destruct (IH (print_char c k) Hs ltac:(lia) Hcol1 ltac:(rewrite Hlen1; lia))
      as (Ecur & Erow & Ecol & Elen & Ecells & Eout).
    split; [lia|]. split; [exact Erow|]. split; [exact Ecol|]. split; [congruence|]. split.
    + intros i Hi. destruct (Z.eq_dec i 0) as [->|Hne].
      * rewrite Eout by lia. rewrite Hvm, Z.add_0_r. rewrite aget_aset_eq by lia.
        reflexivity.
      * replace (cursor k + i) with (cursor (print_char c k) + (i - 1)) by lia.
        rewrite Ecells by lia. replace i with (1 + (i - 1)) at 2 by lia.
        rewrite char_at_succ by lia. reflexivity.
    + intros j Hj. rewrite Eout by lia. rewrite Hvm. apply aget_aset_ne. lia.
Qed.

(** X5.  [print_string] on a text without line feed, from a cursor inside
    the screen: when the text fits between the cursor and the end of the
    screen, its characters are written to consecutive cells from the cursor
    on, every other cell keeps its value, and the cursor ends at the linear
    position [cursor + length]: nothing scrolls, even when the last cell is
    filled and the cursor leaves the screen for row 25. *)
Theorem print_string_plain_text (s : string) (k : kernel_state) :
  Z.of_nat (length (video_memory k)) = MAX_ROWS * MAX_COLS ->
  0 <= current_row k -> 0 <= current_col k < MAX_COLS ->
  plain s = true ->
  cursor k + Z.of_nat (String.length s) <= MAX_ROWS * MAX_COLS ->
  let k' := print_string s k in
  let n := Z.of_nat (String.length s) in
  current_row k' = (cursor k + n) / MAX_COLS /\
  current_col k' = (cursor k + n) mod MAX_COLS /\
  (forall i, 0 <= i < n ->
     aget (video_memory k') (cursor k + i) = Some (cell_of (char_at s i))) /\
  (forall j, ~ cursor k <= j < cursor k + n ->
     aget (video_memory k') j = aget (video_memory k) j).
Proof.
  intros Hlen Hrow Hcol Hp Hfit k' n. subst k' n.
  destruct (print_string_plain s k Hp Hrow Hcol ltac:(rewrite Hlen; exact Hfit))
    as (Ecur & Erow & Ecol & _ & Ecells & Eout).
  split; [|split; [|split; assumption]]; rewrite <- Ecur; unfold cursor, MAX_COLS in *.
  - apply (Z.div_unique _ _ _ (current_col (print_string s k))); lia.
  - apply (Z.mod_unique _ _ (current_row (print_string s k))); lia.
Qed.

Lemma print_string_plain_text_witness :
  let k := fst (kernel_main_start zeroed) in
  cursor k + 2 <= MAX_ROWS * MAX_COLS /\
  current_col (print_string "ls" k) = (cursor k + 2) mod MAX_COLS /\
  aget (video_memory (print_string "ls" k)) (cursor k + 1) = Some (cell_of "s"%char).
Proof.
  intros k.
  assert (Hlen : Z.of_nat (length (video_memory k)) = MAX_ROWS * MAX_COLS)
    by (vm_compute; reflexivity).
  assert (Hrow : 0 <= current_row k) by (vm_compute; discriminate).
  assert (Hcol : 0 <= current_col k < MAX_COLS)
    by (vm_compute; split; [discriminate|reflexivity]).
  assert (Hfit : cursor k + Z.of_nat (String.length "ls") <= MAX_ROWS * MAX_COLS)
    by (vm_compute; discriminate).
  split; [exact Hfit|].
  destruct (print_string_plain_text "ls" k Hlen Hrow Hcol eq_refl Hfit)
    as (_ & Ec & Ecells & _).
  split; [exact Ec|]. exact (Ecells 1 ltac:(cbn; lia)).
Defined.

(** The loop that moves the rows up, after [n] turns. *)
Lemma shift_cells (vm : list Z) (n : nat) :
  Z.of_nat n + MAX_COLS <= Z.of_nat (length vm) ->
  let vm' := foldl (fun vm i =>
                      aset vm (Z.of_nat i) (default 0 (aget vm (Z.of_nat i + MAX_COLS))))
               vm (seq 0 n) in
  length vm' = length vm /\
  forall j, aget vm' j
            = if (0 <=? j) && (j <? Z.of_nat n) then aget vm (j + MAX_COLS) else aget vm j.
Proof.
  induction n as [|n IH]; intros Hn vm'; subst vm'.
  - cbn [seq foldl]. split; [reflexivity|]. intros j.
    destruct (Z.leb_spec 0 j), (Z.ltb_spec j (Z.of_nat 0)); cbn [andb]; try reflexivity; lia.
  - rewrite seq_S, foldl_app. cbn [foldl Nat.add].
    destruct IH as [Hl Hc]; [lia|].
    set (vm1 := foldl _ vm (seq 0 n)) in *.
    split; [rewrite length_aset; exact Hl|].
    intros j. rewrite aget_aset, Hl, (Hc (Z.of_nat n + MAX_COLS)).
    unfold MAX_COLS in *.
    destruct (Z.leb_spec 0 (Z.of_nat n + 80)); [|lia].
    destruct (Z.ltb_spec (Z.of_nat n + 80) (Z.of_nat n)); [lia|]. cbn [andb].
    destruct (aget_Some vm (Z.of_nat n + 80)) as [x Hx]; [lia|]. rewrite Hx. cbn [default].
    rewrite Hc.
    destruct (Z.eqb_spec (Z.of_nat n) j) as [<-|Hne].
    + destruct (Z.leb_spec 0 (Z.of_nat n)); [|lia].
      destruct (Z.ltb_spec (Z.of_nat n) (Z.of_nat (length vm))); [|lia].
      destruct (Z.ltb_spec (Z.of_nat n) (Z.of_nat (S n))); [|lia].
      cbn [andb]. symmetry. exact Hx.
    + cbn [andb].
      destruct (Z.leb_spec 0 j), (Z.ltb_spec j (Z.of_nat n)), (Z.ltb_spec j (Z.of_nat (S n)));
        cbn [andb]; try reflexivity; lia.
Qed.

(** X6.  [print_char] on a line feed: the column becomes 0; above the last
    row the row goes one down and the screen is untouched; on the last row
    the row stays, every cell of the rows 0 to 23 takes the value of the
    cell one row below, and the last row keeps its cells, which are not
    blanked. *)
Theorem print_char_line_feed (k : kernel_state) :
  Z.of_nat (length (video_memory k)) = MAX_ROWS * MAX_COLS ->
  0 <= current_row k < MAX_ROWS ->
  let k' := print_char "010"%char k in
  current_col k' = 0 /\
  (current_row k < MAX_ROWS - 1 ->
   current_row k' = current_row k + 1 /\ video_memory k' = video_memory k) /\
  (current_row k = MAX_ROWS - 1 ->
   current_row k' = MAX_ROWS - 1 /\
   (forall j, 0 <= j < (MAX_ROWS - 1) * MAX_COLS ->
      aget (video_memory k') j = aget (video_memory k) (j + MAX_COLS)) /\
   (forall j, (MAX_ROWS - 1) * MAX_COLS <= j ->
      aget (video_memory k') j = aget (video_memory k) j)).
Proof.
  intros Hlen Hrow k'. subst k'. unfold print_char.
  replace (Ascii.eqb "010"%char "010"%char) with true by reflexivity.
  destruct (Z.geb_spec (current_row k + 1) MAX_ROWS) as [Hge|Hlt];
    unfold set_screen; cbn [current_col current_row video_memory].
  - split; [reflexivity|]. split; [intros; lia|]. intros _. split; [reflexivity|].
    destruct (shift_cells (video_memory k) (Z.to_nat ((MAX_ROWS - 1) * MAX_COLS)))
      as [_ Hc].
    { rewrite Hlen. unfold MAX_ROWS, MAX_COLS. lia. }
    split; intros j Hj; rewrite Hc; unfold MAX_ROWS, MAX_COLS in *.
    + destruct (Z.leb_spec 0 j), (Z.ltb_spec j (Z.of_nat (Z.to_nat ((25 - 1) * 80))));
        cbn [andb]; try reflexivity; lia.
    + destruct (Z.leb_spec 0 j), (Z.ltb_spec j (Z.of_nat (Z.to_nat ((25 - 1) * 80))));
        cbn [andb]; try reflexivity; lia.
  - split; [reflexivity|]. split; [intros _; split; reflexivity|].
    unfold MAX_ROWS in *. intros; lia.
Qed.

Lemma print_char_line_feed_witness :
  let k := set_screen (fst (kernel_main_start zeroed)) 24 0
             (video_memory (fst (kernel_main_start zeroed))) in
  0 <= current_row k < MAX_ROWS /\
  current_row (print_char "010"%char k) = MAX_ROWS - 1 /\
  aget (video_memory (print_char "010"%char k)) 1999 = aget (video_memory k) 1999.
Proof.
  intros k.
  assert (Hlen : Z.of_nat (length (video_memory k)) = MAX_ROWS * MAX_COLS)
    by (vm_compute; reflexivity).
  assert (Hrow : 0 <= current_row k < MAX_ROWS)
    by (vm_compute; split; [discriminate|reflexivity]).
  split; [exact Hrow|].
  destruct (print_char_line_feed k Hlen Hrow) as (_ & _ & Hlast).
  destruct (Hlast eq_refl) as (Er & _ & Hkeep).
  split; [exact Er|]. apply Hkeep. vm_compute. discriminate.
Defined.

(** The loop of [clear_screen], after [n] turns. *)
Lemma blank_cells (b : Z) (vm : list Z) (n : nat) :
  Z.of_nat n <= Z.of_nat (length vm) ->
  let vm' := foldl (fun vm i => aset vm (Z.of_nat i) b) vm (seq 0 n) in
  length vm' = length vm /\
  forall j, aget vm' j = if (0 <=? j) && (j <? Z.of_nat n) then Some b else aget vm j.
Proof.
  induction n as [|n IH]; intros Hn vm'; subst vm'.
  - cbn [seq foldl]. split; [reflexivity|]. intros j.
    destruct (Z.leb_spec 0 j), (Z.ltb_spec j (Z.of_nat 0)); cbn [andb]; try reflexivity; lia.
  - rewrite seq_S, foldl_app. cbn [foldl Nat.add].
    destruct IH as [Hl Hc]; [lia|].
    set (vm1 := foldl _ vm (seq 0 n)) in *.
    split; [rewrite length_aset; exact Hl|].
    intros j. rewrite aget_aset, Hl, Hc.
    destruct (Z.eqb_spec (Z.of_nat n) j) as [<-|Hne].
    + destruct (Z.leb_spec 0 (Z.of_nat n)); [|lia].
      destruct (Z.ltb_spec (Z.of_nat n) (Z.of_nat (length vm))); [|lia].
      destruct (Z.ltb_spec (Z.of_nat n) (Z.of_nat (S n))); [|lia].
      reflexivity.
    + cbn [andb].
      destruct (Z.leb_spec 0 j), (Z.ltb_spec j (Z.of_nat n)), (Z.ltb_spec j (Z.of_nat (S n)));
        cbn [andb]; try reflexivity; lia.
Qed.

Lemma cell_of_code c :
  cell_of c = let n := Z.of_N (N_of_ascii c) in
              if n <? 128 then 0x0F00 + n else 0xFF00 + n.
Proof.
  destruct c as [[] [] [] [] [] [] [] []]; vm_compute; reflexivity.
Qed.

(** X7.  [clear_screen] followed by [print_string] of a text without line
    feed of at most 2000 characters: cell [j] of the screen holds the cell
    [print_char] writes for the [j]-th character of the text, every cell
    after the text holds the blank [0x0F20], and the cursor stands right
    after the text.  The cell of a character is its code with the attribute
    [0x0F] above it when the code is below 128; for a code from 128 on, the
    sign extension of the [char] covers the attribute and the high byte of
    the cell is [0xFF]. *)
Theorem clear_screen_then_print_string (s : string) (k : kernel_state) :
  Z.of_nat (length (video_memory k)) = MAX_ROWS * MAX_COLS ->
  plain s = true ->
  Z.of_nat (String.length s) <= MAX_ROWS * MAX_COLS ->
  let k' := print_string s (clear_screen k) in
  let n := Z.of_nat (String.length s) in
  current_row k' = n / MAX_COLS /\ current_col k' = n mod MAX_COLS /\
  (forall j, 0 <= j < MAX_ROWS * MAX_COLS ->
     aget (video_memory k') j = Some (if j <? n then cell_of (char_at s j) else 0x0F20)) /\
  (forall j, 0 <= j < n ->
     let c := Z.of_N (N_of_ascii (char_at s j)) in
     aget (video_memory k') j = Some (if c <? 128 then 0x0F00 + c else 0xFF00 + c)).
Proof.
  intros Hlen Hp Hfit k' n.
  cut (current_row k' = n / MAX_COLS /\ current_col k' = n mod MAX_COLS /\
       forall j, 0 <= j < MAX_ROWS * MAX_COLS ->
         aget (video_memory k') j
         = Some (if j <? n then cell_of (char_at s j) else 0x0F20)).
  { intros (Hr & Hc & Hcells). split; [exact Hr|]. split; [exact Hc|].
    split; [exact Hcells|]. intros j Hj c. rewrite Hcells by lia.
    destruct (Z.ltb_spec j n); [|lia]. rewrite cell_of_code. reflexivity. }
  subst k' n.
  destruct (blank_cells (cell_of " "%char) (video_memory k) (Z.to_nat (MAX_ROWS * MAX_COLS)))
    as [Hl Hc].
  { rewrite Hlen. unfold MAX_ROWS, MAX_COLS. lia. }
  assert (Hvm : video_memory (clear_screen k)
                = foldl (fun vm i => aset vm (Z.of_nat i) (cell_of " "%char)) (video_memory k)
                    (seq 0 (Z.to_nat (MAX_ROWS * MAX_COLS)))) by reflexivity.
  assert (Hr0 : current_row (clear_screen k) = 0) by reflexivity.
  assert (Hc0 : current_col (clear_screen k) = 0) by reflexivity.
  assert (Hcur : cursor (clear_screen k) = 0) by (unfold cursor; rewrite Hr0, Hc0; reflexivity).
  assert (Hlen0 : Z.of_nat (length (video_memory (clear_screen k))) = MAX_ROWS * MAX_COLS)
    by (rewrite Hvm, Hl; exact Hlen).
  destruct (print_string_plain s (clear_screen k) Hp ltac:(lia)
              ltac:(rewrite Hc0; unfold MAX_COLS; lia) ltac:(rewrite Hlen0; lia))
    as (Ecur & Erow & Ecol & _ & Ecells & Eout).
  rewrite Hcur in Ecur, Ecells, Eout. rewrite Z.add_0_l in Ecur, Eout.
  assert (Er : current_row (print_string s (clear_screen k))
               = Z.of_nat (String.length s) / MAX_COLS).
  { rewrite <- Ecur. unfold cursor, MAX_COLS in *.
    apply (Z.div_unique _ _ _ (current_col (print_string s (clear_screen k)))); lia. }
  assert (Ec : current_col (print_string s (clear_screen k))
               = Z.of_nat (String.length s) mod MAX_COLS).
  { rewrite <- Ecur. unfold cursor, MAX_COLS in *.
    apply (Z.mod_unique _ _ (current_row (print_string s (clear_screen k)))); lia. }
  split; [exact Er|]. split; [exact Ec|]. intros j Hj.
  destruct (Z.ltb_spec j (Z.of_nat (String.length s))).
  - rewrite <- (Ecells j) by lia. rewrite Z.add_0_l. reflexivity.
  - rewrite Eout by lia. rewrite Hvm, Hc. unfold MAX_ROWS, MAX_COLS in *.
    destruct (Z.leb_spec 0 j), (Z.ltb_spec j (Z.of_nat (Z.to_nat (25 * 80))));
      cbn [andb]; try lia. reflexivity.
Qed.

Lemma clear_screen_then_print_string_witness :
  Z.of_nat (length (video_memory zeroed)) = MAX_ROWS * MAX_COLS /\
  aget (video_memory (print_string "ok" (clear_screen zeroed))) 1 = Some (cell_of "k"%char) /\
  aget (video_memory (print_string "ok" (clear_screen zeroed))) 2 = Some 0x0F20.
Proof.
  assert (Hlen : Z.of_nat (length (video_memory zeroed)) = MAX_ROWS * MAX_COLS)
    by (vm_compute; reflexivity).
  assert (Hfit : Z.of_nat (String.length "ok") <= MAX_ROWS * MAX_COLS)
    by (vm_compute; discriminate).
  split; [exact Hlen|].
  destruct (clear_screen_then_print_string "ok" zeroed Hlen eq_refl Hfit) as (_ & _ & Hc & _).
  split.
  - exact (Hc 1 ltac:(vm_compute; split; [discriminate|reflexivity])).
  - exact (Hc 2 ltac:(vm_compute; split; [discriminate|reflexivity])).
Defined.

End TextOutput.

(** ** Hexadecimal output, system calls, scheduling *)

Section CallsAndScheduling.

Import Kernel.

Lemma hex_digit_nth (m : nat) :
  (m < 16)%nat -> hex_digit (default zero (String.get m hex_chars)) = Some (Z.of_nat m).
Proof.
  intros Hm. do 16 (destruct m as [|m]; [reflexivity|]). lia.
Qed.

Lemma hex_digit_char n :
  0 <= n < 16 -> hex_digit (default zero (String.get (Z.to_nat n) hex_chars)) = Some n.
Proof.
  intros Hn. rewrite hex_digit_nth by lia. f_equal. lia.
Qed.

Lemma nibble_range value i : 0 <= Z.land (Z.shiftr value i) 15 < 16.
Proof.
  change 15 with (Z.ones 4). rewrite Z.land_ones by lia.
  apply Z.mod_pos_bound. lia.
Qed.

Lemma nibbles_value value :
  u32 value ->
  (((((((Z.land (Z.shiftr value 28) 15 * 16 + Z.land (Z.shiftr value 24) 15) * 16
        + Z.land (Z.shiftr value 20) 15) * 16 + Z.land (Z.shiftr value 16) 15) * 16
      + Z.land (Z.shiftr value 12) 15) * 16 + Z.land (Z.shiftr value 8) 15) * 16
    + Z.land (Z.shiftr value 4) 15) * 16 + Z.land (Z.shiftr value 0) 15) = value.
Proof.
  unfold u32. intros Hv. change 15 with (Z.ones 4).
  rewrite !Z.land_ones by lia. rewrite !Z.shiftr_div_pow2 by lia.
  change (2 ^ 28) with 268435456. change (2 ^ 24) with 16777216.
  change (2 ^ 20) with 1048576. change (2 ^ 16) with 65536. change (2 ^ 12) with 4096.
  change (2 ^ 8) with 256. change (2 ^ 4) with 16. change (2 ^ 0) with 1.
  change (2 ^ 32) with 4294967296 in Hv.
  Z.to_euclidean_division_equations. lia.
Qed.

(** X8.  [print_hex] prints ["0x"] followed by exactly eight upper-case
    hexadecimal digits, most significant first, and these digits read back
    as the [uint32_t] value it was given. *)
Theorem print_hex_digits (value : Z) (k : kernel_state) :
  u32 value ->
  exists digits : string,
    String.length digits = 8%nat /\
    read_hex digits = Some value /\
    print_hex value k = print_string ("0x" ++ digits) k.
Proof.
  intros Hv. unfold print_hex.
  change (rev (seq 0 8)) with [7; 6; 5; 4; 3; 2; 1; 0]%nat. cbn [foldl].
  change (Z.of_nat 7 * 4) with 28. change (Z.of_nat 6 * 4) with 24.
  change (Z.of_nat 5 * 4) with 20. change (Z.of_nat 4 * 4) with 16.
  change (Z.of_nat 3 * 4) with 12. change (Z.of_nat 2 * 4) with 8.
  change (Z.of_nat 1 * 4) with 4. change (Z.of_nat 0 * 4) with 0.
  set (d := fun i => default zero
                       (String.get (Z.to_nat (Z.land (Z.shiftr value i) 15)) hex_chars)).
  exists (String (d 28) (String (d 24) (String (d 20) (String (d 16)
            (String (d 12) (String (d 8) (String (d 4) (String (d 0) EmptyString)))))))).
  split; [reflexivity|]. split; [|reflexivity].
  unfold read_hex. cbn [read_hex_from]. subst d. cbv beta.
  rewrite !hex_digit_char by apply nibble_range. cbn [mbind option_bind].
  f_equal. rewrite <- (nibbles_value value Hv) at 9. lia.
Qed.

Lemma print_hex_digits_witness :
  u32 0xBEEF /\
  exists digits : string,
    String.length digits = 8%nat /\ read_hex digits = Some 0xBEEF /\
    print_hex 0xBEEF zeroed = print_string ("0x" ++ digits) zeroed.
Proof.
  assert (Hv : u32 0xBEEF) by (unfold u32; lia).
  split; [exact Hv|]. exact (print_hex_digits 0xBEEF zeroed Hv).
Defined.

(** *** System calls *)

Section Calls.

Variable text_at : Z -> string.

(** What no system call touches: the pids, the counter, the bitmap, the
    current process, and every slot but the current one. *)
Lemma handle_system_call_keeps call_number arg1 arg2 arg3 k :
  let k' := handle_system_call text_at call_number arg1 arg2 arg3 k in
  next_pid k' = next_pid k /\ memory_bitmap k' = memory_bitmap k /\
  current_process k' = current_process k /\
  (forall i, pid (proc_at k' i) = pid (proc_at k i)) /\
  (forall i, i <> current_process k -> proc_at k' i = proc_at k i) /\
  (well_formed k -> well_formed k').
Proof.
  intros k'. subst k'.
  assert (Hsame : forall k1 : kernel_state,
            memory_bitmap k1 = memory_bitmap k /\ next_pid k1 = next_pid k /\
            processes k1 = processes k /\ current_process k1 = current_process k ->
            next_pid k1 = next_pid k /\ memory_bitmap k1 = memory_bitmap k /\
            current_process k1 = current_process k /\
            (forall i, pid (proc_at k1 i) = pid (proc_at k i)) /\
            (forall i, i <> current_process k -> proc_at k1 i = proc_at k i) /\
            (well_formed k -> well_formed k1)).
  { intros k1 (Hb & Hn & Hp & Hc). unfold proc_at, well_formed. rewrite Hp, Hb.
    split; [exact Hn|]. split; [reflexivity|]. split; [exact Hc|].
    split; [reflexivity|]. split; [reflexivity|]. exact (fun H => H). }
  unfold handle_system_call.
  destruct (call_number =? SYS_WRITE); [apply Hsame, print_string_rest|].
  destruct (call_number =? SYS_READ); [apply Hsame; auto|].
  destruct (call_number =? SYS_EXIT).
  - split; [reflexivity|]. split; [reflexivity|]. split; [reflexivity|]. split; [|split].
    + intros i. rewrite proc_at_set_proc.
      destruct (Z.eqb_spec (current_process k) i) as [->|]; cbn [andb]; [|reflexivity].
      destruct (_ && _); reflexivity.
    + intros i Hi. rewrite proc_at_set_proc.
      destruct (Z.eqb_spec (current_process k) i); [congruence|reflexivity].
    + intros (Hlen & Hnames & Hbm). split; [|split].
      * unfold set_proc. cbn [processes set_processes]. rewrite length_aset. exact Hlen.
      * unfold set_proc. cbn [processes set_processes]. apply Forall_aset; [exact Hnames|].
        cbn [name]. unfold proc_at.
        destruct (aget (processes k) (current_process k)) as [p|] eqn:E; cbn [default].
        -- exact (Forall_aget _ _ _ _ Hnames E).
        -- reflexivity.
      * exact Hbm.
  - destruct (call_number =? SYS_FORK); [apply Hsame; auto|].
    destruct (call_number =? SYS_EXEC); [apply Hsame; auto|].
    apply Hsame.
    destruct (print_string_rest (String "010"%char EmptyString)
                (print_hex call_number (print_string "Unknown system call: " k)))
      as (-> & -> & -> & ->).
    destruct (print_hex_rest call_number (print_string "Unknown system call: " k))
      as (-> & -> & -> & ->).
    apply print_string_rest.
Qed.

Lemma handle_system_calls_keeps calls : forall k,
  let k' := handle_system_calls text_at calls k in
  next_pid k' = next_pid k /\ memory_bitmap k' = memory_bitmap k /\
  current_process k' = current_process k /\
  (forall i, pid (proc_at k' i) = pid (proc_at k i)).
Proof.
  unfold handle_system_calls.
  induction calls as [|[[[n a1] a2] a3] calls IH]; intros k; cbn [foldl]; [auto|].
  destruct (IH (handle_system_call text_at n a1 a2 a3 k)) as (-> & -> & -> & Hp).
  destruct (handle_system_call_keeps n a1 a2 a3 k) as (-> & -> & -> & Hq & _).
  repeat split; try reflexivity. intros i. rewrite Hp. apply Hq.
Qed.

(** X9.  No system call, whatever its number and its arguments, changes
    [next_pid], the page bitmap, [current_process], the pid of any slot, or
    any slot other than the current one; the shape of the tables is kept. *)
Theorem handle_system_call_frame (call_number arg1 arg2 arg3 : Z) (k : kernel_state) :
  well_formed k -> 0 <= current_process k < MAX_PROCESSES ->
  let k' := handle_system_call text_at call_number arg1 arg2 arg3 k in
  well_formed k' /\
  next_pid k' = next_pid k /\ memory_bitmap k' = memory_bitmap k /\
  current_process k' = current_process k /\
  (forall i, pid (proc_at k' i) = pid (proc_at k i)) /\
  (forall i, i <> current_process k -> proc_at k' i = proc_at k i).
Proof.
  intros Hwf _ k'. subst k'.
  destruct (handle_system_call_keeps call_number arg1 arg2 arg3 k)
    as (Hn & Hb & Hc & Hp & Ho & Hw).
  split; [exact (Hw Hwf)|]. repeat split; assumption.
Qed.

(** X10.  Once every slot of the process table holds a pid other than 0,
    [create_process] fails for good: after any sequence of system calls,
    [SYS_EXIT] included, it still returns -1 and changes nothing, since no
    system call gives a slot back. *)
Theorem create_process_fails_forever (calls : list (Z * Z * Z * Z)) (nm : string)
    (entry_point : Z) (k : kernel_state) :
  (forall i, 0 <= i < MAX_PROCESSES -> pid (proc_at k i) <> 0) ->
  let k' := handle_system_calls text_at calls k in
  create_process nm entry_point k' = (k', -1).
Proof.
  intros Hfull k'. subst k'. unfold create_process. apply find_slot_full.
  intros i Hi. destruct (handle_system_calls_keeps calls k) as (_ & _ & _ & ->).
  apply Hfull. unfold MAX_PROCESSES in *. lia.
Qed.

End Calls.

Lemma handle_system_call_frame_witness :
  let k := fst (kernel_main_start zeroed) in
  well_formed k /\ 0 <= current_process k < MAX_PROCESSES /\
  next_pid (handle_system_call (fun _ => "ps"%string) SYS_FORK 0 0 0 k) = next_pid k.
Proof.
  intros k.
  assert (Hwf : well_formed k)
    by (split; [reflexivity|split; [vm_compute; repeat constructor|reflexivity]]).
  assert (Hc : 0 <= current_process k < MAX_PROCESSES)
    by (vm_compute; split; [discriminate|reflexivity]).
  split; [exact Hwf|]. split; [exact Hc|].
  exact (proj1 (proj2 (handle_system_call_frame (fun _ => "ps"%string) SYS_FORK 0 0 0 k
                         Hwf Hc))).
Defined.

Lemma create_process_fails_forever_witness :
  let k := set_processes zeroed
             (replicate (Z.to_nat MAX_PROCESSES) (mk_process 7 1 0 0 (replicate 32 zero))) in
  (forall i, 0 <= i < MAX_PROCESSES -> pid (proc_at k i) <> 0) /\
  snd (create_process "sh" 0x2000
         (handle_system_calls (fun _ => "ps"%string) [(SYS_EXIT, 0, 0, 0)] k)) = -1.
Proof.
  intros k.
  assert (Hfull : forall i, 0 <= i < MAX_PROCESSES -> pid (proc_at k i) <> 0).
  { intros i Hi. unfold proc_at. subst k. cbn [processes set_processes].
    rewrite aget_replicate by exact Hi. cbn [default pid]. discriminate. }
  split; [exact Hfull|].
  rewrite (create_process_fails_forever (fun _ => "ps"%string) [(SYS_EXIT, 0, 0, 0)]
             "sh" 0x2000 k Hfull).
  reflexivity.
Defined.

(** *** The scheduling loop *)

Lemma kernel_main_turn_next k :
  0 <= current_process k ->
  kernel_main_turn k
  = set_current_process k ((current_process k + 1) mod MAX_PROCESSES).
Proof.
  intros Hc. unfold kernel_main_turn, schedule, switch_context.
  set (c := (current_process k + 1) mod MAX_PROCESSES).
  assert (Hr : 0 <= c < MAX_PROCESSES) by (apply Z.mod_pos_bound; reflexivity).
  cbn [current_process set_current_process].
  destruct (state (proc_at (set_current_process k c) c) =? 1); [|reflexivity].
  destruct (Z.geb_spec c 0); [|lia].
  destruct (Z.ltb_spec c MAX_PROCESSES); [|lia].
  reflexivity.
Qed.

(** X11.  The scheduling loop of [kernel_main] is a plain round robin over
    the ten slots: after [n] turns [current_process] is the start slot plus
    [n] modulo 10, whatever the states of the processes, and nothing else of
    the kernel state has changed. *)
Theorem kernel_main_turns (n : nat) (k : kernel_state) :
  0 <= current_process k < MAX_PROCESSES ->
  Nat.iter n kernel_main_turn k
  = set_current_process k ((current_process k + Z.of_nat n) mod MAX_PROCESSES).
Proof.
  intros Hc. induction n as [|n IH].
  - change (Nat.iter 0 kernel_main_turn k) with k.
    change (Z.of_nat 0) with 0. rewrite Z.add_0_r, Z.mod_small by exact Hc.
    destruct k; reflexivity.
  - rewrite Nat.iter_succ, IH, kernel_main_turn_next.
    + cbn [current_process set_current_process]. unfold set_current_process at 1.
      cbn [current_row current_col video_memory memory_bitmap next_pid processes
           set_current_process].
      unfold set_current_process. f_equal.
      rewrite Z.add_mod_idemp_l by (unfold MAX_PROCESSES; lia). f_equal. lia.
    + cbn [current_process set_current_process]. apply Z.mod_pos_bound. reflexivity.
Qed.

Lemma kernel_main_turns_witness :
  let k := fst (kernel_main_start zeroed) in
  0 <= current_process k < MAX_PROCESSES /\
  current_process (Nat.iter 13 kernel_main_turn k) = 3.
Proof.
  intros k.
  assert (Hc : 0 <= current_process k < MAX_PROCESSES)
    by (vm_compute; split; [discriminate|reflexivity]).
  split; [exact Hc|]. rewrite (kernel_main_turns 13 k Hc). reflexivity.
Defined.

(** *** The table after [init_processes] *)

Lemma init_processes_slots (n : nat) : forall k,
  Z.of_nat n <= Z.of_nat (length (processes k)) ->
  let k' := foldl (fun k i =>
                     let p := proc_at k (Z.of_nat i) in
                     set_proc k (Z.of_nat i) (mk_process 0 0 0 0 (aset (name p) 0 zero)))
              k (seq 0 n) in
  length (processes k') = length (processes k) /\
  memory_bitmap k' = memory_bitmap k /\ next_pid k' = next_pid k /\
  current_process k' = current_process k /\
  current_row k' = current_row k /\ current_col k' = current_col k /\
  video_memory k' = video_memory k /\
  forall i, proc_at k' i
            = if (0 <=? i) && (i <? Z.of_nat n)
              then mk_process 0 0 0 0 (aset (name (proc_at k i)) 0 zero)
              else proc_at k i.
Proof.
  induction n as [|n IH]; intros k Hn k'; subst k'.
  - cbn [seq foldl]. repeat split. intros i.
    destruct (Z.leb_spec 0 i), (Z.ltb_spec i (Z.of_nat 0)); cbn [andb]; try reflexivity; lia.
  - rewrite seq_S, foldl_app. cbn [foldl Nat.add].
    destruct (IH k) as (Hl & Hb & Hp & Hc & Hr & Hco & Hv & Hat); [lia|].
    set (k1 := foldl _ k (seq 0 n)) in *.
    unfold set_proc at 1 2 3 4 5 6 7.
    cbn [processes memory_bitmap next_pid current_process current_row current_col
         video_memory set_processes].
    rewrite length_aset.
    split; [exact Hl|]. split; [exact Hb|]. split; [exact Hp|]. split; [exact Hc|].
    split; [exact Hr|]. split; [exact Hco|]. split; [exact Hv|].
    intros i. rewrite proc_at_set_proc, Hl, !Hat.
    destruct (Z.eqb_spec (Z.of_nat n) i) as [<-|Hne];
      repeat match goal with
        | |- context [?a <=? ?b] => destruct (Z.leb_spec a b)
        | |- context [?a <? ?b] => destruct (Z.ltb_spec a b)
        end; cbn [andb]; try reflexivity; lia.
Qed.

(** X12.  [init_processes] clears pid, state and both pointers of every
    slot and puts a NUL at the head of its name, but restarts neither
    [next_pid] nor the page bitmap: the next [create_process] fills slot 0
    and returns the pid the counter had reached. *)
Theorem init_processes_then_create_process (nm : string) (entry_point : Z)
    (k : kernel_state) :
  well_formed k ->
  let k0 := init_processes k in
  (forall i, 0 <= i < MAX_PROCESSES ->
     proc_at k0 i = mk_process 0 0 0 0 (aset (name (proc_at k i)) 0 zero)) /\
  next_pid k0 = next_pid k /\ memory_bitmap k0 = memory_bitmap k /\
  snd (create_process nm entry_point k0) = next_pid k /\
  pid (proc_at (fst (create_process nm entry_point k0)) 0) = next_pid k.
Proof.
  intros (Hlen & Hnames & Hbm) k0. subst k0. unfold init_processes.
  destruct (init_processes_slots (Z.to_nat MAX_PROCESSES) k)
    as (Hl & Hb & Hp & _ & _ & _ & _ & Hat).
  { rewrite Hlen. unfold MAX_PROCESSES. lia. }
  set (k0 := foldl _ k (seq 0 (Z.to_nat MAX_PROCESSES))) in *.
  assert (Hslots : forall i, 0 <= i < MAX_PROCESSES ->
            proc_at k0 i = mk_process 0 0 0 0 (aset (name (proc_at k i)) 0 zero)).
  { intros i Hi. rewrite Hat. unfold MAX_PROCESSES in *.
    destruct (Z.leb_spec 0 i), (Z.ltb_spec i (Z.of_nat (Z.to_nat 10)));
      cbn [andb]; try reflexivity; lia. }
  split; [exact Hslots|]. split; [exact Hp|]. split; [exact Hb|].
  assert (E : create_process nm entry_point k0 = fill_slot nm entry_point 0 k0).
  { unfold create_process. apply find_slot_first.
    - unfold MAX_PROCESSES. lia.
    - rewrite Hslots by (unfold MAX_PROCESSES; lia). reflexivity.
    - intros; lia. }
  rewrite E, fill_slot_eq. cbn [fst snd]. split; [exact Hp|].
  rewrite proc_at_set_proc. cbn [processes set_memory_bitmap set_next_pid].
  rewrite Hl, Hlen. cbn [pid]. exact Hp.
Qed.

Lemma init_processes_then_create_process_witness :
  let k := fst (kernel_main_start zeroed) in
  well_formed k /\
  next_pid (init_processes k) = 2 /\
  snd (create_process "init" 0x3000 (init_processes k)) = 2.
Proof.
  intros k.
  assert (Hwf : well_formed k)
    by (split; [reflexivity|split; [vm_compute; repeat constructor|reflexivity]]).
  split; [exact Hwf|].
  destruct (init_processes_then_create_process "init" 0x3000 k Hwf)
    as (_ & Hn & _ & Hr & _).
  split; [exact Hn|exact Hr].
Defined.

End CallsAndScheduling.

(** ** The file system: lookups and listings *)

Section Lookup.

Import FS.

(** A walk that ends within its allowance ends the same way within a
    larger one. *)
Lemma files_from_more fs : forall fuel fuel' p l,
  files_from fuel fs p = Some l -> (fuel <= fuel')%nat -> files_from fuel' fs p = Some l.
Proof.
  induction fuel as [|fuel IH]; intros fuel' p l E Hle; [discriminate|].
  destruct fuel' as [|fuel']; [lia|]. cbn [files_from] in *.
  destruct (negb (p =? 0)); [|exact E].
  destruct (files_from fuel fs (f_next_file (file_at fs p))) as [rest|] eqn:Er;
    [|discriminate].
  rewrite (IH fuel' _ rest Er) by lia. exact E.
Qed.

Lemma dirs_from_more fs : forall fuel fuel' p l,
  dirs_from fuel fs p = Some l -> (fuel <= fuel')%nat -> dirs_from fuel' fs p = Some l.
Proof.
  induction fuel as [|fuel IH]; intros fuel' p l E Hle; [discriminate|].
  destruct fuel' as [|fuel']; [lia|]. cbn [dirs_from] in *.
  destruct (negb (p =? 0)); [|exact E].
  destruct (dirs_from fuel fs (d_next_dir (dir_at fs p))) as [rest|] eqn:Er;
    [|discriminate].
  rewrite (IH fuel' _ rest Er) by lia. exact E.
Qed.

(** The two lookups walk the chains [list_directory] walks and stop at the
    first name that matches. *)
Lemma find_file_from_listed fs nm : forall fuel p l,
  files_from fuel fs p = Some l ->
  find_file_from fuel fs nm p
  = Some (default NOT_FOUND
            (List.find (fun i => String.eqb (f_name (file_at fs i)) nm) l)).
Proof.
  induction fuel as [|fuel IH]; intros p l E; [discriminate|].
  cbn [files_from find_file_from] in *.
  destruct (negb (p =? 0)).
  - destruct (files_from fuel fs (f_next_file (file_at fs p))) as [rest|] eqn:Er;
      [|discriminate].
    cbn [mbind option_bind] in E. injection E as <-. cbn [List.find].
    destruct (String.eqb (f_name (file_at fs p)) nm); [reflexivity|].
    apply IH. exact Er.
  - injection E as <-. reflexivity.
Qed.

Lemma find_directory_from_listed fs nm : forall fuel p l,
  dirs_from fuel fs p = Some l ->
  find_directory_from fuel fs nm p
  = Some (default NOT_FOUND
            (List.find (fun i => String.eqb (d_name (dir_at fs i)) nm) l)).
Proof.
  induction fuel as [|fuel IH]; intros p l E; [discriminate|].
  cbn [dirs_from find_directory_from] in *.
  destruct (negb (p =? 0)).
  - destruct (dirs_from fuel fs (d_next_dir (dir_at fs p))) as [rest|] eqn:Er;
      [|discriminate].
    cbn [mbind option_bind] in E. injection E as <-. cbn [List.find].
    destruct (String.eqb (d_name (dir_at fs p)) nm); [reflexivity|].
    apply IH. exact Er.
  - injection E as <-. reflexivity.
Qed.

Lemma list_directory_walks fuel dir_id fs files subdirs :
  dir_id < next_dir_id fs ->
  list_directory fuel dir_id fs = Some (files, subdirs) ->
  files_from fuel fs (d_first_file (dir_at fs dir_id)) = Some files /\
  dirs_from fuel fs (d_next_dir (dir_at fs dir_id)) = Some subdirs.
Proof.
  intros Hd E. unfold list_directory in E.
  destruct (Z.geb_spec dir_id (next_dir_id fs)); [lia|].
  destruct (files_from fuel fs _) as [fl|]; [|discriminate].
  destruct (dirs_from fuel fs _) as [dl|]; [|discriminate].
  cbn [mbind option_bind] in E. injection E as -> ->. split; reflexivity.
Qed.

(** X13.  [find_file] and [find_directory] return the first entry, in the
    order [list_directory] walks the two chains of the directory, whose
    stored name equals the name asked for, and [0xFFFFFFFF] when no entry
    of the chain has that name. *)
Theorem find_file_first_listed (fuel : nat) (nm : string) (dir_id : Z) (fs : filesystem)
    (files subdirs : list Z) :
  dir_id < next_dir_id fs ->
  list_directory fuel dir_id fs = Some (files, subdirs) ->
  find_file fuel nm dir_id fs
  = Some (default NOT_FOUND
            (List.find (fun i => String.eqb (f_name (file_at fs i)) nm) files)) /\
  find_directory fuel nm dir_id fs
  = Some (default NOT_FOUND
            (List.find (fun i => String.eqb (d_name (dir_at fs i)) nm) subdirs)).
Proof.
  intros Hd E. destruct (list_directory_walks fuel dir_id fs files subdirs Hd E) as [Ef Ed].
  split.
  - apply find_file_from_listed. exact Ef.
  - apply find_directory_from_listed. exact Ed.
Qed.

Lemma find_file_first_listed_witness :
  exists fs,
    0 < next_dir_id fs /\
    list_directory 3 0 fs = Some ([1; 2], []) /\
    find_file 3 "init.bin" 0 fs
    = Some (default NOT_FOUND
              (List.find (fun i => String.eqb (f_name (file_at fs i)) "init.bin") [1; 2])).
Proof.
  assert (F : (fs ← init_filesystem 3;
               listing ← list_directory 3 0 fs;
               Some (next_dir_id fs, listing)) = Some (1, ([1; 2], [])))
    by (vm_compute; reflexivity).
  destruct (init_filesystem 3) as [fs|] eqn:E; [|discriminate].
  cbn [mbind option_bind] in F.
  destruct (list_directory 3 0 fs) as [listing|] eqn:El; [|discriminate].
  cbn [mbind option_bind] in F. injection F as Hn ->.
  assert (Hd : 0 < next_dir_id fs) by (rewrite Hn; lia).
  exists fs. split; [exact Hd|]. split; [exact El|].
  exact (proj1 (find_file_first_listed 3 "init.bin" 0 fs [1; 2] [] Hd El)).
Defined.

End Lookup.

(** ** The file system: creating a file *)

Section CreateFile.

Import FS.

Lemma find_app_one {A} (f : A -> bool) (l : list A) (x : A) :
  List.find f (l ++ [x])
  = match List.find f l with
    | Some r => Some r
    | None => if f x then Some x else None
    end.
Proof.
  induction l as [|y l IH]; cbn [List.find app]; [reflexivity|].
  destruct (f y); [reflexivity|exact IH].
Qed.

Lemma find_ext_in {A} (f g : A -> bool) (l : list A) :
  Forall (fun x => f x = g x) l -> List.find f l = List.find g l.
Proof.
  induction 1 as [|x l Hx _ IH]; cbn [List.find]; [reflexivity|].
  rewrite Hx, IH. reflexivity.
Qed.

(** The files a walk visits are files in use, other than file 0. *)
Lemma files_from_range fs : shape fs -> forall fuel p l,
  0 <= p < next_file_id fs -> files_from fuel fs p = Some l ->
  Forall (fun x => 0 < x < next_file_id fs) l.
Proof.
  intros Hs. induction fuel as [|fuel IH]; intros p l Hp E; [discriminate|].
  cbn [files_from] in E. destruct (Z.eqb_spec p 0) as [->|Hne]; cbn [negb] in E.
  - injection E as <-. constructor.
  - destruct (files_from fuel fs (f_next_file (file_at fs p))) as [rest|] eqn:Er;
      [|discriminate].
    cbn [mbind option_bind] in E. injection E as <-. constructor; [lia|].
    apply (IH (f_next_file (file_at fs p))); [|exact Er].
    pose proof (files_ok _ Hs p) as (_ & _ & [?|?]); lia.
Qed.

(** A walk over links that all agree goes the same way. *)
Lemma dirs_from_ext fs fs' :
  (forall q, d_next_dir (dir_at fs' q) = d_next_dir (dir_at fs q)) ->
  forall fuel p, dirs_from fuel fs' p = dirs_from fuel fs p.
Proof.
  intros Hsame. induction fuel as [|fuel IH]; intros p; [reflexivity|].
  cbn [dirs_from]. rewrite Hsame, IH. reflexivity.
Qed.

Lemma files_from_ext fs fs' :
  (forall q, f_next_file (file_at fs' q) = f_next_file (file_at fs q)) ->
  forall fuel p, files_from fuel fs' p = files_from fuel fs p.
Proof.
  intros Hsame. induction fuel as [|fuel IH]; intros p; [reflexivity|].
  cbn [files_from]. rewrite Hsame, IH. reflexivity.
Qed.

Lemma last_file_below fs fs2 id :
  (forall q, 0 < q < id -> f_next_file (file_at fs2 q) = f_next_file (file_at fs q)) ->
  (forall q, f_next_file (file_at fs q) = 0 \/
             0 < q /\ q < f_next_file (file_at fs q) < id) ->
  forall fuel p, 0 < p < id -> last_file fuel fs2 p = last_file fuel fs p.
Proof.
  intros Hsame Hlinks. induction fuel as [|fuel IH]; intros p Hp; [reflexivity|].
  cbn [last_file]. rewrite Hsame by exact Hp.
  destruct (Z.eqb_spec (f_next_file (file_at fs p)) 0); cbn [negb]; [reflexivity|].
  apply IH. destruct (Hlinks p); lia.
Qed.

(** Hanging a new last element [id] on the chain that ends at [last]. *)
Lemma files_from_hang fs fs' id last :
  id <> 0 ->
  (forall q, f_next_file (file_at fs q) = 0 \/
             0 < q /\ q < f_next_file (file_at fs q) < id) ->
  (forall q, q <> id -> q <> last ->
             f_next_file (file_at fs' q) = f_next_file (file_at fs q)) ->
  f_next_file (file_at fs' last) = id ->
  f_next_file (file_at fs' id) = 0 ->
  forall fuel fuel0 p l,
    0 < p < id -> files_from fuel fs p = Some l -> last_file fuel0 fs p = Some last ->
    files_from (S fuel) fs' p = Some (l ++ [id]).
Proof.
  intros Hid Hlinks Hsame Hlast Hnew.
  induction fuel as [|fuel IH]; intros fuel0 p l Hp E El; [discriminate|].
  destruct fuel0 as [|fuel0]; [discriminate|].
  cbn [files_from] in E. cbn [last_file] in El.
  destruct (Z.eqb_spec p 0) as [|Hp0]; [lia|]. cbn [negb] in E.
  destruct (files_from fuel fs (f_next_file (file_at fs p))) as [rest|] eqn:Er;
    [|discriminate].
  cbn [mbind option_bind] in E. injection E as <-.
  destruct (Z.eqb_spec (f_next_file (file_at fs p)) 0) as [E0|Hn0]; cbn [negb] in El.
  - injection El as <-. rewrite E0 in Er.
    destruct fuel as [|fuel]; [discriminate|]. cbn [files_from] in Er.
    rewrite Z.eqb_refl in Er. cbn [negb] in Er. injection Er as <-.
    cbn [files_from app]. destruct (Z.eqb_spec p 0); [lia|]. cbn [negb].
    rewrite Hlast. destruct (Z.eqb_spec id 0); [lia|]. cbn [negb].
    rewrite Hnew, Z.eqb_refl. cbn [negb mbind option_bind]. reflexivity.
  - assert (Hnext : p < f_next_file (file_at fs p) < id) by (destruct (Hlinks p); lia).
    assert (Hl : p < last).
    { apply (last_file_keeps (fun x => p < x) fs) with (3 := El); [|lia].
      intros q Hq Hq0. destruct (Hlinks q); lia. }
    change (files_from (S (S fuel)) fs' p)
      with (if negb (p =? 0)
            then rest ← files_from (S fuel) fs' (f_next_file (file_at fs' p));
                 Some (p :: rest)
            else Some []).
    destruct (Z.eqb_spec p 0); [lia|]. cbn [negb].
    rewrite Hsame by lia.
    rewrite (IH fuel0 _ rest) by (try lia; assumption).
    reflexivity.
Qed.

(** What [create_file] does to the state when a slot is left and the new
    file is not file 0. *)
Lemma create_file_effect fuel fuel' nm type permissions fs fs' r files subdirs :
  invariant fs -> 0 < next_file_id fs < MAX_FILES ->
  create_file fuel nm type permissions fs = Some (fs', r) ->
  list_directory fuel' (current_directory fs) fs = Some (files, subdirs) ->
  r = next_file_id fs /\
  next_file_id fs' = r + 1 /\
  next_dir_id fs' = next_dir_id fs /\
  current_directory fs' = current_directory fs /\
  file_at fs' r
  = mk_file (strncpy_name nm) 0 type permissions (r * MAX_FILE_SIZE)
      (current_directory fs) 0 /\
  (forall q, q <> r -> f_name (file_at fs' q) = f_name (file_at fs q)) /\
  files_from (S fuel') fs' (d_first_file (dir_at fs' (current_directory fs)))
  = Some (files ++ [r]) /\
  dirs_from fuel' fs' (d_next_dir (dir_at fs' (current_directory fs))) = Some subdirs /\
  Forall (fun x => 0 < x < r) files.
Proof.
  intros [Hs Ho] Hid Ec El.
  pose proof (current_range _ Hs) as Hc. pose proof (files_len _ Hs) as Hfl.
  pose proof (dirs_len _ Hs) as Hdl. pose proof (next_dir_range _ Hs) as Hnd.
  destruct (list_directory_walks fuel' (current_directory fs) fs files subdirs
              ltac:(lia) El) as [Ef Ed].
  assert (Hlinks : forall q, f_next_file (file_at fs q) = 0 \/
                     0 < q /\ q < f_next_file (file_at fs q) < next_file_id fs).
  { intros q. pose proof (files_ok _ Hs q) as (_ & _ & H). exact H. }
  pose proof (dirs_ok _ Hs (current_directory fs)) as (_ & _ & _ & Hfirst).
  assert (Hrange : Forall (fun x => 0 < x < next_file_id fs) files).
  { apply (files_from_range fs Hs fuel' (d_first_file (dir_at fs (current_directory fs)))
             files); [lia|exact Ef]. }
  revert Ec. unfold create_file.
  destruct (Z.geb_spec (next_file_id fs) MAX_FILES) as [|Hlt]; [lia|].
  set (id := next_file_id fs) in *.
  rewrite (wrap32_small (id + 1)) by (unfold MAX_FILES in *; lia).
  set (e := mk_file _ _ _ _ _ _ _).
  set (fs1 := set_file (set_next_file_id fs _) _ e).
  assert (He : e = mk_file (strncpy_name nm) 0 type permissions (id * MAX_FILE_SIZE)
                     (current_directory fs) 0).
  { subst e. cbn [data_offset current_directory set_next_file_id]. rewrite Ho. reflexivity. }
  assert (Hold : forall q, q <> id -> file_at fs1 q = file_at fs q).
  { intros q Hq. subst fs1. rewrite file_at_set_file.
    destruct (Z.eqb_spec id q); [congruence|reflexivity]. }
  assert (Hnew : file_at fs1 id = e).
  { subst fs1. rewrite file_at_set_file. cbn [file_table set_next_file_id].
    destruct (Z.eqb_spec id id); [|lia]. destruct (Z.leb_spec 0 id); [|lia].
    destruct (Z.ltb_spec id (Z.of_nat (length (file_table fs)))); [|lia].
    reflexivity. }
  change (current_directory fs1) with (current_directory fs).
  change (dir_at fs1 (current_directory fs)) with (dir_at fs (current_directory fs)).
  destruct (Z.eqb_spec (d_first_file (dir_at fs (current_directory fs))) 0) as [E0|Hne].
  - cbn [mbind option_bind]. set (fs2 := set_dir fs1 _ _). intros [= Efs <-].
    assert (Hfa : forall q, file_at fs' q = file_at fs1 q) by (subst fs'; reflexivity).
    assert (Hda : forall q, dir_at fs' q = dir_at fs2 q) by (subst fs'; reflexivity).
    assert (Hd2 : forall q, dir_at fs2 q
                    = if q =? current_directory fs
                      then with_first_file (dir_at fs (current_directory fs)) id
                      else dir_at fs q).
    { intros q. subst fs2. rewrite dir_at_set_dir.
      change (directory_table fs1) with (directory_table fs).
      change (dir_at fs1 q) with (dir_at fs q).
      destruct (Z.eqb_spec (current_directory fs) q) as [<-|Hq].
      - destruct (Z.leb_spec 0 (current_directory fs)); [|lia].
        destruct (Z.ltb_spec (current_directory fs)
                    (Z.of_nat (length (directory_table fs)))); [|lia].
        rewrite Z.eqb_refl. reflexivity.
      - destruct (Z.eqb_spec q (current_directory fs)); [congruence|reflexivity]. }
    split; [reflexivity|]. split; [subst fs'; reflexivity|].
    split; [subst fs'; reflexivity|]. split; [subst fs'; reflexivity|].
    split; [rewrite Hfa, Hnew; exact He|].
    split; [intros q Hq; rewrite Hfa, Hold by exact Hq; reflexivity|].
    rewrite Hda, Hd2, Z.eqb_refl. cbn [d_first_file d_next_dir with_first_file].
    rewrite E0 in Ef. destruct fuel' as [|fuel']; [discriminate|].
    cbn [files_from] in Ef. rewrite Z.eqb_refl in Ef. cbn [negb] in Ef.
    injection Ef as <-.
    split; [|split; [|constructor]].
    + cbn [files_from app]. destruct (Z.eqb_spec id 0); [lia|]. cbn [negb].
      rewrite Hfa, Hnew, He. cbn [f_next_file]. rewrite Z.eqb_refl.
      cbn [negb mbind option_bind]. reflexivity.
    + rewrite <- Ed. apply dirs_from_ext. intros q. rewrite Hda, Hd2.
      destruct (q =? current_directory fs) eqn:Eq; [|reflexivity].
      apply Z.eqb_eq in Eq. subst q. reflexivity.
  - assert (Hf0 : 0 < d_first_file (dir_at fs (current_directory fs)) < id) by lia.
    destruct (last_file fuel fs1 _) as [last|] eqn:Elast; cbn [mbind option_bind];
      [|discriminate].
    set (fs2 := set_file fs1 last _). intros [= Efs <-].
    assert (Hfa : forall q, file_at fs' q = file_at fs2 q) by (subst fs'; reflexivity).
    assert (Hda : forall q, dir_at fs' q = dir_at fs q) by (subst fs'; reflexivity).
    rewrite (last_file_below fs fs1 id) in Elast;
      [|intros q Hq; rewrite Hold by lia; reflexivity|exact Hlinks|exact Hf0].
    assert (Hlast : 0 < last < id).
    { apply (last_file_keeps (fun x => 0 < x < id) fs) with (3 := Elast); [|lia].
      intros q Hq Hq0. destruct (Hlinks q); lia. }
    assert (Hat : forall q, file_at fs2 q
                    = if q =? last then with_next_file (file_at fs last) id
                      else file_at fs1 q).
    { intros q. subst fs2. rewrite file_at_set_file.
      change (length (file_table fs1)) with (length (aset (file_table fs) id e)).
      rewrite length_aset. rewrite (Hold last) by lia.
      destruct (Z.eqb_spec last q) as [<-|Hq].
      - destruct (Z.leb_spec 0 last); [|lia].
        destruct (Z.ltb_spec last (Z.of_nat (length (file_table fs)))); [|lia].
        rewrite Z.eqb_refl. reflexivity.
      - destruct (Z.eqb_spec q last); [congruence|reflexivity]. }
    split; [reflexivity|]. split; [subst fs'; reflexivity|].
    split; [subst fs'; reflexivity|]. split; [subst fs'; reflexivity|].
    rewrite !Hda.
    split; [|split; [|split; [|split; [|exact Hrange]]]].
    + rewrite Hfa, Hat. destruct (Z.eqb_spec id last); [lia|]. rewrite Hnew. exact He.
    + intros q Hq. rewrite Hfa, Hat. destruct (Z.eqb_spec q last) as [->|].
      * reflexivity.
      * rewrite Hold by exact Hq. reflexivity.
    + apply (files_from_hang fs fs' id last) with (fuel0 := fuel);
        [lia|exact Hlinks| | | |exact Hf0|exact Ef|exact Elast].
      * intros q Hq Hql. rewrite Hfa, Hat. destruct (Z.eqb_spec q last); [congruence|].
        rewrite Hold by exact Hq. reflexivity.
      * rewrite Hfa, Hat, Z.eqb_refl. reflexivity.
      * rewrite Hfa, Hat. destruct (Z.eqb_spec id last); [lia|]. rewrite Hnew, He.
        reflexivity.
    + rewrite <- Ed. apply dirs_from_ext. intros q. rewrite Hda. reflexivity.
Qed.

(** X14.  [create_file] with a slot left, for a file other than file 0,
    its loop allowed [MAX_FILES] turns: it returns [next_file_id] and counts
    it up, the new entry holds the first 31 characters of the name, size 0,
    the type and permissions given, the partition [id * 4096] and the
    current directory as parent, and the files [list_directory] walks in the
    current directory are those it walked before followed by the new file. *)
Theorem create_file_appends (fuel fuel' : nat) (nm : string) (type permissions : Z)
    (fs : filesystem) (files subdirs : list Z) :
  invariant fs -> 0 < next_file_id fs < MAX_FILES ->
  (Z.to_nat MAX_FILES <= fuel)%nat ->
  list_directory fuel' (current_directory fs) fs = Some (files, subdirs) ->
  exists fs',
    create_file fuel nm type permissions fs = Some (fs', next_file_id fs) /\
    next_file_id fs' = next_file_id fs + 1 /\
    file_at fs' (next_file_id fs)
    = mk_file (strncpy_name nm) 0 type permissions (next_file_id fs * MAX_FILE_SIZE)
        (current_directory fs) 0 /\
    list_directory (S fuel') (current_directory fs) fs'
    = Some (files ++ [next_file_id fs], subdirs).
Proof.
  intros Hinv Hid Hfuel El.
  destruct (create_file_total fuel nm type permissions fs Hinv Hfuel) as (fs' & r & Ec).
  destruct (create_file_effect fuel fuel' nm type permissions fs fs' r files subdirs
              Hinv Hid Ec El) as (Hr & Hn & Hnd & Hcur & He & _ & Hf & Hd & _).
  subst r. exists fs'.
  split; [exact Ec|]. split; [exact Hn|]. split; [exact He|].
  unfold list_directory. rewrite Hnd.
  destruct Hinv as [Hs _]. pose proof (current_range _ Hs) as Hc.
  destruct (Z.geb_spec (current_directory fs) (next_dir_id fs)); [lia|].
  rewrite Hf. rewrite (dirs_from_more fs' fuel' (S fuel') _ subdirs Hd) by lia.
  reflexivity.
Qed.

Lemma create_file_appends_witness :
  exists fs,
    invariant fs /\ 0 < next_file_id fs < MAX_FILES /\
    list_directory 3 (current_directory fs) fs = Some ([1; 2], []) /\
    exists fs',
      create_file 100 "notes" FILE_TYPE_REGULAR PERM_READ fs = Some (fs', 3) /\
      list_directory 4 (current_directory fs) fs' = Some ([1; 2] ++ [3], []).
Proof.
  assert (F : (fs ← init_filesystem 3;
               listing ← list_directory 3 (current_directory fs) fs;
               Some (next_file_id fs, listing)) = Some (3, ([1; 2], [])))
    by (vm_compute; reflexivity).
  destruct (init_filesystem 3) as [fs|] eqn:E; [|discriminate].
  cbn [mbind option_bind] in F.
  destruct (list_directory 3 (current_directory fs) fs) as [listing|] eqn:El; [|discriminate].
  cbn [mbind option_bind] in F. injection F as Hn ->.
  assert (Hinv : invariant fs) by (eapply init_filesystem_invariant; exact E).
  assert (Hid : 0 < next_file_id fs < MAX_FILES) by (rewrite Hn; unfold MAX_FILES; lia).
  assert (Hfuel : (Z.to_nat MAX_FILES <= 100)%nat) by (vm_compute; reflexivity).
  exists fs. split; [exact Hinv|]. split; [exact Hid|]. split; [exact El|].
  destruct (create_file_appends 100 3 "notes" FILE_TYPE_REGULAR PERM_READ fs [1; 2] []
              Hinv Hid Hfuel El) as (fs' & Ec & _ & _ & Hl).
  rewrite Hn in Ec, Hl. exists fs'. split; [exact Ec|exact Hl].
Defined.

(** X15.  [find_file] after [create_file], in the directory the file was
    created in: a name that an earlier file of the directory bears still
    finds that earlier file (the new one is shadowed); any other name finds
    the new file exactly when it equals the first 31 characters of the name
    the file was created with, and nothing otherwise. *)
Theorem create_file_then_find_file (fuel fuel' : nat) (nm nm' : string)
    (type permissions : Z) (fs fs' : filesystem) (r : Z) (files subdirs : list Z) :
  invariant fs -> 0 < next_file_id fs < MAX_FILES ->
  create_file fuel nm type permissions fs = Some (fs', r) ->
  list_directory fuel' (current_directory fs) fs = Some (files, subdirs) ->
  find_file (S fuel') nm' (current_directory fs) fs'
  = Some (match List.find (fun i => String.eqb (f_name (file_at fs i)) nm') files with
          | Some earlier => earlier
          | None => if String.eqb (strncpy_name nm) nm' then r else NOT_FOUND
          end).
Proof.
  intros Hinv Hid Ec El.
  destruct (create_file_effect fuel fuel' nm type permissions fs fs' r files subdirs
              Hinv Hid Ec El) as (Hr & _ & _ & _ & He & Hnames & Hf & _ & Hrange).
  unfold find_file. rewrite (find_file_from_listed fs' nm' _ _ _ Hf), find_app_one.
  rewrite (find_ext_in _ (fun i => String.eqb (f_name (file_at fs i)) nm') files).
  - destruct (List.find _ files); [reflexivity|].
    rewrite He. cbn [f_name]. destruct (String.eqb (strncpy_name nm) nm'); reflexivity.
  - eapply Forall_impl; [exact Hrange|]. intros x Hx. cbn beta in *.
    rewrite Hnames by lia. reflexivity.
Qed.

Lemma create_file_then_find_file_witness :
  exists fs fs',
    invariant fs /\ 0 < next_file_id fs < MAX_FILES /\
    create_file 3 "shell.bin" FILE_TYPE_REGULAR PERM_READ fs = Some (fs', 3) /\
    list_directory 3 (current_directory fs) fs = Some ([1; 2], []) /\
    find_file 4 "shell.bin" (current_directory fs) fs' = Some 1.
Proof.
  assert (F : (fs ← init_filesystem 3;
               '(fs', r) ← create_file 3 "shell.bin" FILE_TYPE_REGULAR PERM_READ fs;
               listing ← list_directory 3 (current_directory fs) fs;
               Some (next_file_id fs, r, listing, f_name (file_at fs 1)))
              = Some (3, 3, ([1; 2], []), "shell.bin"%string))
    by (vm_compute; reflexivity).
  destruct (init_filesystem 3) as [fs|] eqn:E; [|discriminate].
  cbn [mbind option_bind] in F.
  destruct (create_file 3 "shell.bin" _ _ fs) as [[fs' r]|] eqn:Ec; [|discriminate].
  cbn [mbind option_bind] in F.
  destruct (list_directory 3 (current_directory fs) fs) as [listing|] eqn:El; [|discriminate].
  cbn [mbind option_bind] in F. injection F as Hn -> -> Hname.
  assert (Hinv : invariant fs) by (eapply init_filesystem_invariant; exact E).
  assert (Hid : 0 < next_file_id fs < MAX_FILES) by (rewrite Hn; unfold MAX_FILES; lia).
  exists fs, fs'. split; [exact Hinv|]. split; [exact Hid|]. split; [exact Ec|].
  split; [exact El|].
  rewrite (create_file_then_find_file 3 3 "shell.bin" "shell.bin" FILE_TYPE_REGULAR PERM_READ
             fs fs' 3 [1; 2] [] Hinv Hid Ec El).
  cbn [List.find]. rewrite Hname. reflexivity.
Defined.

End CreateFile.

(** ** The file system: the entries of the file table *)

Section FileEntries.

Import FS.

(** How each call changes the entries of [file_table]. *)
Lemma create_file_entries fuel nm type permissions fs fs' r :
  invariant fs ->
  create_file fuel nm type permissions fs = Some (fs', r) ->
  forall i,
    file_at fs' i = file_at fs i \/
    (exists v, file_at fs' i = with_next_file (file_at fs i) v) \/
    (0 <= i < MAX_FILES /\
     file_at fs' i = mk_file (strncpy_name nm) 0 type permissions (i * MAX_FILE_SIZE)
                       (current_directory fs) 0).
Proof.
  intros [Hs Ho]. unfold create_file.
  destruct (Z.geb_spec (next_file_id fs) MAX_FILES) as [|Hlt];
    [intros [= <- _] i; left; reflexivity|].
  pose proof (next_file_range _ Hs) as Hnf. pose proof (files_len _ Hs) as Hfl.
  set (id := next_file_id fs) in *.
  set (e := mk_file _ _ _ _ _ _ _).
  set (fs1 := set_file (set_next_file_id fs _) _ e).
  assert (He : e = mk_file (strncpy_name nm) 0 type permissions (id * MAX_FILE_SIZE)
                     (current_directory fs) 0).
  { subst e. cbn [data_offset current_directory set_next_file_id]. rewrite Ho. reflexivity. }
  assert (H1 : forall q, file_at fs1 q = if q =? id then e else file_at fs q).
  { intros q. subst fs1. rewrite file_at_set_file. cbn [file_table set_next_file_id].
    destruct (Z.eqb_spec id q) as [<-|Hq].
    - destruct (Z.leb_spec 0 id); [|lia].
      destruct (Z.ltb_spec id (Z.of_nat (length (file_table fs)))); [|lia].
      rewrite Z.eqb_refl. reflexivity.
    - destruct (Z.eqb_spec q id); [congruence|reflexivity]. }
  assert (Hcase1 : forall q,
            file_at fs1 q = file_at fs q \/
            (exists v, file_at fs1 q = with_next_file (file_at fs q) v) \/
            (0 <= q < MAX_FILES /\
             file_at fs1 q = mk_file (strncpy_name nm) 0 type permissions
                               (q * MAX_FILE_SIZE) (current_directory fs) 0)).
  { intros q. rewrite H1. destruct (Z.eqb_spec q id) as [->|]; [|left; reflexivity].
    right. right. split; [lia|exact He]. }
  change (current_directory fs1) with (current_directory fs).
  change (dir_at fs1 (current_directory fs)) with (dir_at fs (current_directory fs)).
  destruct (Z.eqb_spec (d_first_file (dir_at fs (current_directory fs))) 0) as [E0|Hne].
  - cbn [mbind option_bind]. intros [= <- _] i. apply Hcase1.
  - destruct (last_file fuel fs1 _) as [last|] eqn:El; cbn [mbind option_bind]; [|discriminate].
    intros [= <- _] i.
    pose proof (dirs_ok _ Hs (current_directory fs)) as (_ & _ & _ & Hfirst).
    assert (Hlast : 0 < last < id).
    { apply (last_file_keeps (fun x => 0 < x < id) fs1) with (3 := El); [|lia].
      intros q Hq. rewrite H1. destruct (Z.eqb_spec q id); [lia|].
      pose proof (files_ok _ Hs q) as (_ & _ & [?|?]); unfold id in *; lia. }
    change (file_at (set_data_offset ?x _) i) with (file_at x i).
    rewrite file_at_set_file.
    destruct (Z.eqb_spec last i) as [<-|Hq]; cbn [andb]; [|apply Hcase1].
    destruct (_ && _); [|apply Hcase1].
    right. left. exists id. rewrite H1. destruct (Z.eqb_spec last id); [lia|reflexivity].
Qed.

Lemma delete_file_entries fuel file_id fs fs' r :
  delete_file fuel file_id fs = Some (fs', r) ->
  forall i,
    file_at fs' i = file_at fs i \/
    (exists v, file_at fs' i = with_next_file (file_at fs i) v) \/
    file_at fs' i = zero_file.
Proof.
  unfold delete_file.
  destruct (file_id >=? next_file_id fs); [intros [= <- _] i; left; reflexivity|].
  destruct (seek_file fuel fs file_id 0 _) as [[prev_file current_file]|];
    cbn [mbind option_bind]; [|discriminate].
  intros [= <- _] i. rewrite file_at_set_file.
  destruct ((file_id =? i) && _ && _); [right; right; reflexivity|].
  destruct (current_file =? file_id); [destruct (prev_file =? 0)|].
  - left. reflexivity.
  - rewrite file_at_set_file.
    destruct (Z.eqb_spec prev_file i) as [<-|]; cbn [andb]; [|left; reflexivity].
    destruct (_ && _); [right; left; eexists; reflexivity|left; reflexivity].
  - left. reflexivity.
Qed.

Lemma write_file_entries file_id data offset size fs :
  forall i,
    file_at (fst (write_file fs file_id data offset size)) i = file_at fs i \/
    exists v, file_at (fst (write_file fs file_id data offset size)) i
              = with_size (file_at fs i) v.
Proof.
  intros i. unfold write_file.
  destruct (file_id >=? next_file_id fs); [left; reflexivity|]. cbn [fst].
  set (size' := if wrap32 (offset + size) >? MAX_FILE_SIZE then _ else _).
  destruct (size' >? 0); [|left; reflexivity].
  set (fs1 := set_file_data fs _).
  destruct (wrap32 (offset + size') >? f_size (file_at fs file_id)); [|left; reflexivity].
  rewrite file_at_set_file. change (file_at fs1) with (file_at fs).
  destruct (Z.eqb_spec file_id i) as [<-|]; cbn [andb]; [|left; reflexivity].
  destruct (_ && _); [right; eexists; reflexivity|left; reflexivity].
Qed.

Lemma create_directory_files fuel nm fs fs' r :
  create_directory fuel nm fs = Some (fs', r) ->
  file_table fs' = file_table fs /\ file_data fs' = file_data fs /\
  next_file_id fs' = next_file_id fs /\ data_offset fs' = data_offset fs.
Proof.
  unfold create_directory.
  destruct (next_dir_id fs >=? MAX_DIRECTORIES); [intros [= <- _]; auto|].
  cbv zeta. destruct (_ =? 0); cbn [mbind option_bind].
  - intros [= <- _]. auto.
  - destruct (last_dir fuel _ _); cbn [mbind option_bind]; [|discriminate].
    intros [= <- _]. auto.
Qed.

Lemma delete_directory_files fuel dir_id fs fs' r :
  delete_directory fuel dir_id fs = Some (fs', r) ->
  file_table fs' = file_table fs /\ file_data fs' = file_data fs /\
  next_file_id fs' = next_file_id fs /\ data_offset fs' = data_offset fs.
Proof.
  unfold delete_directory.
  destruct (_ || _); [intros [= <- _]; auto|].
  destruct (negb _); [intros [= <- _]; auto|].
  destruct (seek_dir fuel fs dir_id 0 _) as [[prev_dir current_dir]|];
    cbn [mbind option_bind]; [|discriminate].
  intros [= <- _].
  destruct (current_dir =? dir_id); [destruct (prev_dir =? 0)|]; auto.
Qed.

Lemma file_at_blank dt fd a b c d i :
  file_at (mk_fs (replicate (Z.to_nat MAX_FILES) zero_file) dt fd a b c d) i = zero_file.
Proof.
  unfold file_at. cbn [file_table].
  destruct (aget (replicate (Z.to_nat MAX_FILES) zero_file) i) as [e|] eqn:E; [|reflexivity].
  cbn [default].
  exact (Forall_aget (fun e => e = zero_file) _ _ _ (Forall_replicate _ _ _ eq_refl) E).
Qed.

Lemma length_strncpy_name nm : (String.length (strncpy_name nm) <= 31)%nat.
Proof.
  unfold strncpy_name. change (Z.to_nat (MAX_FILENAME - 1)) with 31%nat.
  generalize 31%nat. induction nm as [|c nm IH]; intros n.
  - destruct n; cbn; lia.
  - destruct n as [|n]; cbn [substring String.length]; [lia|].
    specialize (IH n). lia.
Qed.

(** A property of the entries that no assignment of the code breaks holds
    of every entry of every state a client can bring about. *)
Section Entries.

Variable P : Z -> file_entry_t -> Prop.

Hypothesis P_zero : forall i, P i zero_file.
Hypothesis P_next : forall i e v, P i e -> P i (with_next_file e v).
Hypothesis P_size : forall i e v, P i e -> P i (with_size e v).
Hypothesis P_new : forall i nm type permissions cur,
  0 <= i < MAX_FILES ->
  P i (mk_file (strncpy_name nm) 0 type permissions (i * MAX_FILE_SIZE) cur 0).

Lemma create_file_keeps fuel nm type permissions fs fs' r :
  invariant fs -> (forall i, P i (file_at fs i)) ->
  create_file fuel nm type permissions fs = Some (fs', r) ->
  forall i, P i (file_at fs' i).
Proof.
  intros Hinv HP E i.
  destruct (create_file_entries fuel nm type permissions fs fs' r Hinv E i)
    as [-> | [[v ->] | [Hi ->]]]; auto.
Qed.

Lemma init_filesystem_keeps fuel fs :
  init_filesystem fuel = Some fs -> forall i, P i (file_at fs i).
Proof.
  unfold init_filesystem. pose proof blank_invariant as H0.
  assert (HP0 : forall i,
            P i (file_at
                   (mk_fs (replicate (Z.to_nat MAX_FILES) zero_file)
                      (aset (replicate (Z.to_nat MAX_DIRECTORIES) zero_dir) 0
                         (mk_dir "/" 0 0 0))
                      (replicate (Z.to_nat (MAX_FILES * MAX_FILE_SIZE)) 0) 0 1 0 0) i)).
  { intros i. rewrite file_at_blank. apply P_zero. }
  revert H0 HP0.
  generalize (mk_fs (replicate (Z.to_nat MAX_FILES) zero_file)
       (aset (replicate (Z.to_nat MAX_DIRECTORIES) zero_dir) 0 (mk_dir "/" 0 0 0))
       (replicate (Z.to_nat (MAX_FILES * MAX_FILE_SIZE)) 0) 0 1 0 0).
  intros fs0 H0 HP0.
  destruct (create_file fuel "kernel.bin" _ _ fs0) as [[fs1 r1]|] eqn:E1;
    cbn [mbind option_bind]; [|discriminate].
  destruct (create_file fuel "shell.bin" _ _ fs1) as [[fs2 r2]|] eqn:E2;
    cbn [mbind option_bind]; [|discriminate].
  destruct (create_file fuel "init.bin" _ _ fs2) as [[fs3 r3]|] eqn:E3;
    cbn [mbind option_bind]; [|discriminate].
  intros [= <-].
  pose proof (create_file_invariant _ _ _ _ _ _ _ H0 E1) as H1.
  pose proof (create_file_invariant _ _ _ _ _ _ _ H1 E2) as H2.
  pose proof (create_file_keeps _ _ _ _ _ _ _ H0 HP0 E1) as HP1.
  pose proof (create_file_keeps _ _ _ _ _ _ _ H1 HP1 E2) as HP2.
  exact (create_file_keeps _ _ _ _ _ _ _ H2 HP2 E3).
Qed.

Lemma step_keeps fs fs' :
  invariant fs -> (forall i, P i (file_at fs i)) -> step fs fs' ->
  forall i, P i (file_at fs' i).
Proof.
  intros Hinv HP Hstep. destruct Hstep as
    [fuel fs fs' E|fuel nm ty pm fs fs' r _ _ E|fuel nm fs fs' r E
    |fuel id fs fs' r Hid E|fuel id fs fs' r Hid E|id data off sz fs _ _ _|id fs Hid];
    intros i.
  - eapply init_filesystem_keeps; eassumption.
  - eapply create_file_keeps; eassumption.
  - apply create_directory_files in E as (Et & _). unfold file_at. rewrite Et. apply HP.
  - destruct (delete_file_entries fuel id fs fs' r E i) as [-> | [[v ->] | ->]]; auto.
  - apply delete_directory_files in E as (Et & _). unfold file_at. rewrite Et. apply HP.
  - destruct (write_file_entries id data off sz fs i) as [-> | [v ->]]; auto.
  - unfold set_current_directory. destruct (_ <? _); apply HP.
Qed.

Lemma reachable_keeps fs : reachable fs -> forall i, P i (file_at fs i).
Proof.
  induction 1 as [fuel fs E|fs fs' Hr IH Hstep].
  - eapply init_filesystem_keeps; eassumption.
  - eapply step_keeps; [apply reachable_invariant; exact Hr|exact IH|exact Hstep].
Qed.

End Entries.

Lemma reachable_entries fs :
  reachable fs ->
  forall i,
    (f_data_start (file_at fs i) = i * MAX_FILE_SIZE \/ f_data_start (file_at fs i) = 0) /\
    (String.length (f_name (file_at fs i)) <= 31)%nat.
Proof.
  apply (reachable_keeps
           (fun i e => (f_data_start e = i * MAX_FILE_SIZE \/ f_data_start e = 0) /\
                       (String.length (f_name e) <= 31)%nat)).
  - intros i. cbn. split; [right; reflexivity|lia].
  - intros i e v H. exact H.
  - intros i e v H. exact H.
  - intros i nm type permissions cur Hi. cbn [f_data_start f_name].
    split; [left; reflexivity|apply length_strncpy_name].
Qed.

(** X16.  In every state a client can bring about, entry [i] of the file
    table has its data at [i * 4096] or at 0 (a blank entry), a name of at
    most 31 characters, and a size of at most 4096. *)
Theorem file_entries_partitioned (fs : filesystem) (i : Z) :
  reachable fs ->
  (f_data_start (file_at fs i) = i * MAX_FILE_SIZE \/ f_data_start (file_at fs i) = 0) /\
  (String.length (f_name (file_at fs i)) <= 31)%nat /\
  0 <= f_size (file_at fs i) <= MAX_FILE_SIZE.
Proof.
  intros Hr. destruct (reachable_entries fs Hr i) as [Hd Hn].
  split; [exact Hd|]. split; [exact Hn|].
  destruct (reachable_invariant fs Hr) as [Hs _].
  pose proof (files_ok _ Hs i) as (Hsz & _). exact Hsz.
Qed.

Lemma file_entries_partitioned_witness :
  exists fs,
    reachable fs /\
    (f_data_start (file_at fs 2) = 2 * MAX_FILE_SIZE \/ f_data_start (file_at fs 2) = 0) /\
    (String.length (f_name (file_at fs 2)) <= 31)%nat.
Proof.
  destruct (init_filesystem_total 2) as [fs E].
  assert (Hr : reachable fs) by (eapply reachable_init; exact E).
  exists fs. split; [exact Hr|].
  destruct (file_entries_partitioned fs 2 Hr) as (Hd & Hn & _).
  split; [exact Hd|exact Hn].
Defined.

Lemma find_file_from_found fs nm : forall fuel p r,
  find_file_from fuel fs nm p = Some r ->
  r = NOT_FOUND \/ f_name (file_at fs r) = nm.
Proof.
  induction fuel as [|fuel IH]; intros p r E; [discriminate|].
  cbn [find_file_from] in E. destruct (negb (p =? 0)).
  - destruct (String.eqb_spec (f_name (file_at fs p)) nm) as [En|_].
    + injection E as <-. right. exact En.
    + eapply IH. exact E.
  - injection E as <-. left. reflexivity.
Qed.

(** X17.  In a state a client can bring about, [find_file], its loop
    allowed [MAX_FILES] turns, returns [0xFFFFFFFF] for every name of more
    than 31 characters: names are cut to 31 characters when they are stored
    and compared in full when looked up. *)
Theorem find_file_long_name (fuel : nat) (nm : string) (parent_dir : Z) (fs : filesystem) :
  reachable fs -> (31 < String.length nm)%nat ->
  0 <= parent_dir < MAX_DIRECTORIES ->
  (Z.to_nat MAX_FILES <= fuel)%nat ->
  find_file fuel nm parent_dir fs = Some NOT_FOUND.
Proof.
  intros Hr Hlong Hp Hfuel.
  destruct (find_file_total fuel nm parent_dir fs (reachable_invariant fs Hr) Hfuel)
    as [r E].
  rewrite E. f_equal. unfold find_file in E.
  destruct (find_file_from_found fs nm _ _ _ E) as [->|En]; [reflexivity|].
  destruct (reachable_entries fs Hr r) as [_ Hn]. rewrite En in Hn. lia.
Qed.

Lemma find_file_long_name_witness :
  exists fs fs' r,
    reachable fs /\
    create_file 4 "a-name-of-more-than-thirty-one-characters" FILE_TYPE_REGULAR PERM_READ fs
    = Some (fs', r) /\
    reachable fs' /\
    find_file 100 "a-name-of-more-than-thirty-one-characters" 0 fs' = Some NOT_FOUND.
Proof.
  assert (F : (fs ← init_filesystem 3;
               '(fs', r) ← create_file 4 "a-name-of-more-than-thirty-one-characters"
                             FILE_TYPE_REGULAR PERM_READ fs;
               Some r) = Some 3)
    by (vm_compute; reflexivity).
  destruct (init_filesystem 3) as [fs|] eqn:E; [|discriminate].
  cbn [mbind option_bind] in F.
  destruct (create_file 4 _ _ _ fs) as [[fs' r]|] eqn:Ec; [|discriminate].
  assert (Hr : reachable fs) by (eapply reachable_init; exact E).
  assert (Hr' : reachable fs').
  { eapply reachable_step; [exact Hr|].
    eapply step_create_file; [| |exact Ec]; unfold u32; vm_compute;
      split; discriminate || reflexivity. }
  exists fs, fs', r. split; [exact Hr|]. split; [exact Ec|]. split; [exact Hr'|].
  apply (find_file_long_name 100 "a-name-of-more-than-thirty-one-characters" 0 fs' Hr');
    [cbn; lia|unfold MAX_DIRECTORIES; lia|vm_compute; reflexivity].
Defined.

End FileEntries.

(** ** The file system: the data of the files *)

Section FileData.

Import FS.

(** [write_file] at an offset inside the partition, for a size that does
    not wrap around. *)
Lemma write_file_at fs file_id data offset size :
  shape fs -> 0 <= file_id < next_file_id fs ->
  0 <= offset <= MAX_FILE_SIZE -> 0 <= size -> offset + size < 2 ^ 32 ->
  let e := file_at fs file_id in
  let n := Z.min size (MAX_FILE_SIZE - offset) in
  let fs' := fst (write_file fs file_id data offset size) in
  snd (write_file fs file_id data offset size) = n /\
  next_file_id fs' = next_file_id fs /\
  (forall q, q <> file_id -> file_at fs' q = file_at fs q) /\
  file_at fs' file_id
  = with_size e (if 0 <? n then Z.max (f_size e) (offset + n) else f_size e) /\
  length (file_data fs') = length (file_data fs) /\
  forall j,
    aget (file_data fs') j =
    match aget (file_data fs) j with
    | Some x =>
        Some (if (f_data_start e + offset <=? j) && (j <? f_data_start e + offset + n)
              then default 0 (aget data (j - (f_data_start e + offset))) else x)
    | None => None
    end.
Proof.
  intros Hs Hid Hoff Hsize Hsum e n fs'. subst fs'. unfold write_file.
  destruct (Z.geb_spec file_id (next_file_id fs)); [lia|]. cbn [fst snd].
  pose proof (files_ok _ Hs file_id) as (Hsz & Hst & _). fold e in Hsz, Hst.
  pose proof (files_len _ Hs) as Hfl. pose proof (next_file_range _ Hs) as Hnf.
  fold e.
  assert (Heta : with_size e (f_size e) = e) by (destruct e; reflexivity).
  rewrite (wrap32_small (offset + size)) by lia.
  rewrite (wrap32_small (f_data_start e + offset))
    by (unfold MAX_FILES, MAX_FILE_SIZE in *; lia).
  assert (Hn : (if offset + size >? MAX_FILE_SIZE then wrap32 (MAX_FILE_SIZE - offset)
                else size) = n).
  { subst n. destruct (Z.gtb_spec (offset + size) MAX_FILE_SIZE).
    - rewrite wrap32_small by (unfold MAX_FILE_SIZE in *; lia). lia.
    - lia. }
  rewrite Hn.
  assert (Hn0 : 0 <= n <= MAX_FILE_SIZE - offset) by (subst n; lia).
  rewrite (wrap32_small (offset + n)) by (unfold MAX_FILE_SIZE in *; lia).
  split; [apply to_int_small; unfold MAX_FILE_SIZE in *; lia|].
  destruct (Z.gtb_spec n 0) as [Hpos|Hzero].
  - destruct (Z.ltb_spec 0 n); [|lia].
    set (fs1 := set_file_data fs _).
    assert (Hdata : forall j,
              aget (file_data fs1) j =
              match aget (file_data fs) j with
              | Some x =>
                  Some (if (f_data_start e + offset <=? j)
                           && (j <? f_data_start e + offset + n)
                        then default 0 (aget data (j - (f_data_start e + offset))) else x)
              | None => None
              end).
    { intros j. subst fs1. cbn [file_data set_file_data]. rewrite aget_memcpy.
      rewrite Z.add_0_l. reflexivity. }
    assert (Hlen : length (file_data fs1) = length (file_data fs)).
    { subst fs1. cbn [file_data set_file_data]. unfold memcpy. apply length_memcpy_at. }
    destruct (Z.gtb_spec (offset + n) (f_size e)).
    + split; [reflexivity|]. split; [|split; [|split; [exact Hlen|exact Hdata]]].
      * intros q Hq. rewrite file_at_set_file.
        destruct (Z.eqb_spec file_id q); [congruence|reflexivity].
      * rewrite file_at_set_file.
        destruct (Z.eqb_spec file_id file_id); [|lia].
        destruct (Z.leb_spec 0 file_id); [|lia].
        destruct (Z.ltb_spec file_id (Z.of_nat (length (file_table fs1))));
          [|subst fs1; cbn [file_table set_file_data] in *; lia].
        cbn [andb]. change (file_at fs1 file_id) with e.
        rewrite Z.max_r by lia. reflexivity.
    + split; [reflexivity|]. split; [reflexivity|].
      split; [|split; [exact Hlen|exact Hdata]].
      change (file_at fs1 file_id) with e. rewrite Z.max_l by lia. symmetry. exact Heta.
  - assert (n = 0) by lia. destruct (Z.ltb_spec 0 n); [lia|].
    split; [reflexivity|]. split; [reflexivity|]. split; [symmetry; exact Heta|].
    split; [reflexivity|].
    intros j. destruct (aget (file_data fs) j); [|reflexivity].
    destruct (Z.leb_spec (f_data_start e + offset) j);
      destruct (Z.ltb_spec j (f_data_start e + offset + n));
      cbn [andb]; try reflexivity; lia.
Qed.

(** [read_file] at an offset inside the file. *)
Lemma read_file_at fs file_id buffer offset size :
  0 <= file_id < next_file_id fs ->
  let e := file_at fs file_id in
  0 <= f_size e <= MAX_FILE_SIZE ->
  0 <= f_data_start e <= (MAX_FILES - 1) * MAX_FILE_SIZE ->
  0 <= offset <= f_size e -> 0 <= size -> offset + size < 2 ^ 32 ->
  let n := Z.min size (f_size e - offset) in
  snd (read_file fs file_id buffer offset size) = n /\
  forall i,
    aget (fst (read_file fs file_id buffer offset size)) i =
    match aget buffer i with
    | Some x =>
        Some (if (0 <=? i) && (i <? n)
              then default 0 (aget (file_data fs) (f_data_start e + offset + i)) else x)
    | None => None
    end.
Proof.
  intros Hid e Hsz Hst Hoff Hsize Hsum n. unfold read_file.
  destruct (Z.geb_spec file_id (next_file_id fs)); [lia|]. cbn [fst snd]. fold e.
  rewrite (wrap32_small (offset + size)) by lia.
  rewrite (wrap32_small (f_data_start e + offset))
    by (unfold MAX_FILES, MAX_FILE_SIZE in *; lia).
  rewrite (wrap32_small (f_size e - offset)) by (unfold MAX_FILE_SIZE in *; lia).
  assert (Hn : (if offset + size >? f_size e then f_size e - offset else size) = n).
  { subst n. destruct (Z.gtb_spec (offset + size) (f_size e)); lia. }
  rewrite Hn.
  assert (Hn0 : 0 <= n <= MAX_FILE_SIZE) by (subst n; unfold MAX_FILE_SIZE in *; lia).
  split; [apply to_int_small; unfold MAX_FILE_SIZE in *; lia|].
  intros i. destruct (Z.gtb_spec n 0).
  - rewrite aget_memcpy. rewrite Z.add_0_l, Z.sub_0_r. reflexivity.
  - destruct (aget buffer i); [|reflexivity].
    destruct (Z.leb_spec 0 i); destruct (Z.ltb_spec i n); cbn [andb]; try reflexivity; lia.
Qed.

(** X18.  [write_file] at an offset below 4096 followed by [read_file] at
    the same offset and size: both return [min size (4096 - offset)], the
    buffer holds the bytes written and is untouched beyond them, and the
    size of the file has grown to [offset + n] if it was smaller. *)
Theorem write_then_read_at_offset (fs : filesystem) (file_id offset size : Z)
    (data buffer : list Z) :
  reachable fs ->
  0 <= file_id < next_file_id fs ->
  0 <= offset < MAX_FILE_SIZE -> 0 < size -> offset + size < 2 ^ 32 ->
  let n := Z.min size (MAX_FILE_SIZE - offset) in
  n <= Z.of_nat (length data) -> n <= Z.of_nat (length buffer) ->
  let fs' := fst (write_file fs file_id data offset size) in
  snd (write_file fs file_id data offset size) = n /\
  f_size (file_at fs' file_id) = Z.max (f_size (file_at fs file_id)) (offset + n) /\
  snd (read_file fs' file_id buffer offset size) = n /\
  (forall i, 0 <= i < n ->
     aget (fst (read_file fs' file_id buffer offset size)) i = aget data i) /\
  (forall i, n <= i ->
     aget (fst (read_file fs' file_id buffer offset size)) i = aget buffer i).
Proof.
  intros Hr Hid Hoff Hsize Hsum n Hdata Hbuf fs'.
  destruct (reachable_invariant fs Hr) as [Hs _].
  pose proof (files_ok _ Hs file_id) as (Hsz & Hst & _).
  pose proof (data_len _ Hs) as Hdl.
  destruct (write_file_at fs file_id data offset size Hs Hid ltac:(lia) ltac:(lia) Hsum)
    as (Hw & Hnext & _ & He & Hlen & Hcells).
  fold n in Hw, He, Hcells. fold fs' in Hnext, He, Hlen, Hcells.
  assert (Hn : 0 < n <= MAX_FILE_SIZE - offset) by (subst n; lia).
  destruct (Z.ltb_spec 0 n); [|lia].
  assert (Hsize' : f_size (file_at fs' file_id)
                   = Z.max (f_size (file_at fs file_id)) (offset + n))
    by (rewrite He; reflexivity).
  assert (Hstart' : f_data_start (file_at fs' file_id) = f_data_start (file_at fs file_id))
    by (rewrite He; reflexivity).
  destruct (read_file_at fs' file_id buffer offset size) as [Hrd Hbufc];
    [rewrite Hnext; exact Hid|rewrite Hsize'; lia|rewrite Hstart'; exact Hst
    |rewrite Hsize'; lia|lia|exact Hsum|].
  rewrite Hsize', Hstart' in *.
  assert (Hmin : Z.min size (Z.max (f_size (file_at fs file_id)) (offset + n) - offset) = n)
    by (subst n; lia).
  rewrite Hmin in *.
  split; [exact Hw|]. split; [reflexivity|]. split; [exact Hrd|]. split.
  - intros i Hi. rewrite Hbufc.
    destruct (aget_Some buffer i) as [x ->]; [lia|].
    destruct (Z.leb_spec 0 i); [|lia]. destruct (Z.ltb_spec i n); [|lia]. cbn [andb].
    rewrite Hcells.
    destruct (aget_Some (file_data fs) (f_data_start (file_at fs file_id) + offset + i))
      as [y ->]; [unfold MAX_FILES, MAX_FILE_SIZE in *; lia|].
    cbn [default].
    destruct (Z.leb_spec (f_data_start (file_at fs file_id) + offset)
                (f_data_start (file_at fs file_id) + offset + i)); [|lia].
    destruct (Z.ltb_spec (f_data_start (file_at fs file_id) + offset + i)
                (f_data_start (file_at fs file_id) + offset + n)); [|lia].
    cbn [andb].
    replace (f_data_start (file_at fs file_id) + offset + i
             - (f_data_start (file_at fs file_id) + offset)) with i by lia.
    destruct (aget_Some data i) as [z ->]; [lia|]. reflexivity.
  - intros i Hi. rewrite Hbufc. destruct (aget buffer i); [|reflexivity].
    destruct (Z.ltb_spec i n); [lia|]. rewrite andb_false_r. reflexivity.
Qed.

Lemma write_then_read_at_offset_witness :
  exists fs,
    reachable fs /\ 0 <= 1 < next_file_id fs /\
    snd (write_file fs 1 [104; 105; 33] 4094 3) = 2 /\
    f_size (file_at (fst (write_file fs 1 [104; 105; 33] 4094 3)) 1)
    = Z.max (f_size (file_at fs 1)) 4096 /\
    snd (read_file (fst (write_file fs 1 [104; 105; 33] 4094 3)) 1 [0; 0; 0] 4094 3) = 2.
Proof.
  assert (F : (fs ← init_filesystem 3; Some (next_file_id fs)) = Some 3)
    by (vm_compute; reflexivity).
  destruct (init_filesystem 3) as [fs|] eqn:E; [|discriminate].
  cbn [mbind option_bind] in F. injection F as Hnext.
  assert (Hr : reachable fs) by (eapply reachable_init; exact E).
  assert (Hid : 0 <= 1 < next_file_id fs) by (rewrite Hnext; lia).
  exists fs. split; [exact Hr|]. split; [exact Hid|].
  destruct (write_then_read_at_offset fs 1 4094 3 [104; 105; 33] [0; 0; 0] Hr Hid)
    as (Hw & Hs & Hrd & _);
    [unfold MAX_FILE_SIZE; lia|lia|lia|vm_compute; discriminate|vm_compute; discriminate|].
  split; [exact Hw|]. split; [exact Hs|exact Hrd].
Defined.

Lemma memcpy_at_ext src src' from n pos dst : forall i,
  (forall k, 0 <= k < n -> aget src (from + k) = aget src' (from + k)) ->
  memcpy_at i dst pos src from n = memcpy_at i dst pos src' from n.
Proof.
  induction dst as [|x dst IH]; intros i Hsame; cbn [memcpy_at]; [reflexivity|].
  rewrite (IH (i + 1) Hsame). f_equal.
  destruct (Z.leb_spec pos i); destruct (Z.ltb_spec i (pos + n)); cbn [andb];
    try reflexivity.
  rewrite Hsame by lia. reflexivity.
Qed.

(** X19.  [write_file] to one file, at an offset of at most 4096 and for a
    size that does not wrap around, does not change what [read_file]
    returns for a file whose data starts elsewhere, read from an offset
    inside that file. *)
Theorem write_file_leaves_other_files (fs : filesystem) (a b offset size off sz : Z)
    (data buffer : list Z) :
  reachable fs ->
  0 <= a < next_file_id fs -> 0 <= b < next_file_id fs ->
  f_data_start (file_at fs a) <> f_data_start (file_at fs b) ->
  0 <= offset <= MAX_FILE_SIZE -> 0 <= size -> offset + size < 2 ^ 32 ->
  0 <= off <= f_size (file_at fs b) -> 0 <= sz -> off + sz < 2 ^ 32 ->
  read_file (fst (write_file fs a data offset size)) b buffer off sz
  = read_file fs b buffer off sz.
Proof.
  intros Hr Ha Hb Hne Hoff Hsize Hsum Hoff' Hsz' Hsum'.
  destruct (reachable_invariant fs Hr) as [Hs _].
  assert (Hab : a <> b) by congruence.
  destruct (write_file_at fs a data offset size Hs Ha Hoff Hsize Hsum)
    as (_ & Hnext & Hother & _ & Hlen & Hcells).
  set (n := Z.min size (MAX_FILE_SIZE - offset)) in *.
  set (fs' := fst (write_file fs a data offset size)) in *.
  pose proof (files_ok _ Hs b) as (Hszb & Hstb & _).
  pose proof (files_ok _ Hs a) as (_ & Hsta & _).
  destruct (reachable_entries fs Hr a) as [Hda _].
  destruct (reachable_entries fs Hr b) as [Hdb _].
  unfold read_file. rewrite Hnext, (Hother b) by congruence.
  destruct (b >=? next_file_id fs); [reflexivity|].
  rewrite (wrap32_small (off + sz)) by lia.
  rewrite (wrap32_small (f_size (file_at fs b) - off)) by (unfold MAX_FILE_SIZE in *; lia).
  rewrite (wrap32_small (f_data_start (file_at fs b) + off))
    by (unfold MAX_FILES, MAX_FILE_SIZE in *; lia).
  set (m := if off + sz >? f_size (file_at fs b) then f_size (file_at fs b) - off else sz).
  assert (Hm : m <= f_size (file_at fs b) - off).
  { subst m. destruct (Z.gtb_spec (off + sz) (f_size (file_at fs b))); lia. }
  f_equal. destruct (m >? 0); [|reflexivity].
  unfold memcpy. apply memcpy_at_ext. intros k Hk. rewrite Hcells.
  destruct (aget (file_data fs) (f_data_start (file_at fs b) + off + k)); [|reflexivity].
  f_equal.
  assert (Hn : 0 <= n <= MAX_FILE_SIZE - offset) by (subst n; lia).
  destruct (Z.leb_spec (f_data_start (file_at fs a) + offset)
              (f_data_start (file_at fs b) + off + k));
    destruct (Z.ltb_spec (f_data_start (file_at fs b) + off + k)
                (f_data_start (file_at fs a) + offset + n));
    cbn [andb]; try reflexivity.
  exfalso. unfold MAX_FILE_SIZE in *. lia.
Qed.

Lemma write_file_leaves_other_files_witness :
  exists fs,
    reachable fs /\ 0 <= 1 < next_file_id fs /\ 0 <= 2 < next_file_id fs /\
    f_data_start (file_at fs 1) <> f_data_start (file_at fs 2) /\
    read_file (fst (write_file fs 1 [104; 105] 4095 2)) 2 [0; 0] 0 2
    = read_file fs 2 [0; 0] 0 2.
Proof.
  assert (F : (fs ← init_filesystem 3;
               Some (next_file_id fs, f_data_start (file_at fs 1),
                     f_data_start (file_at fs 2), f_size (file_at fs 2)))
              = Some (3, 4096, 8192, 0))
    by (vm_compute; reflexivity).
  destruct (init_filesystem 3) as [fs|] eqn:E; [|discriminate].
  cbn [mbind option_bind] in F. injection F as Hnext H1 H2 Hsz.
  assert (Hr : reachable fs) by (eapply reachable_init; exact E).
  assert (Ha : 0 <= 1 < next_file_id fs) by (rewrite Hnext; lia).
  assert (Hb : 0 <= 2 < next_file_id fs) by (rewrite Hnext; lia).
  assert (Hne : f_data_start (file_at fs 1) <> f_data_start (file_at fs 2))
    by (rewrite H1, H2; discriminate).
  exists fs. split; [exact Hr|]. split; [exact Ha|]. split; [exact Hb|].
  split; [exact Hne|].
  apply (write_file_leaves_other_files fs 1 2 4095 2 0 2 [104; 105] [0; 0] Hr Ha Hb Hne);
    [unfold MAX_FILE_SIZE; lia|lia|lia|rewrite Hsz; lia|lia|lia].
Defined.

(** [write_file] in terms of its [memcpy] call. *)
Lemma write_file_copy_spec fs file_id data offset size pos len :
  write_file_copy fs file_id offset size = Some (pos, len) ->
  file_data (fst (write_file fs file_id data offset size))
  = memcpy (file_data fs) pos data 0 len /\
  snd (write_file fs file_id data offset size) = to_int len.
Proof.
  unfold write_file_copy, write_file.
  destruct (file_id >=? next_file_id fs); [discriminate|]. cbv zeta.
  destruct (_ >? 0); [|discriminate]. intros E. injection E as <- <-.
  cbn [fst snd]. split; [|reflexivity].
  destruct (_ >? _); reflexivity.
Qed.



(** X21.  A deleted file id stays usable: after [delete_file] returned 0
    the entry is blank, [read_file] on the id returns 0 bytes rather than
    -1, and [write_file] on the id succeeds, gives the blank entry a size
    again and stores the bytes at the start of [file_data], the partition
    of file 0. *)
Theorem write_file_after_delete_file (fuel : nat) (fs fs' : filesystem) (file_id size : Z)
    (data buffer : list Z) :
  invariant fs -> 0 <= file_id ->
  delete_file fuel file_id fs = Some (fs', 0) ->
  0 < size <= MAX_FILE_SIZE ->
  file_at fs' file_id = zero_file /\
  snd (read_file fs' file_id buffer 0 size) = 0 /\
  snd (write_file fs' file_id data 0 size) = size /\
  f_size (file_at (fst (write_file fs' file_id data 0 size)) file_id) = size /\
  forall j, 0 <= j < size ->
    aget (file_data (fst (write_file fs' file_id data 0 size))) j
    = Some (default 0 (aget data j)).
Proof.
  intros Hinv Hid0 Ed Hsize.
  pose proof (delete_file_invariant fuel file_id fs fs' 0 Hinv Hid0 Ed) as [Hs' _].
  destruct Hinv as [Hs _].
  pose proof (files_len _ Hs) as Hfl. pose proof (next_file_range _ Hs) as Hnf.
  assert (Hid : file_id < next_file_id fs /\ next_file_id fs' = next_file_id fs /\
                file_at fs' file_id = zero_file).
  { revert Ed. unfold delete_file.
    destruct (Z.geb_spec file_id (next_file_id fs)); [intros [= _ Hr]; lia|].
    destruct (seek_file fuel fs file_id 0 _) as [[prev_file current_file]|];
      cbn [mbind option_bind]; [|discriminate].
    intros [= <-]. split; [lia|].
    split; [destruct (current_file =? file_id); [destruct (prev_file =? 0)|]; reflexivity|].
    rewrite file_at_set_file.
    destruct (Z.eqb_spec file_id file_id); [|lia].
    destruct (Z.leb_spec 0 file_id); [|lia].
    match goal with |- context [Z.of_nat (length (file_table ?x))] =>
      replace (length (file_table x)) with (length (file_table fs))
    end.
    - destruct (Z.ltb_spec file_id (Z.of_nat (length (file_table fs)))); [|lia].
      reflexivity.
    - destruct (current_file =? file_id); [destruct (prev_file =? 0)|];
        try reflexivity.
      unfold set_file. cbn [file_table set_file_table]. rewrite length_aset. reflexivity. }
  destruct Hid as (Hlt & Hnext & Hzero).
  assert (Hid' : 0 <= file_id < next_file_id fs') by lia.
  split; [exact Hzero|].
  destruct (read_file_at_start fs' file_id buffer size Hid' ltac:(unfold u32, MAX_FILE_SIZE in *; lia))
    as [Hrd _]; [rewrite Hzero; cbn; unfold MAX_FILE_SIZE; lia
                |rewrite Hzero; cbn; unfold MAX_FILES, MAX_FILE_SIZE; lia|].
  rewrite Hzero in Hrd. cbn [f_size zero_file] in Hrd.
  split; [rewrite Hrd; lia|].
  destruct (write_file_at_start fs' file_id data size Hs' Hid'
              ltac:(unfold u32, MAX_FILE_SIZE in *; lia))
    as (Hw & _ & Hsz & _ & _ & Hcells).
  rewrite Hzero in Hsz, Hcells. cbn [f_size f_data_start zero_file] in Hsz, Hcells.
  split; [rewrite Hw; lia|]. split; [rewrite Hsz; lia|].
  intros j Hj. rewrite Hcells.
  pose proof (data_len _ Hs') as Hdl.
  destruct (aget_Some (file_data fs') j) as [x ->];
    [unfold MAX_FILES, MAX_FILE_SIZE in *; lia|].
  destruct (Z.leb_spec 0 j); [|lia].
  destruct (Z.ltb_spec j (0 + Z.min size MAX_FILE_SIZE)); [|lia].
  cbn [andb]. rewrite Z.sub_0_r. reflexivity.
Qed.

Lemma write_file_after_delete_file_witness :
  exists fs fs',
    invariant fs /\ delete_file 3 2 fs = Some (fs', 0) /\
    file_at fs' 2 = zero_file /\
    snd (write_file fs' 2 [104; 105] 0 2) = 2 /\
    aget (file_data (fst (write_file fs' 2 [104; 105] 0 2))) 1 = Some 105.
Proof.
  assert (F : (fs ← init_filesystem 3;
               '(fs', r) ← delete_file 3 2 fs;
               Some r) = Some 0)
    by (vm_compute; reflexivity).
  destruct (init_filesystem 3) as [fs|] eqn:E; [|discriminate].
  cbn [mbind option_bind] in F.
  destruct (delete_file 3 2 fs) as [[fs' r]|] eqn:Ed; [|discriminate].
  cbn [mbind option_bind] in F. injection F as ->.
  assert (Hinv : invariant fs) by (eapply init_filesystem_invariant; exact E).
  exists fs, fs'. split; [exact Hinv|]. split; [exact Ed|].
  destruct (write_file_after_delete_file 3 fs fs' 2 2 [104; 105] [] Hinv ltac:(lia) Ed)
    as (Hz & _ & Hw & _ & Hcells); [unfold MAX_FILE_SIZE; lia|].
  split; [exact Hz|]. split; [exact Hw|]. exact (Hcells 1 ltac:(lia)).
Defined.

End FileData.

(** ** The file system: paths and deleted directories *)

Section Paths.

Import FS.

Lemma append_assoc (a b c : string) : ((a ++ b) ++ c = a ++ (b ++ c))%string.
Proof. induction a as [|x a IH]; cbn [append]; [reflexivity|]. rewrite IH. reflexivity. Qed.

Lemma append_nil_r (a : string) : (a ++ "" = a)%string.
Proof. induction a as [|x a IH]; cbn [append]; [reflexivity|]. rewrite IH. reflexivity. Qed.

(** The walk of [get_path_string] builds its text in front of what it was
    given. *)
Lemma path_from_acc fs : forall fuel d acc p,
  path_from fuel fs "" d = Some p ->
  path_from fuel fs acc d = Some (p ++ acc)%string.
Proof.
  assert (H : forall fuel d acc1 acc2 p,
            path_from fuel fs acc1 d = Some p ->
            path_from fuel fs (acc1 ++ acc2) d = Some (p ++ acc2)%string).
  { induction fuel as [|fuel IH]; intros d acc1 acc2 p E; [discriminate|].
    cbn [path_from] in *. destruct (negb (d =? 0)).
    - apply (IH _ _ acc2) in E. rewrite <- E. f_equal.
      cbn [append]. rewrite append_assoc. reflexivity.
    - injection E as <-. reflexivity. }
  intros fuel d acc p E. apply (H fuel d ""%string acc p E).
Qed.

Lemma path_from_split fs : forall fuel d acc p,
  path_from fuel fs acc d = Some p ->
  exists q, path_from fuel fs "" d = Some q /\ p = (q ++ acc)%string.
Proof.
  induction fuel as [|fuel IH]; intros d acc p E; [discriminate|].
  cbn [path_from] in *. destruct (negb (d =? 0)).
  - destruct (IH _ _ _ E) as (q1 & E1 & ->).
    exists (q1 ++ "/" ++ d_name (dir_at fs d) ++ "")%string. split.
    + apply path_from_acc. exact E1.
    + rewrite !append_assoc. cbn [append]. reflexivity.
  - injection E as <-. exists ""%string. split; reflexivity.
Qed.

Lemma get_path_string_step fs fuel d :
  d <> 0 ->
  get_path_string (S fuel) d fs
  = (q ← path_from fuel fs "" (d_parent_dir (dir_at fs d));
     Some (q ++ "/" ++ d_name (dir_at fs d))%string).
Proof.
  intros Hd. unfold get_path_string. cbn [path_from].
  destruct (Z.eqb_spec d 0); [contradiction|]. cbn [negb].
  destruct (path_from fuel fs "" (d_parent_dir (dir_at fs d))) as [q|] eqn:Eq.
  - rewrite (path_from_acc fs fuel _ _ q Eq). cbn [mbind option_bind].
    rewrite append_nil_r. f_equal.
    destruct q; reflexivity.
  - destruct (path_from fuel fs ("/" ++ d_name (dir_at fs d) ++ "")
                (d_parent_dir (dir_at fs d))) as [p|] eqn:Ep; [|reflexivity].
    destruct (path_from_split fs _ _ _ _ Ep) as (q & Eq' & _). congruence.
Qed.

(** X22.  The path [get_path_string] builds for a directory other than
    the root is the path of its parent, a slash, and its name; for a child
    of the root the parent's path ["/"] is left out.  The text is taken to
    be shorter than [MAX_PATH_LENGTH] characters, the most that the two
    buffers of the function hold with the terminator. *)
Theorem get_path_string_of_child (fuel : nat) (dir_id : Z) (fs : filesystem)
    (parent_path : string) :
  dir_id <> 0 ->
  get_path_string fuel (d_parent_dir (dir_at fs dir_id)) fs = Some parent_path ->
  Z.of_nat (String.length
              ((if Z.eqb (d_parent_dir (dir_at fs dir_id)) 0 then "" else parent_path)
               ++ "/" ++ d_name (dir_at fs dir_id))%string) < MAX_PATH_LENGTH ->
  get_path_string (S fuel) dir_id fs
  = Some ((if Z.eqb (d_parent_dir (dir_at fs dir_id)) 0 then "" else parent_path)
          ++ "/" ++ d_name (dir_at fs dir_id))%string.
Proof.
  intros Hd E _. rewrite (get_path_string_step fs fuel dir_id Hd).
  unfold get_path_string in E.
  destruct (path_from fuel fs "" (d_parent_dir (dir_at fs dir_id))) as [q|] eqn:Eq;
    [|discriminate].
  cbn [mbind option_bind] in *. injection E as <-. f_equal. f_equal.
  destruct (Z.eqb_spec (d_parent_dir (dir_at fs dir_id)) 0) as [E0|Hne].
  - rewrite E0 in Eq. destruct fuel as [|fuel]; [discriminate|].
    cbn [path_from] in Eq. rewrite Z.eqb_refl in Eq. cbn [negb] in Eq.
    injection Eq as <-. reflexivity.
  - destruct fuel as [|fuel]; [discriminate|]. cbn [path_from] in Eq.
    destruct (Z.eqb_spec (d_parent_dir (dir_at fs dir_id)) 0); [contradiction|].
    cbn [negb] in Eq. destruct (path_from_split fs _ _ _ _ Eq) as (q1 & _ & ->).
    destruct q1; reflexivity.
Qed.

Lemma get_path_string_of_child_witness :
  exists fs,
    2 <> 0 /\
    get_path_string 3 (d_parent_dir (dir_at fs 2)) fs = Some "/usr"%string /\
    get_path_string 4 2 fs = Some "/usr/bin"%string.
Proof.
  assert (F : (fs ← init_filesystem 3;
               '(fs, a) ← create_directory 3 "usr" fs;
               '(fs, b) ← create_directory 3 "bin" (set_current_directory a fs);
               p ← get_path_string 3 (d_parent_dir (dir_at fs 2)) fs;
               Some (p, d_parent_dir (dir_at fs 2) =? 0, d_name (dir_at fs 2)))
              = Some ("/usr"%string, false, "bin"%string))
    by (vm_compute; reflexivity).
  destruct (init_filesystem 3) as [fs0|]; [|discriminate].
  cbn [mbind option_bind] in F.
  destruct (create_directory 3 "usr" fs0) as [[fs1 a]|]; [|discriminate].
  cbn [mbind option_bind] in F.
  destruct (create_directory 3 "bin" _) as [[fs2 b]|]; [|discriminate].
  cbn [mbind option_bind] in F.
  destruct (get_path_string 3 _ fs2) as [p|] eqn:Ep; [|discriminate].
  cbn [mbind option_bind] in F. injection F as -> Hpar Hname.
  exists fs2. split; [discriminate|]. split; [exact Ep|].
  rewrite (get_path_string_of_child 3 2 fs2 "/usr" ltac:(discriminate) Ep).
  - rewrite Hpar, Hname. reflexivity.
  - rewrite Hpar, Hname. vm_compute. reflexivity.
Defined.

Lemma delete_directory_effect (fuel fuel' : nat) (dir_id child : Z) (fs fs' : filesystem)
    (r : Z) :
  invariant fs ->
  0 < dir_id < next_dir_id fs ->
  d_first_file (dir_at fs dir_id) = 0 ->
  d_parent_dir (dir_at fs child) = dir_id ->
  delete_directory fuel dir_id fs = Some (fs', r) ->
  r = 0 /\
  dir_at fs' dir_id = zero_dir /\
  current_directory fs' = current_directory fs /\
  d_parent_dir (dir_at fs' child) = dir_id /\
  get_path_string (3 + fuel') child fs'
  = Some ("//" ++ d_name (dir_at fs child))%string.
Proof.
  intros [Hs _] Hd Hempty Hchild. unfold delete_directory.
  pose proof (dirs_len _ Hs) as Hdl. pose proof (next_dir_range _ Hs) as Hnd.
  destruct (Z.geb_spec dir_id (next_dir_id fs)); [lia|].
  destruct (Z.eqb_spec dir_id 0); [lia|]. cbn [orb].
  rewrite Hempty, Z.eqb_refl. cbn [negb].
  destruct (seek_dir fuel fs dir_id 0 _) as [[prev_dir current_dir]|];
    cbn [mbind option_bind]; [|discriminate].
  set (fs1 := if current_dir =? dir_id then _ else fs).
  intros [= <- <-].
  assert (Hcd : child <> dir_id).
  { intros ->. pose proof (dirs_ok _ Hs dir_id) as (_ & Hp & _). lia. }
  assert (Hc0 : child <> 0).
  { intros ->. pose proof (dirs_ok _ Hs 0) as (Hp & _). lia. }
  assert (Hlen1 : length (directory_table fs1) = length (directory_table fs)).
  { subst fs1. destruct (current_dir =? dir_id); [destruct (prev_dir =? 0)|];
      try reflexivity; unfold set_dir; cbn [directory_table set_directory_table];
      apply length_aset. }
  assert (H1 : forall q, d_name (dir_at fs1 q) = d_name (dir_at fs q) /\
                         d_parent_dir (dir_at fs1 q) = d_parent_dir (dir_at fs q)).
  { intros q. subst fs1.
    destruct (current_dir =? dir_id); [destruct (prev_dir =? 0)|]; [| |auto];
      rewrite dir_at_set_dir;
      match goal with |- context [(?p =? q) && _ && _] =>
        destruct (Z.eqb_spec p q) as [<-|]; cbn [andb]; [|auto];
        destruct (_ && _); auto
      end. }
  assert (Hz : dir_at (set_dir fs1 dir_id zero_dir) dir_id = zero_dir).
  { rewrite dir_at_set_dir, Hlen1.
    destruct (Z.eqb_spec dir_id dir_id); [|lia].
    destruct (Z.leb_spec 0 dir_id); [|lia].
    destruct (Z.ltb_spec dir_id (Z.of_nat (length (directory_table fs)))); [|lia].
    reflexivity. }
  assert (Hc : dir_at (set_dir fs1 dir_id zero_dir) child = dir_at fs1 child).
  { rewrite dir_at_set_dir. destruct (Z.eqb_spec dir_id child); [congruence|reflexivity]. }
  split; [reflexivity|]. split; [exact Hz|].
  split; [subst fs1; destruct (current_dir =? dir_id); [destruct (prev_dir =? 0)|];
          reflexivity|].
  destruct (H1 child) as [Hname Hpar].
  split; [rewrite Hc, Hpar; exact Hchild|].
  unfold get_path_string. cbn [Nat.add path_from].
  destruct (Z.eqb_spec child 0); [contradiction|]. cbn [negb].
  rewrite Hc, Hpar, Hname, Hchild.
  destruct (Z.eqb_spec dir_id 0); [lia|]. cbn [negb].
  rewrite Hz. cbn [d_parent_dir d_name zero_dir]. rewrite Z.eqb_refl. cbn [negb].
  cbn [mbind option_bind append]. rewrite append_nil_r. reflexivity.
Qed.

(** X23.  [delete_directory] looks at the files of a directory only: a
    directory without files that still is the parent of another directory
    is deleted all the same, with [MAX_DIRECTORIES] turns allowed to its
    loop (so is the current directory, which stays current); the call
    returns 0, the child keeps pointing at the blank entry and its path
    becomes ["//"] followed by its name. *)
Theorem delete_directory_orphans (fuel fuel' : nat) (dir_id child : Z) (fs : filesystem) :
  invariant fs ->
  0 < dir_id < next_dir_id fs ->
  d_first_file (dir_at fs dir_id) = 0 ->
  d_parent_dir (dir_at fs child) = dir_id ->
  (Z.to_nat MAX_DIRECTORIES <= fuel)%nat ->
  exists fs',
    delete_directory fuel dir_id fs = Some (fs', 0) /\
    dir_at fs' dir_id = zero_dir /\
    current_directory fs' = current_directory fs /\
    d_parent_dir (dir_at fs' child) = dir_id /\
    get_path_string (3 + fuel') child fs'
    = Some ("//" ++ d_name (dir_at fs child))%string.
Proof.
  intros Hinv Hd Hempty Hchild Hfuel.
  destruct (delete_directory_total fuel dir_id fs Hinv ltac:(lia) Hfuel) as (fs' & r & E).
  destruct (delete_directory_effect fuel fuel' dir_id child fs fs' r Hinv Hd Hempty Hchild E)
    as (-> & Hz & Hc & Hp & Hpath).
  exists fs'. split; [exact E|]. split; [exact Hz|]. split; [exact Hc|].
  split; [exact Hp|exact Hpath].
Qed.

Lemma delete_directory_orphans_witness :
  exists fs,
    invariant fs /\ 0 < 1 < next_dir_id fs /\
    d_parent_dir (dir_at fs 2) = 1 /\
    get_path_string 3 2 fs = Some "/usr/bin"%string /\
    exists fs',
      delete_directory 50 1 fs = Some (fs', 0) /\
      get_path_string 3 2 fs' = Some "//bin"%string.
Proof.
  assert (F : (fs ← init_filesystem 3;
               '(fs, a) ← create_directory 3 "usr" fs;
               '(fs, b) ← create_directory 3 "bin" (set_current_directory a fs);
               p ← get_path_string 3 2 fs;
               Some (a, next_dir_id fs, d_first_file (dir_at fs 1),
                     d_parent_dir (dir_at fs 2), d_name (dir_at fs 2), p))
              = Some (1, 3, 0, 1, "bin"%string, "/usr/bin"%string))
    by (vm_compute; reflexivity).
  destruct (init_filesystem 3) as [fs0|] eqn:E0; [|discriminate].
  cbn [mbind option_bind] in F.
  destruct (create_directory 3 "usr" fs0) as [[fs1 a]|] eqn:E1; [|discriminate].
  cbn [mbind option_bind] in F.
  destruct (create_directory 3 "bin" _) as [[fs2 b]|] eqn:E2; [|discriminate].
  cbn [mbind option_bind] in F.
  destruct (get_path_string 3 2 fs2) as [p|] eqn:Ep; [|discriminate].
  cbn [mbind option_bind] in F. injection F as -> Hn Hf Hp Hname ->.
  assert (Hinv : invariant fs2).
  { eapply create_directory_invariant; [|exact E2].
    apply set_current_directory_invariant; [|lia].
    eapply create_directory_invariant; [|exact E1].
    eapply init_filesystem_invariant; exact E0. }
  assert (Hd : 0 < 1 < next_dir_id fs2) by (rewrite Hn; lia).
  assert (Hfuel : (Z.to_nat MAX_DIRECTORIES <= 50)%nat) by (vm_compute; reflexivity).
  exists fs2. split; [exact Hinv|]. split; [exact Hd|]. split; [exact Hp|].
  split; [exact Ep|].
  destruct (delete_directory_orphans 50 0 1 2 fs2 Hinv Hd Hf Hp Hfuel)
    as (fs3 & E3 & _ & _ & _ & Hpath).
  rewrite Hname in Hpath. exists fs3. split; [exact E3|exact Hpath].
Defined.

End Paths.

(** ** The file system: ids and deleted files *)

Section DeleteFile.

Import FS.








(** *** Taking a file out of its chain *)

Section Unlink.

Variables (fs fs' : filesystem) (id prev cur : Z).

Hypothesis links : forall q,
  f_next_file (file_at fs q) = 0 \/ 0 < q /\ q < f_next_file (file_at fs q).

Hypothesis relinked : forall q, q <> id ->
  f_next_file (file_at fs' q)
  = if (q =? prev) && (cur =? id) && negb (prev =? 0)
    then f_next_file (file_at fs id) else f_next_file (file_at fs q).

Hypothesis seek_link : prev = 0 \/ f_next_file (file_at fs prev) = cur.

(** Beyond [id] the chain is as it was. *)
Lemma files_from_beyond : forall fuel p l,
  p = 0 \/ id < p -> 0 <= id ->
  files_from fuel fs p = Some l ->
  files_from fuel fs' p = Some l /\ List.filter (fun x => negb (x =? id)) l = l.
Proof.
  induction fuel as [|fuel IH]; intros p l Hp Hid E; [discriminate|].
  cbn [files_from] in *. destruct (Z.eqb_spec p 0) as [->|Hp0]; cbn [negb] in *.
  - injection E as <-. split; reflexivity.
  - destruct (files_from fuel fs (f_next_file (file_at fs p))) as [rest|] eqn:Er;
      [|discriminate].
    cbn [mbind option_bind] in E. injection E as <-.
    assert (Hnext : f_next_file (file_at fs' p) = f_next_file (file_at fs p)).
    { rewrite relinked by lia.
      destruct (Z.eqb_spec p prev) as [->|]; cbn [andb]; [|reflexivity].
      destruct (Z.eqb_spec cur id) as [->|]; cbn [andb]; [|reflexivity].
      destruct (Z.eqb_spec prev 0); cbn [negb]; [reflexivity|].
      destruct seek_link as [|Hl]; [contradiction|].
      destruct (links prev); destruct (links id); lia. }
    rewrite Hnext.
    destruct (IH (f_next_file (file_at fs p)) rest) as [E' Hf];
      [destruct (links p); lia|exact Hid|exact Er|].
    rewrite E'. split; [reflexivity|]. cbn [List.filter]. cbv beta.
    destruct (Z.eqb_spec p id); [lia|]. cbn [negb]. rewrite Hf. reflexivity.
Qed.

(** The walk [delete_file] makes and the walk of [list_directory] side by
    side: from a file other than [id] on, the chain of [fs'] is that of
    [fs] without [id]. *)
Lemma files_from_unlinked : forall fuel fuel0 p prev0 l,
  0 < id -> p <> id ->
  files_from fuel fs p = Some l ->
  seek_file fuel0 fs id prev0 p = Some (prev, cur) ->
  files_from fuel fs' p = Some (List.filter (fun x => negb (x =? id)) l).
Proof.
  induction fuel as [|fuel IH]; intros fuel0 p prev0 l Hid Hp E Es; [discriminate|].
  destruct fuel0 as [|fuel0]; [discriminate|].
  cbn [files_from] in *. cbn [seek_file] in Es.
  destruct (Z.eqb_spec p id); [contradiction|].
  destruct (Z.eqb_spec p 0) as [->|Hp0]; cbn [negb andb] in *.
  - injection E as <-. reflexivity.
  - destruct (files_from fuel fs (f_next_file (file_at fs p))) as [rest|] eqn:Er;
      [|discriminate].
    cbn [mbind option_bind] in E. injection E as <-.
    cbn [List.filter]. cbv beta.
    destruct (Z.eqb_spec p id); [contradiction|]. cbn [negb].
    destruct (Z.eq_dec (f_next_file (file_at fs p)) id) as [Enext|Hnext].
    + rewrite Enext in Es, Er.
      destruct fuel0 as [|fuel0]; [discriminate|]. cbn [seek_file] in Es.
      rewrite Z.eqb_refl in Es. cbn [negb andb] in Es. injection Es as Eprev Ecur.
      rewrite relinked by exact Hp.
      rewrite <- Eprev, <- Ecur.
      rewrite !Z.eqb_refl. destruct (Z.eqb_spec p 0); [contradiction|]. cbn [negb andb].
      destruct fuel as [|fuel]; [discriminate|]. cbn [files_from] in Er.
      destruct (Z.eqb_spec id 0); [lia|]. cbn [negb] in Er.
      destruct (files_from fuel fs (f_next_file (file_at fs id))) as [rest2|] eqn:Er2;
        [|discriminate].
      cbn [mbind option_bind] in Er. injection Er as <-.
      cbn [List.filter]. cbv beta. rewrite Z.eqb_refl. cbn [negb].
      destruct (files_from_beyond fuel (f_next_file (file_at fs id)) rest2) as [E' Hf];
        [destruct (links id); lia|lia|exact Er2|].
      rewrite (files_from_more fs' fuel (S fuel) _ rest2 E') by lia.
      rewrite Hf. reflexivity.
    + assert (Hsame : f_next_file (file_at fs' p) = f_next_file (file_at fs p)).
      { rewrite relinked by exact Hp.
        destruct (Z.eqb_spec p prev) as [->|]; cbn [andb]; [|reflexivity].
        destruct (Z.eqb_spec cur id) as [->|]; cbn [andb]; [|reflexivity].
        destruct (Z.eqb_spec prev 0); cbn [negb]; [reflexivity|].
        destruct seek_link as [|Hl]; contradiction. }
      rewrite Hsame.
      rewrite (IH fuel0 _ p rest Hid Hnext Er Es). reflexivity.
Qed.

End Unlink.

(** The walk of [delete_file] ends on a file of the chain once it has
    passed one. *)
Lemma seek_file_prev fs file_id : forall fuel prev cur prev' cur',
  prev <> 0 -> seek_file fuel fs file_id prev cur = Some (prev', cur') -> prev' <> 0.
Proof.
  induction fuel as [|fuel IH]; intros prev cur prev' cur' Hp E; [discriminate|].
  cbn [seek_file] in E.
  destruct (Z.eqb_spec cur file_id); cbn [negb andb] in E; [congruence|].
  destruct (Z.eqb_spec cur 0); cbn [negb] in E; [congruence|].
  apply (IH _ _ _ _ n0 E).
Qed.

Lemma filter_keeps {A} (f : A -> bool) (l : list A) :
  Forall (fun x => f x = true) (List.filter f l).
Proof.
  induction l as [|x l IH]; cbn [List.filter]; [constructor|].
  destruct (f x) eqn:E; [constructor; assumption|assumption].
Qed.

Lemma seek_file_range fs file_id : shape fs -> forall fuel prev cur prev' cur',
  prev = 0 \/ 0 < prev < next_file_id fs -> 0 <= cur < next_file_id fs ->
  seek_file fuel fs file_id prev cur = Some (prev', cur') ->
  prev' = 0 \/ 0 < prev' < next_file_id fs.
Proof.
  intros Hs. induction fuel as [|fuel IH]; intros prev cur prev' cur' Hp Hc E;
    [discriminate|].
  cbn [seek_file] in E.
  destruct (Z.eqb_spec cur file_id); cbn [negb andb] in E; [injection E as <- _; exact Hp|].
  destruct (Z.eqb_spec cur 0); cbn [negb] in E; [injection E as <- _; exact Hp|].
  apply (IH cur (f_next_file (file_at fs cur)) prev' cur'); [right; lia| |exact E].
  pose proof (files_ok _ Hs cur) as (_ & _ & [H|H]); lia.
Qed.

Lemma delete_file_effect (fuel fuel' : nat) (file_id : Z) (nm : string)
    (fs fs' : filesystem) (r : Z) (files subdirs : list Z) :
  invariant fs ->
  0 <= file_id < next_file_id fs ->
  0 <= f_parent_dir (file_at fs file_id) < next_dir_id fs ->
  list_directory fuel' (f_parent_dir (file_at fs file_id)) fs = Some (files, subdirs) ->
  delete_file fuel file_id fs = Some (fs', r) ->
  let rest := List.filter (fun x => negb (x =? file_id)) files in
  r = 0 /\
  file_at fs' file_id = zero_file /\
  list_directory fuel' (f_parent_dir (file_at fs file_id)) fs' = Some (rest, subdirs) /\
  find_file fuel' nm (f_parent_dir (file_at fs file_id)) fs'
  = Some (default NOT_FOUND
            (List.find (fun i => String.eqb (f_name (file_at fs i)) nm) rest)).
Proof.
  intros [Hs Ho] Hid Hpar El Ed rest.
  pose proof (files_len _ Hs) as Hfl. pose proof (dirs_len _ Hs) as Hdl.
  pose proof (next_file_range _ Hs) as Hnf. pose proof (next_dir_range _ Hs) as Hnd.
  set (d := f_parent_dir (file_at fs file_id)) in *.
  destruct (list_directory_walks fuel' d fs files subdirs ltac:(lia) El) as [Ef Edirs].
  assert (Hlinks : forall q, f_next_file (file_at fs q) = 0 \/
                     0 < q /\ q < f_next_file (file_at fs q)).
  { intros q. pose proof (files_ok _ Hs q) as (_ & _ & [H|H]); [left; exact H|right; lia]. }
  assert (Hbelow : forall q, f_next_file (file_at fs q) < MAX_FILES).
  { intros q. pose proof (files_ok _ Hs q) as (_ & _ & [H|H]); unfold MAX_FILES in *; lia. }
  revert Ed. unfold delete_file. fold d.
  destruct (Z.geb_spec file_id (next_file_id fs)); [lia|].
  destruct (seek_file fuel fs file_id 0 (d_first_file (dir_at fs d)))
    as [[prev cur]|] eqn:Es; cbn [mbind option_bind]; [|discriminate].
  destruct (seek_file_link fs file_id fuel 0 _ prev cur ltac:(left; reflexivity) Es)
    as [Hlink Hcur].
  set (fs1 := if cur =? file_id then _ else fs). intros [= Efs <-].
  (* the walk of [delete_file] stops at once, or on a file of the chain *)
  assert (Hstop : prev = 0 ->
            cur = d_first_file (dir_at fs d) /\
            (d_first_file (dir_at fs d) = 0 \/ d_first_file (dir_at fs d) = file_id)).
  { intros Hp. destruct fuel as [|fuel]; [discriminate|]. cbn [seek_file] in Es.
    destruct (Z.eqb_spec (d_first_file (dir_at fs d)) file_id) as [E1|N1];
      cbn [negb andb] in Es; [injection Es as _ <-; auto|].
    destruct (Z.eqb_spec (d_first_file (dir_at fs d)) 0) as [E0|N0];
      cbn [negb] in Es; [injection Es as _ <-; auto|].
    exfalso. exact (seek_file_prev fs file_id fuel _ _ prev cur N0 Es Hp). }
  assert (Hprev : prev <> 0 -> 0 < prev < MAX_FILES).
  { intros Hp. pose proof (dirs_ok _ Hs d) as (_ & _ & _ & Hfirst).
    destruct (seek_file_range fs file_id Hs fuel 0 (d_first_file (dir_at fs d)) prev cur)
      as [|Hr]; [left; reflexivity|lia|exact Es|contradiction|lia]. }
  assert (Hlen1 : length (file_table fs1) = length (file_table fs)).
  { subst fs1. destruct (cur =? file_id); [destruct (prev =? 0)|];
      try reflexivity. unfold set_file. cbn [file_table set_file_table]. apply length_aset. }
  assert (Hf1 : forall q, file_at fs1 q
                  = if (q =? prev) && (cur =? file_id) && negb (prev =? 0)
                    then with_next_file (file_at fs q) (f_next_file (file_at fs file_id))
                    else file_at fs q).
  { intros q. subst fs1. destruct (Z.eqb_spec cur file_id) as [Ec|]; cbn [andb];
      [|rewrite andb_false_r; reflexivity].
    destruct (Z.eqb_spec prev 0) as [Ep|Hp]; cbn [negb andb];
      [rewrite andb_false_r; reflexivity|].
    rewrite andb_true_r. rewrite file_at_set_file.
    pose proof (Hprev Hp).
    destruct (Z.eqb_spec prev q) as [<-|Hq].
    - destruct (Z.leb_spec 0 prev); [|lia].
      destruct (Z.ltb_spec prev (Z.of_nat (length (file_table fs)))); [|lia].
      rewrite Z.eqb_refl. reflexivity.
    - destruct (Z.eqb_spec q prev); [congruence|reflexivity]. }
  assert (Hat : forall q, file_at fs' q = if q =? file_id then zero_file else file_at fs1 q).
  { intros q. subst fs'. rewrite file_at_set_file, Hlen1.
    destruct (Z.eqb_spec file_id q) as [<-|Hq].
    - destruct (Z.leb_spec 0 file_id); [|lia].
      destruct (Z.ltb_spec file_id (Z.of_nat (length (file_table fs)))); [|lia].
      rewrite Z.eqb_refl. reflexivity.
    - destruct (Z.eqb_spec q file_id); [congruence|reflexivity]. }
  assert (Hrel : forall q, q <> file_id ->
            f_next_file (file_at fs' q)
            = if (q =? prev) && (cur =? file_id) && negb (prev =? 0)
              then f_next_file (file_at fs file_id) else f_next_file (file_at fs q)).
  { intros q Hq. rewrite Hat. destruct (Z.eqb_spec q file_id); [contradiction|].
    rewrite Hf1. destruct (_ && _ && _); reflexivity. }
  assert (Hnames : forall q, q <> file_id -> f_name (file_at fs' q) = f_name (file_at fs q)).
  { intros q Hq. rewrite Hat. destruct (Z.eqb_spec q file_id); [contradiction|].
    rewrite Hf1. destruct (_ && _ && _); reflexivity. }
  assert (Hdnext : forall q, d_next_dir (dir_at fs' q) = d_next_dir (dir_at fs q)).
  { intros q. subst fs'. change (dir_at (set_file fs1 file_id zero_file) q) with (dir_at fs1 q).
    subst fs1. destruct (cur =? file_id); [destruct (prev =? 0)|]; try reflexivity.
    rewrite dir_at_set_dir. destruct (Z.eqb_spec d q) as [<-|]; cbn [andb]; [|reflexivity].
    destruct (_ && _); reflexivity. }
  assert (Hdfirst : d_first_file (dir_at fs' d)
                    = if (cur =? file_id) && (prev =? 0)
                      then f_next_file (file_at fs file_id)
                      else d_first_file (dir_at fs d)).
  { subst fs'. change (dir_at (set_file fs1 file_id zero_file) d) with (dir_at fs1 d).
    subst fs1. destruct (cur =? file_id); [destruct (prev =? 0)|]; cbn [andb];
      try reflexivity.
    rewrite dir_at_set_dir. destruct (Z.eqb_spec d d); [|lia].
    destruct (Z.leb_spec 0 d); [|lia].
    destruct (Z.ltb_spec d (Z.of_nat (length (directory_table fs)))); [|lia].
    reflexivity. }
  assert (Hnd' : next_dir_id fs' = next_dir_id fs).
  { subst fs' fs1. destruct (cur =? file_id); [destruct (prev =? 0)|]; reflexivity. }
  (* the chain of the directory in the new state *)
  assert (Hwalk : files_from fuel' fs' (d_first_file (dir_at fs' d)) = Some rest).
  { rewrite Hdfirst. subst rest.
    destruct (Z.eq_dec file_id 0) as [E0|N0].
    - (* file 0 is in no chain *)
      assert (Hfirst' : (if (cur =? file_id) && (prev =? 0)
                         then f_next_file (file_at fs file_id)
                         else d_first_file (dir_at fs d)) = d_first_file (dir_at fs d)).
      { destruct (Z.eqb_spec cur file_id) as [Ec|]; cbn [andb]; [|reflexivity].
        destruct (Z.eqb_spec prev 0) as [Ep|]; [|reflexivity].
        destruct (Hstop Ep) as [_ [Hx|Hx]]; destruct (Hlinks file_id); lia. }
      rewrite Hfirst'.
      destruct (files_from_beyond fs fs' file_id prev cur Hlinks Hrel Hlink fuel'
                  (d_first_file (dir_at fs d)) files) as [E' Hf]; [|lia|exact Ef|].
      + pose proof (dirs_ok _ Hs d) as (_ & _ & _ & Hfirst). lia.
      + rewrite E'. f_equal. symmetry. exact Hf.
    - destruct (Z.eq_dec (d_first_file (dir_at fs d)) file_id) as [E1|N1].
      + (* the file is the first of its directory *)
        assert (Hpc : prev = 0 /\ cur = file_id).
        { destruct fuel as [|fuel]; [discriminate|]. cbn [seek_file] in Es.
          rewrite E1, Z.eqb_refl in Es. cbn [negb andb] in Es.
          injection Es as <- <-. split; reflexivity. }
        destruct Hpc as [-> ->]. rewrite !Z.eqb_refl. cbn [andb].
        rewrite E1 in Ef. destruct fuel' as [|fuel']; [discriminate|].
        cbn [files_from] in Ef. destruct (Z.eqb_spec file_id 0); [contradiction|].
        cbn [negb] in Ef.
        destruct (files_from fuel' fs (f_next_file (file_at fs file_id))) as [rest0|] eqn:Er;
          [|discriminate].
        cbn [mbind option_bind] in Ef. injection Ef as <-.
        cbn [List.filter]. rewrite Z.eqb_refl. cbn [negb].
        destruct (files_from_beyond fs fs' file_id 0 file_id Hlinks Hrel Hlink fuel'
                    (f_next_file (file_at fs file_id)) rest0) as [E' Hf];
          [destruct (Hlinks file_id); lia|lia|exact Er|].
        rewrite Hf. apply (files_from_more fs' fuel'); [exact E'|lia].
      + (* the file is further down the chain, or not in it *)
        assert (Hkeep : (cur =? file_id) && (prev =? 0) = false).
        { destruct (Z.eqb_spec cur file_id) as [Ec|]; [|reflexivity].
          destruct (Z.eqb_spec prev 0) as [Ep|]; [|reflexivity].
          destruct (Hstop Ep) as [Hc [Hx|Hx]]; lia. }
        rewrite Hkeep.
        apply (files_from_unlinked fs fs' file_id prev cur Hlinks Hrel Hlink fuel' fuel
                 (d_first_file (dir_at fs d)) 0 files); [lia|exact N1|exact Ef|exact Es]. }
  split; [reflexivity|]. split; [rewrite Hat, Z.eqb_refl; reflexivity|]. split.
  - unfold list_directory. rewrite Hnd'.
    destruct (Z.geb_spec d (next_dir_id fs)); [lia|].
    rewrite Hwalk, Hdnext, (dirs_from_ext fs fs' Hdnext), Edirs. reflexivity.
  - unfold find_file. rewrite (find_file_from_listed fs' nm _ _ _ Hwalk). f_equal. f_equal.
    apply find_ext_in.
    eapply Forall_impl; [apply (filter_keeps (fun x => negb (x =? file_id)) files)|].
    intros x Hx. cbn beta in *. apply negb_true_iff, Z.eqb_neq in Hx.
    rewrite Hnames by exact Hx. reflexivity.
Qed.

(** X25.  [delete_file] on a file id in use, its loop allowed [MAX_FILES]
    turns, returns 0, blanks the entry and takes the file out of the chain
    of its parent directory: [list_directory] then walks the files it walked
    before without the deleted one, in the same order, and [find_file] finds
    the first of these that bears the name. *)
Theorem delete_file_unlinks (fuel fuel' : nat) (file_id : Z) (nm : string)
    (fs : filesystem) (files subdirs : list Z) :
  invariant fs ->
  0 <= file_id < next_file_id fs ->
  0 <= f_parent_dir (file_at fs file_id) < next_dir_id fs ->
  list_directory fuel' (f_parent_dir (file_at fs file_id)) fs = Some (files, subdirs) ->
  (Z.to_nat MAX_FILES <= fuel)%nat ->
  exists fs',
    delete_file fuel file_id fs = Some (fs', 0) /\
    file_at fs' file_id = zero_file /\
    list_directory fuel' (f_parent_dir (file_at fs file_id)) fs'
    = Some (List.filter (fun x => negb (x =? file_id)) files, subdirs) /\
    find_file fuel' nm (f_parent_dir (file_at fs file_id)) fs'
    = Some (default NOT_FOUND
              (List.find (fun i => String.eqb (f_name (file_at fs i)) nm)
                 (List.filter (fun x => negb (x =? file_id)) files))).
Proof.
  intros Hinv Hid Hpar El Hfuel.
  destruct (delete_file_total fuel file_id fs Hinv Hfuel) as (fs' & r & Ed).
  destruct (delete_file_effect fuel fuel' file_id nm fs fs' r files subdirs
              Hinv Hid Hpar El Ed) as (-> & Hz & Hl & Hf).
  exists fs'. split; [exact Ed|]. split; [exact Hz|]. split; [exact Hl|exact Hf].
Qed.

Lemma delete_file_unlinks_witness :
  exists fs,
    invariant fs /\ 0 <= 1 < next_file_id fs /\
    0 <= f_parent_dir (file_at fs 1) < next_dir_id fs /\
    list_directory 3 (f_parent_dir (file_at fs 1)) fs = Some ([1; 2], []) /\
    exists fs',
      delete_file 100 1 fs = Some (fs', 0) /\
      list_directory 3 (f_parent_dir (file_at fs 1)) fs' = Some ([2], []).
Proof.
  assert (F : (fs ← init_filesystem 3;
               listing ← list_directory 3 (f_parent_dir (file_at fs 1)) fs;
               Some (next_file_id fs, next_dir_id fs, f_parent_dir (file_at fs 1),
                     listing)) = Some (3, 1, 0, ([1; 2], [])))
    by (vm_compute; reflexivity).
  destruct (init_filesystem 3) as [fs|] eqn:E; [|discriminate].
  cbn [mbind option_bind] in F.
  destruct (list_directory 3 _ fs) as [listing|] eqn:El; [|discriminate].
  cbn [mbind option_bind] in F. injection F as Hn Hnd Hp ->.
  assert (Hinv : invariant fs) by (eapply init_filesystem_invariant; exact E).
  assert (Hid : 0 <= 1 < next_file_id fs) by (rewrite Hn; lia).
  assert (Hpar : 0 <= f_parent_dir (file_at fs 1) < next_dir_id fs)
    by (rewrite Hp, Hnd; lia).
  assert (Hfuel : (Z.to_nat MAX_FILES <= 100)%nat) by (vm_compute; reflexivity).
  exists fs. split; [exact Hinv|]. split; [exact Hid|]. split; [exact Hpar|].
  split; [exact El|].
  destruct (delete_file_unlinks 100 3 1 "shell.bin" fs [1; 2] [] Hinv Hid Hpar El Hfuel)
    as (fs' & Ed & _ & Hl & _).
  exists fs'. split; [exact Ed|exact Hl].
Defined.

End DeleteFile.

(** ** The file system: creating a directory *)

Section CreateDirectory.

Import FS.

Lemma last_dir_below fs fs2 id :
  (forall q, 0 <= q < id -> d_next_dir (dir_at fs2 q) = d_next_dir (dir_at fs q)) ->
  (forall q, d_next_dir (dir_at fs q) = 0 \/ q < d_next_dir (dir_at fs q) < id) ->
  forall fuel p, 0 <= p < id -> last_dir fuel fs2 p = last_dir fuel fs p.
Proof.
  intros Hsame Hlinks. induction fuel as [|fuel IH]; intros p Hp; [reflexivity|].
  cbn [last_dir]. rewrite Hsame by exact Hp.
  destruct (Z.eqb_spec (d_next_dir (dir_at fs p)) 0); cbn [negb]; [reflexivity|].
  apply IH. destruct (Hlinks p); lia.
Qed.

(** Hanging a new last element [id] on the chain that ends at [last]. *)
Lemma dirs_from_hang fs fs' id last :
  id <> 0 ->
  (forall q, d_next_dir (dir_at fs q) = 0 \/ q < d_next_dir (dir_at fs q) < id) ->
  (forall q, q <> id -> q <> last ->
             d_next_dir (dir_at fs' q) = d_next_dir (dir_at fs q)) ->
  d_next_dir (dir_at fs' last) = id ->
  d_next_dir (dir_at fs' id) = 0 ->
  forall fuel fuel0 p l,
    0 < p < id -> dirs_from fuel fs p = Some l -> last_dir fuel0 fs p = Some last ->
    dirs_from (S fuel) fs' p = Some (l ++ [id]).
Proof.
  intros Hid Hlinks Hsame Hlast Hnew.
  induction fuel as [|fuel IH]; intros fuel0 p l Hp E El; [discriminate|].
  destruct fuel0 as [|fuel0]; [discriminate|].
  cbn [dirs_from] in E. cbn [last_dir] in El.
  destruct (Z.eqb_spec p 0) as [|Hp0]; [lia|]. cbn [negb] in E.
  destruct (dirs_from fuel fs (d_next_dir (dir_at fs p))) as [rest|] eqn:Er;
    [|discriminate].
  cbn [mbind option_bind] in E. injection E as <-.
  destruct (Z.eqb_spec (d_next_dir (dir_at fs p)) 0) as [E0|Hn0]; cbn [negb] in El.
  - injection El as <-. rewrite E0 in Er.
    destruct fuel as [|fuel]; [discriminate|]. cbn [dirs_from] in Er.
    rewrite Z.eqb_refl in Er. cbn [negb] in Er. injection Er as <-.
    cbn [dirs_from app]. destruct (Z.eqb_spec p 0); [lia|]. cbn [negb].
    rewrite Hlast. destruct (Z.eqb_spec id 0); [lia|]. cbn [negb].
    rewrite Hnew, Z.eqb_refl. cbn [negb mbind option_bind]. reflexivity.
  - assert (Hnext : p < d_next_dir (dir_at fs p) < id) by (destruct (Hlinks p); lia).
    assert (Hl : p < last).
    { apply (last_dir_keeps (fun x => p < x) fs) with (3 := El); [|lia].
      intros q Hq Hq0. destruct (Hlinks q); lia. }
    change (dirs_from (S (S fuel)) fs' p)
      with (if negb (p =? 0)
            then rest ← dirs_from (S fuel) fs' (d_next_dir (dir_at fs' p));
                 Some (p :: rest)
            else Some []).
    destruct (Z.eqb_spec p 0); [lia|]. cbn [negb].
    rewrite Hsame by lia.
    rewrite (IH fuel0 _ rest) by (try lia; assumption).
    reflexivity.
Qed.

Lemma create_directory_effect (fuel fuel' : nat) (nm : string)
    (fs fs' : filesystem) (r : Z) (files subdirs : list Z) :
  invariant fs -> next_dir_id fs < MAX_DIRECTORIES ->
  create_directory fuel nm fs = Some (fs', r) ->
  list_directory fuel' (current_directory fs) fs = Some (files, subdirs) ->
  r = next_dir_id fs /\ next_dir_id fs' = r + 1 /\
  current_directory fs' = current_directory fs /\
  dir_at fs' r = mk_dir (strncpy_name nm) (current_directory fs) 0 0 /\
  list_directory (S fuel') (current_directory fs) fs' = Some (files, subdirs ++ [r]) /\
  find_directory (S fuel') (strncpy_name nm) (current_directory fs) fs'
  = Some (default r
            (List.find (fun i => String.eqb (d_name (dir_at fs i)) (strncpy_name nm))
               subdirs)).
Proof.
  intros [Hs Ho] Hid Ec El.
  pose proof (current_range _ Hs) as Hc. pose proof (dirs_len _ Hs) as Hdl.
  pose proof (next_dir_range _ Hs) as Hnd.
  set (c := current_directory fs) in *.
  destruct (list_directory_walks fuel' c fs files subdirs ltac:(lia) El) as [Ef Ed].
  assert (Hlinks : forall q, d_next_dir (dir_at fs q) = 0 \/
                     q < d_next_dir (dir_at fs q) < next_dir_id fs).
  { intros q. pose proof (dirs_ok _ Hs q) as (_ & _ & H & _). exact H. }
  revert Ec. unfold create_directory.
  destruct (Z.geb_spec (next_dir_id fs) MAX_DIRECTORIES) as [|Hlt]; [lia|].
  set (id := next_dir_id fs) in *.
  rewrite (wrap32_small (id + 1)) by (unfold MAX_DIRECTORIES in *; lia).
  set (e := mk_dir _ _ _ _).
  set (fs1 := set_dir (set_next_dir_id fs _) _ e).
  assert (He : e = mk_dir (strncpy_name nm) c 0 0) by reflexivity.
  assert (H1 : forall q, dir_at fs1 q = if q =? id then e else dir_at fs q).
  { intros q. subst fs1. rewrite dir_at_set_dir. cbn [directory_table set_next_dir_id].
    destruct (Z.eqb_spec id q) as [<-|Hq].
    - destruct (Z.leb_spec 0 id); [|lia].
      destruct (Z.ltb_spec id (Z.of_nat (length (directory_table fs)))); [|lia].
      rewrite Z.eqb_refl. reflexivity.
    - destruct (Z.eqb_spec q id); [congruence|reflexivity]. }
  assert (Hlen1 : length (directory_table fs1) = length (directory_table fs)).
  { subst fs1. unfold set_dir. cbn [directory_table set_directory_table set_next_dir_id].
    apply length_aset. }
  change (current_directory fs1) with c.
  assert (Hc1 : dir_at fs1 c = dir_at fs c).
  { rewrite H1. destruct (Z.eqb_spec c id); [lia|reflexivity]. }
  rewrite Hc1.
  assert (Hfinal : forall fs2 : filesystem,
            next_dir_id fs2 = id + 1 -> current_directory fs2 = c ->
            file_table fs2 = file_table fs ->
            dir_at fs2 id = e ->
            d_first_file (dir_at fs2 c) = d_first_file (dir_at fs c) ->
            (forall q, q <> id -> d_name (dir_at fs2 q) = d_name (dir_at fs q)) ->
            dirs_from (S fuel') fs2 (d_next_dir (dir_at fs2 c)) = Some (subdirs ++ [id]) ->
            Forall (fun x => x <> id) subdirs ->
            id = id /\ next_dir_id fs2 = id + 1 /\ current_directory fs2 = c /\
            dir_at fs2 id = mk_dir (strncpy_name nm) c 0 0 /\
            list_directory (S fuel') c fs2 = Some (files, subdirs ++ [id]) /\
            find_directory (S fuel') (strncpy_name nm) c fs2
            = Some (default id
                      (List.find
                         (fun i => String.eqb (d_name (dir_at fs i)) (strncpy_name nm))
                         subdirs))).
  { intros fs2 Hn2 Hc2 Hft Hnew Hfirst Hnames Hwalk Hne.
    split; [reflexivity|]. split; [exact Hn2|]. split; [exact Hc2|].
    split; [rewrite Hnew; exact He|]. split.
    - unfold list_directory. rewrite Hn2.
      destruct (Z.geb_spec c (id + 1)); [lia|].
      rewrite Hfirst, Hwalk.
      assert (Efs : files_from (S fuel') fs2 (d_first_file (dir_at fs c)) = Some files).
      { rewrite (files_from_ext fs fs2); [apply (files_from_more fs fuel'); [exact Ef|lia]|].
        intros q. unfold file_at. rewrite Hft. reflexivity. }
      rewrite Efs. reflexivity.
    - unfold find_directory. rewrite (find_directory_from_listed fs2 _ _ _ _ Hwalk).
      f_equal. rewrite find_app_one.
      rewrite (find_ext_in _ (fun i => String.eqb (d_name (dir_at fs i)) (strncpy_name nm))
                 subdirs).
      + destruct (List.find _ subdirs); [reflexivity|].
        rewrite Hnew, He. cbn [d_name]. rewrite String.eqb_refl. reflexivity.
      + eapply Forall_impl; [exact Hne|]. intros x Hx. cbn beta in *.
        rewrite Hnames by exact Hx. reflexivity. }
  assert (Hrange : forall fuel0 p l, 0 <= p < id -> dirs_from fuel0 fs p = Some l ->
                     Forall (fun x => x <> id) l).
  { induction fuel0 as [|fuel0 IH]; intros p l Hp E; [discriminate|].
    cbn [dirs_from] in E. destruct (Z.eqb_spec p 0) as [->|Hp0]; cbn [negb] in E.
    - injection E as <-. constructor.
    - destruct (dirs_from fuel0 fs (d_next_dir (dir_at fs p))) as [rest|] eqn:Er;
        [|discriminate].
      cbn [mbind option_bind] in E. injection E as <-. constructor; [lia|].
      apply (IH (d_next_dir (dir_at fs p))); [|exact Er].
      destruct (Hlinks p); unfold id in *; lia. }
  assert (Hne : Forall (fun x => x <> id) subdirs).
  { apply (Hrange fuel' (d_next_dir (dir_at fs c)) subdirs); [|exact Ed].
    destruct (Hlinks c); unfold id in *; lia. }
  destruct (Z.eqb_spec (d_next_dir (dir_at fs c)) 0) as [E0|Hn0].
  - cbn [mbind option_bind]. set (fs2 := set_dir fs1 c _). intros [= <- <-].
    assert (H2 : forall q, dir_at fs2 q
                   = if q =? c then with_next_dir (dir_at fs c) id else dir_at fs1 q).
    { intros q. subst fs2. rewrite dir_at_set_dir, Hlen1.
      destruct (Z.eqb_spec c q) as [<-|Hq].
      - destruct (Z.leb_spec 0 c); [|lia].
        destruct (Z.ltb_spec c (Z.of_nat (length (directory_table fs)))); [|lia].
        rewrite Z.eqb_refl. reflexivity.
      - destruct (Z.eqb_spec q c); [congruence|reflexivity]. }
    apply Hfinal; try reflexivity.
    + rewrite H2. destruct (Z.eqb_spec id c); [lia|]. rewrite H1, Z.eqb_refl. reflexivity.
    + rewrite H2, Z.eqb_refl. reflexivity.
    + intros q Hq. rewrite H2. destruct (Z.eqb_spec q c) as [->|]; [reflexivity|].
      rewrite H1. destruct (Z.eqb_spec q id); [contradiction|reflexivity].
    + rewrite H2, Z.eqb_refl. cbn [d_next_dir with_next_dir].
      rewrite E0 in Ed. destruct fuel' as [|fuel']; [discriminate|].
      cbn [dirs_from] in Ed. rewrite Z.eqb_refl in Ed. cbn [negb] in Ed.
      injection Ed as <-. cbn [dirs_from app].
      destruct (Z.eqb_spec id 0); [lia|]. cbn [negb].
      rewrite H2. destruct (Z.eqb_spec id c); [lia|]. rewrite H1, Z.eqb_refl, He.
      cbn [d_next_dir]. rewrite Z.eqb_refl. cbn [negb mbind option_bind]. reflexivity.
    + exact Hne.
  - assert (Hf0 : c < d_next_dir (dir_at fs c) < id) by (destruct (Hlinks c); lia).
    destruct (last_dir fuel fs1 _) as [last|] eqn:Elast; cbn [mbind option_bind];
      [|discriminate].
    set (fs2 := set_dir fs1 last _). intros [= <- <-].
    rewrite (last_dir_below fs fs1 id) in Elast;
      [|intros q Hq; rewrite H1; destruct (Z.eqb_spec q id); [lia|reflexivity]
       |exact Hlinks|lia].
    assert (Hlast : c < last < id).
    { apply (last_dir_keeps (fun x => c < x < id) fs) with (3 := Elast); [|lia].
      intros q Hq Hq0. destruct (Hlinks q); lia. }
    assert (H2 : forall q, dir_at fs2 q
                   = if q =? last then with_next_dir (dir_at fs last) id else dir_at fs1 q).
    { intros q. subst fs2. rewrite dir_at_set_dir, Hlen1.
      rewrite (H1 last). destruct (Z.eqb_spec last id); [lia|].
      destruct (Z.eqb_spec last q) as [<-|Hq].
      - destruct (Z.leb_spec 0 last); [|lia].
        destruct (Z.ltb_spec last (Z.of_nat (length (directory_table fs)))); [|lia].
        rewrite Z.eqb_refl. reflexivity.
      - destruct (Z.eqb_spec q last); [congruence|reflexivity]. }
    assert (H2c : dir_at fs2 c = dir_at fs c).
    { rewrite H2. destruct (Z.eqb_spec c last); [lia|]. exact Hc1. }
    apply Hfinal; try reflexivity.
    + rewrite H2. destruct (Z.eqb_spec id last); [lia|]. rewrite H1, Z.eqb_refl. reflexivity.
    + rewrite H2c. reflexivity.
    + intros q Hq. rewrite H2. destruct (Z.eqb_spec q last) as [->|]; [reflexivity|].
      rewrite H1. destruct (Z.eqb_spec q id); [contradiction|reflexivity].
    + rewrite H2c.
      apply (dirs_from_hang fs fs2 id last) with (fuel0 := fuel);
        [lia|exact Hlinks| | | |lia|exact Ed|exact Elast].
      * intros q Hq Hql. rewrite H2. destruct (Z.eqb_spec q last); [contradiction|].
        rewrite H1. destruct (Z.eqb_spec q id); [contradiction|reflexivity].
      * rewrite H2, Z.eqb_refl. reflexivity.
      * rewrite H2. destruct (Z.eqb_spec id last); [lia|]. rewrite H1, Z.eqb_refl, He.
        reflexivity.
    + exact Hne.
Qed.

(** X26.  [create_directory] with a slot left, its loop allowed
    [MAX_DIRECTORIES] turns: it returns [next_dir_id] and counts it up, the
    new entry holds the first 31 characters of the name and the current
    directory as parent, the directories [list_directory] walks from the
    current directory are those it walked before followed by the new one,
    and [find_directory] on the stored name finds the first directory of
    that walk bearing it, the new one if none did before. *)
Theorem create_directory_appends (fuel fuel' : nat) (nm : string)
    (fs : filesystem) (files subdirs : list Z) :
  invariant fs -> next_dir_id fs < MAX_DIRECTORIES ->
  (Z.to_nat MAX_DIRECTORIES <= fuel)%nat ->
  list_directory fuel' (current_directory fs) fs = Some (files, subdirs) ->
  exists fs',
    create_directory fuel nm fs = Some (fs', next_dir_id fs) /\
    next_dir_id fs' = next_dir_id fs + 1 /\
    current_directory fs' = current_directory fs /\
    dir_at fs' (next_dir_id fs) = mk_dir (strncpy_name nm) (current_directory fs) 0 0 /\
    list_directory (S fuel') (current_directory fs) fs'
    = Some (files, subdirs ++ [next_dir_id fs]) /\
    find_directory (S fuel') (strncpy_name nm) (current_directory fs) fs'
    = Some (default (next_dir_id fs)
              (List.find (fun i => String.eqb (d_name (dir_at fs i)) (strncpy_name nm))
                 subdirs)).
Proof.
  intros Hinv Hid Hfuel El.
  destruct (create_directory_total fuel nm fs Hinv Hfuel) as (fs' & r & Ec).
  destruct (create_directory_effect fuel fuel' nm fs fs' r files subdirs Hinv Hid Ec El)
    as (Hr & Hn & Hc & He & Hl & Hf).
  subst r. exists fs'. split; [exact Ec|]. split; [exact Hn|]. split; [exact Hc|].
  split; [exact He|]. split; [exact Hl|exact Hf].
Qed.

Lemma create_directory_appends_witness :
  exists fs,
    invariant fs /\ next_dir_id fs < MAX_DIRECTORIES /\
    list_directory 3 (current_directory fs) fs = Some ([1; 2], [1]) /\
    exists fs',
      create_directory 50 "usr" fs = Some (fs', 2) /\
      list_directory 4 (current_directory fs) fs' = Some ([1; 2], [1] ++ [2]).
Proof.
  assert (F : (fs ← init_filesystem 3;
               '(fs, a) ← create_directory 3 "etc" fs;
               listing ← list_directory 3 (current_directory fs) fs;
               Some (next_dir_id fs, listing)) = Some (2, ([1; 2], [1])))
    by (vm_compute; reflexivity).
  destruct (init_filesystem 3) as [fs0|] eqn:E0; [|discriminate].
  cbn [mbind option_bind] in F.
  destruct (create_directory 3 "etc" fs0) as [[fs a]|] eqn:E1; [|discriminate].
  cbn [mbind option_bind] in F.
  destruct (list_directory 3 (current_directory fs) fs) as [listing|] eqn:El; [|discriminate].
  cbn [mbind option_bind] in F. injection F as Hn ->.
  assert (Hinv : invariant fs).
  { eapply create_directory_invariant; [|exact E1].
    eapply init_filesystem_invariant; exact E0. }
  assert (Hlt : next_dir_id fs < MAX_DIRECTORIES) by (rewrite Hn; unfold MAX_DIRECTORIES; lia).
  assert (Hfuel : (Z.to_nat MAX_DIRECTORIES <= 50)%nat) by (vm_compute; reflexivity).
  exists fs. split; [exact Hinv|]. split; [exact Hlt|]. split; [exact El|].
  destruct (create_directory_appends 50 3 "usr" fs [1; 2] [1] Hinv Hlt Hfuel El)
    as (fs' & Ec & _ & _ & _ & Hl & _).
  rewrite Hn in Ec, Hl. exists fs'. split; [exact Ec|exact Hl].
Defined.

End CreateDirectory.
